(** * Indexed-value algebra and interruption event loop

    A shallow embedding of [causal_pyro/indexed/internals.py] (gather,
    scatter, indices_of on tensors, numbers and partitioned mappings) and of
    [chirho/dynamical/handlers/event_loop.py] (the interruption event loop),
    with the properties of the specification stated over it. *)

From Stdlib Require Import ZArith Lia.
From stdpp Require Import base option list sorting gmap strings.

Local Open Scope Z_scope.

(** ** Python results: a value or a raised exception

    [OutsideModel] is not a Python exception: it marks a call on torch
    that this development does not describe. *)

Inductive pyerr :=
  | KeyError | IndexError | AssertionError | TypeError
  | AttributeError | RuntimeError | NotImplementedError
  | OutsideModel.

Inductive res (X : Type) :=
  | Ok (x : X)
  | Raise (e : pyerr).
Arguments Ok {X} x.
Arguments Raise {X} e.

#[global] Instance res_ret : MRet res := fun _ x => Ok x.
#[global] Instance res_bind : MBind res := fun _ _ k c =>
  match c with
  | Ok x => k x
  | Raise e => Raise e
  end.

(** A [for] loop whose body may raise: the first exception ends the loop. *)
Fixpoint for_each {X S} (body : S → X → res S) (xs : list X) (s : S) : res S :=
  match xs with
  | [] => Ok s
  | x :: xs' => s' ← body s x ; for_each body xs' s'
  end.

(** ** Python sequences and dicts *)

(** [l[d]] for a possibly negative [d]: the position counted from the front,
    when there is one. *)
Definition norm_axis (n : nat) (d : Z) : option nat :=
  if d <? 0
  then (if - d <=? Z.of_nat n then Some (Z.to_nat (Z.of_nat n + d)) else None)
  else (if d <? Z.of_nat n then Some (Z.to_nat d) else None).

Definition py_getitem {X} (l : list X) (d : Z) : res X :=
  match norm_axis (length l) d with
  | Some i => match l !! i with Some x => Ok x | None => Raise IndexError end
  | None => Raise IndexError
  end.

Definition py_setitem {X} (l : list X) (d : Z) (x : X) : res (list X) :=
  match norm_axis (length l) d with
  | Some i => Ok (<[i := x]> l)
  | None => Raise IndexError
  end.

(** A dict keeps insertion order and is iterated in it: an association list
    with distinct keys. [d[k]] raises [KeyError] on a missing key. *)
Abbreviation dict K V := (list (K * V)).

Fixpoint dict_get {V} (d : dict string V) (k : string) : option V :=
  match d with
  | [] => None
  | (k', v) :: d' => if decide (k' = k) then Some v else dict_get d' k
  end.

Definition dict_item {V} (d : dict string V) (k : string) : res V :=
  match dict_get d k with
  | Some v => Ok v
  | None => Raise KeyError
  end.

Definition keys {K V} (d : dict K V) : list K := d.*1.

(** ** Index sets and index plates *)

(** [IndexSet]: a dict from plate name to a non-empty set of indices. *)
Abbreviation IndexSet := (list (string * gset nat)).

(** [sorted(indices)]: the members of the set in ascending order. *)
Definition sorted (s : gset nat) : list nat := merge_sort Nat.le (elements s).

(** [CondIndepStackFrame(name, dim, size, counter)]. *)
Record Frame := mkFrame {
  f_name : string;
  f_dim : Z;
  f_size : nat;
  f_counter : nat
}.

(** What [get_index_plates()] returns: the registry's name → frame dict. *)
Abbreviation Plates := (list (string * Frame)).

(** [{name: f.dim for name, f in get_index_plates().items()}] *)
Definition plate_dims (plates : Plates) : dict string Z :=
  (fun nf => (nf.1, f_dim nf.2)) <$> plates.

(** ** Tensors *)

Section Tensors.

Context {A : Type}.
Variable zero : A.

(** A tensor is its shape and its elements, read at a multi-index (one
    coordinate per axis, leftmost axis first). *)
Record Tensor := mkTensor {
  shape : list nat;
  elem : list nat → A
}.

Definition ndim (t : Tensor) : nat := length (shape t).

(** The multi-indices of a shape: one coordinate below each axis length. *)
Definition in_bounds (sh : list nat) (idx : list nat) : Prop :=
  Forall2 (fun i n => (i < n)%nat) idx sh.

(** [torch.as_tensor(x)] of a number: a tensor with no axes. *)
Definition as_tensor (x : A) : Tensor := mkTensor [] (fun _ => x).

(** [t.new_zeros(sh)] *)
Definition new_zeros (sh : list nat) : Tensor := mkTensor sh (fun _ => zero).

(** [t.index_select(dim, index)]: axis [dim] of the result has one position
    per entry of [index]; position [k] reads position [index[k]] of [t]. An
    entry outside the axis raises. *)
Definition index_select (t : Tensor) (dim : Z) (index : list nat) : res Tensor :=
  match norm_axis (ndim t) dim with
  | None => Raise IndexError
  | Some i =>
      match shape t !! i with
      | None => Raise IndexError
      | Some n =>
          if forallb (fun k => k <? n)%nat index
          then Ok (mkTensor (<[i := length index]> (shape t))
                     (fun idx => elem t (<[i := default 0%nat (idx !! i ≫= (index !!.))]> idx)))
          else Raise IndexError
      end
  end.

(** *** gather *)

(** The body of the loop of [_gather_tensor]. *)
Definition gather_step (event_dim : Z) (name_to_dim : dict string Z)
    (result : Tensor) (item : string * gset nat) : res Tensor :=
  let '(name, indices) := item in
  d ← dict_item name_to_dim name ;
  let dim := d - event_dim in
  if Z.of_nat (ndim result) <? - dim then Ok result
  else
    n ← py_getitem (shape result) dim ;
    if (n =? 1)%nat then Ok result
    else index_select result dim (sorted indices).

Definition _gather_tensor (plates : Plates) (value : Tensor) (indexset : IndexSet)
    (event_dim : option Z) (name_to_dim : option (dict string Z)) : res Tensor :=
  let event_dim := default 0 event_dim in
  let name_to_dim := default (plate_dims plates) name_to_dim in
  for_each (gather_step event_dim name_to_dim) indexset value.

(** *** indices_of *)

(** The constructor of [IndexSet]: keys with an empty set are left out. *)
Definition mk_IndexSet (mapping : dict string (gset nat)) : IndexSet :=
  filter (fun kv => kv.2 ≠ ∅) mapping.

(** [set(range(n))] *)
Definition set_range (n : nat) : gset nat := list_to_set (seq 0 n).

(** Modelled from the spec: [union] of [causal_pyro.indexed.ops], which is
    not among the sources; it "merges by key-wise set union, omitting keys
    whose merged set is empty". The keys of the first argument come first. *)
Definition union (a b : IndexSet) : IndexSet :=
  mk_IndexSet
    (((fun kv => (kv.1, kv.2 ∪ default ∅ (dict_get b kv.1))) <$> a)
     ++ filter (fun kv => dict_get a kv.1 = None) b).

(** [union] of any number of index sets. *)
Definition union_all (ixs : list IndexSet) : IndexSet := foldr union [] ixs.

(** The keyword arguments the [indices_of] implementations read. An entry
    is [None] when the keyword is not passed, [Some None] when Python's
    [None] is passed. *)
Record Kwargs := mkKwargs {
  kw_event_dim : option (option Z);
  kw_name_to_dim : option (option (dict string Z))
}.

(** [l[:k]], with Python's reading of a negative or too large [k]. *)
Definition py_slice_to {X} (l : list X) (k : Z) : list X :=
  let n := Z.of_nat (length l) in
  let k' := if k <? 0 then Z.max 0 (k + n) else Z.min k n in
  take (Z.to_nat k') l.

(** One [name, dim] of the dict comprehension of [_indices_of_shape]. *)
Definition indices_of_shape_item (value : list nat)
    (acc : dict string (gset nat)) (item : string * Z) : res (dict string (gset nat)) :=
  let '(name, dim) := item in
  if - dim <=? Z.of_nat (length value)
  then
    n ← py_getitem value dim ;
    if (1 <? n)%nat then Ok (acc ++ [(name, set_range n)]) else Ok acc
  else Ok acc.

Definition _indices_of_shape (plates : Plates) (value : list nat) (kw : Kwargs)
    : res IndexSet :=
  let name_to_dim := default (Some (plate_dims plates)) (kw_name_to_dim kw) in
  event_dim ← match default (Some 0) (kw_event_dim kw) with
              | Some e => Ok e
              | None => Raise TypeError
              end ;
  let value := py_slice_to value (Z.of_nat (length value) - event_dim) in
  name_to_dim ← match name_to_dim with
                | Some m => Ok m
                | None => Raise AttributeError
                end ;
  mapping ← for_each (indices_of_shape_item value) name_to_dim [] ;
  Ok (mk_IndexSet mapping).

(** The values the operations are dispatched on. A bool is held as the
    element it converts to. *)
Inductive pyval :=
  | VNumber (x : A)
  | VBool (x : A)
  | VNone
  | VShape (sh : list nat)
  | VTensor (t : Tensor)
  | VDistribution (batch_shape : list nat).

(** [indices_of], by the type of its argument: [_indices_of_number],
    [_indices_of_bool], [_indices_of_none], [_indices_of_shape],
    [_indices_of_tensor] and [_indices_of_distribution]. *)
Definition indices_of (plates : Plates) (value : pyval) (kw : Kwargs) : res IndexSet :=
  match value with
  | VNumber _ => Ok []
  | VBool _ => Ok []
  | VNone => Ok []
  | VShape sh => _indices_of_shape plates sh kw
  | VTensor t => _indices_of_shape plates (shape t) kw
  | VDistribution batch_shape =>
      _indices_of_shape plates batch_shape
        (mkKwargs (Some (Some 0)) (kw_name_to_dim kw))
  end.

(** *** scatter *)

(** [torch.broadcast_shapes(a, b)], on the shapes read from the right. *)
Fixpoint broadcast_rev (a b : list nat) : res (list nat) :=
  match a, b with
  | [], _ => Ok b
  | _, [] => Ok a
  | x :: a', y :: b' =>
      rest ← broadcast_rev a' b' ;
      if (x =? y)%nat then Ok (x :: rest)
      else if (x =? 1)%nat then Ok (y :: rest)
      else if (y =? 1)%nat then Ok (x :: rest)
      else Raise RuntimeError
  end.

Definition broadcast_shapes (a b : list nat) : res (list nat) :=
  r ← broadcast_rev (rev a) (rev b) ; Ok (rev r).

(** [max(l)] of a non-empty list of ints. *)
Definition max_list_Z (l : list Z) : Z := foldr Z.max (default 0 (head l)) l.

(** An index tensor [torch.tensor(vals).reshape((-1,) + (1,) * trailing)]:
    one axis holding [vals], then [trailing] axes of length 1 (none when
    [trailing] is negative). *)
Record IndexTensor := mkIndexTensor {
  it_vals : list nat;
  it_trailing : Z
}.

(** [torch.arange(0, n).reshape((-1,) + (1,) * trailing)] *)
Definition arange_reshaped (n : nat) (trailing : Z) : IndexTensor :=
  mkIndexTensor (seq 0 n) trailing.

(** The first position of [x] in [l]. *)
Fixpoint index_of (x : nat) (l : list nat) : option nat :=
  match l with
  | [] => None
  | y :: l' => if decide (y = x) then Some 0%nat else S <$> index_of x l'
  end.

(** Where a position of the written tensor sits in a mesh of index lists:
    per axis, the place of its coordinate in that axis's list. *)
Fixpoint locate (index : list (list nat)) (pos : list nat) : option (list nat) :=
  match index, pos with
  | [], [] => Some []
  | vals :: index', p :: pos' =>
      k ← index_of p vals ; ks ← locate index' pos' ; Some (k :: ks)
  | _, _ => None
  end.

(** The position a tensor of shape [sh] is read at for position [j] of a
    shape it is expanded to: the coordinates of its own (rightmost) axes, 0
    along its axes of length 1. *)
Definition expand_index (sh j : list nat) : list nat :=
  zip_with (fun c n => if (n =? 1)%nat then 0%nat else c)
    (drop (length j - length sh) j) sh.

(** [value] read at position [j] of a shape it is expanded to. *)
Definition expand_read (value : Tensor) (j : list nat) : A :=
  elem value (expand_index (shape value) j).

(** Whether a shape can be expanded to [target]. *)
Definition expandable (sh target : list nat) : bool :=
  bool_decide (length sh ≤ length target)%nat
  && forallb (fun p => (p.1 =? p.2)%nat || (p.1 =? 1)%nat)
       (zip (rev sh) (rev target)).

(** A tensor without its leading axes of length 1. *)
Fixpoint strip_ones (sh : list nat) : list nat :=
  match sh with
  | 1%nat :: sh' => strip_ones sh'
  | _ => sh
  end.

Definition strip_leading_ones (t : Tensor) : Tensor :=
  let sh := strip_ones (shape t) in
  mkTensor sh (fun idx => elem t (replicate (ndim t - length sh) 0%nat ++ idx)).

(** [result[tuple(index)] = value], for index tensors that form a mesh: one
    per axis of [result], the one of axis [i] followed by as many axes of
    length 1 as [result] has axes after [i], so that together they broadcast
    to the shape of their lengths and address the product of their values.
    torch raises when an index is outside its axis or when [value] (its
    leading axes of length 1 dropped) cannot be expanded to that shape.
    Index tensors of any other layout are outside this model
    ([OutsideModel]); the written tensor is the content of [result] after
    the assignment. *)
Definition index_put (result : Tensor) (index : list IndexTensor) (value : Tensor)
    : res Tensor :=
  let n := ndim result in
  if negb (bool_decide (length index = n)) then Raise OutsideModel
  else if negb (forallb (fun p => it_trailing p.2 =? Z.of_nat n - 1 - Z.of_nat p.1)
                  (imap (fun i it => (i, it)) index))
  then Raise OutsideModel
  else if negb (forallb (fun p => forallb (fun k => k <? p.2)%nat (it_vals p.1))
                  (zip index (shape result)))
  then Raise IndexError
  else
    let vals := it_vals <$> index in
    let value := strip_leading_ones value in
    if negb (expandable (shape value) (length <$> vals)) then Raise RuntimeError
    else Ok (mkTensor (shape result)
               (fun pos => match locate vals pos with
                           | Some j => expand_read value j
                           | None => elem result pos
                           end)).

(** The loop of [_scatter_tensor] that sizes the allocated result. *)
Definition result_shape_step (plates : Plates) (event_dim : Z)
    (name_to_dim : dict string Z) (result_shape : list nat)
    (item : string * gset nat) : res (list nat) :=
  let '(name, indices) := item in
  f ← dict_item plates name ;
  d ← dict_item name_to_dim name ;
  py_setitem result_shape (d - event_dim) (f_size f).

(** The loop of [_scatter_tensor] that overrides the index of named axes. *)
Definition index_step (result : Tensor) (event_dim : Z)
    (name_to_dim : dict string Z) (index : list IndexTensor)
    (item : string * gset nat) : res (list IndexTensor) :=
  let '(name, indices) := item in
  d ← dict_item name_to_dim name ;
  n ← py_getitem (shape result) (d - event_dim) ;
  if (1 <? n)%nat
  then
    d' ← dict_item name_to_dim name ;
    py_setitem index (d' - event_dim)
      (mkIndexTensor (sorted indices) (event_dim - d' - 1))
  else Ok index.

(** [_scatter_tensor]. [result] is the content of the tensor passed as
    [result], if one is; the tensor returned is the content of that same
    tensor after the assignment, or of the newly allocated one. *)
Definition _scatter_tensor (plates : Plates) (value : Tensor) (indexset : IndexSet)
    (result : option Tensor) (event_dim : option Z)
    (name_to_dim : option (dict string Z)) : res Tensor :=
  let event_dim := default 0 event_dim in
  let name_to_dim := default (plate_dims plates) name_to_dim in
  value ← _gather_tensor plates value indexset (Some event_dim) (Some name_to_dim) ;
  ix ← indices_of plates (VTensor value)
         (mkKwargs (Some (Some event_dim)) (Some (Some name_to_dim))) ;
  let indexset := union indexset ix in
  result ← match result with
           | Some r => Ok r
           | None =>
               let index_plates := plates in
               result_shape ← broadcast_shapes (shape value)
                 (replicate
                    (Z.to_nat (max_list_Z (((fun nf => event_dim - f_dim nf.2) <$> index_plates) ++ [0])))
                    1%nat) ;
               result_shape ← for_each (result_shape_step index_plates event_dim name_to_dim)
                                indexset result_shape ;
               Ok (new_zeros result_shape)
           end ;
  let index := (fun i => arange_reshaped (default 0%nat (shape result !! i))
                           (Z.of_nat (ndim result) - 1 - Z.of_nat i))
               <$> seq 0 (ndim result) in
  index ← for_each (index_step result event_dim name_to_dim) indexset index ;
  index_put result index value.

(** [event_dim is None or event_dim == 0] *)
Definition event_dim_none_or_zero (event_dim : option Z) : bool :=
  match event_dim with
  | None => true
  | Some e => e =? 0
  end.

(** [gather], by the type of its value: [_gather_number] and
    [_gather_tensor]; no other type of this model has an implementation. *)
Definition gather (plates : Plates) (value : pyval) (indexset : IndexSet)
    (event_dim : option Z) (name_to_dim : option (dict string Z)) : res Tensor :=
  match value with
  | VNumber x | VBool x =>
      if event_dim_none_or_zero event_dim
      then _gather_tensor plates (as_tensor x) indexset event_dim name_to_dim
      else Raise AssertionError
  | VTensor t => _gather_tensor plates t indexset event_dim name_to_dim
  | _ => Raise NotImplementedError
  end.

(** [scatter] of a value and an index set, by the type of the value:
    [_scatter_number] and [_scatter_tensor]. *)
Definition scatter (plates : Plates) (value : pyval) (indexset : IndexSet)
    (result : option Tensor) (event_dim : option Z)
    (name_to_dim : option (dict string Z)) : res Tensor :=
  match value with
  | VNumber x | VBool x =>
      if event_dim_none_or_zero event_dim
      then _scatter_tensor plates (as_tensor x) indexset result event_dim name_to_dim
      else Raise AssertionError
  | VTensor t => _scatter_tensor plates t indexset result event_dim name_to_dim
  | _ => Raise NotImplementedError
  end.

(** [(a == b).all()]: the shapes broadcast together, and the two tensors,
    expanded to the common shape, hold the same element at every position. *)
Definition tensor_eq_broadcast (a b : Tensor) : Prop :=
  ∃ bs, broadcast_shapes (shape a) (shape b) = Ok bs
        ∧ ∀ pos, in_bounds bs pos → expand_read a pos = expand_read b pos.

End Tensors.

Arguments Tensor A : clear implicits.

Arguments pyval A : clear implicits.

(** ** Definitions used to state the properties *)

(** The entry the comprehension of [_indices_of_shape] makes of one
    [name, dim], if it makes one. *)
Definition shape_entry (value : list nat) (item : string * Z)
    : option (string * gset nat) :=
  if - item.2 <=? Z.of_nat (length value)
  then match py_getitem value item.2 with
       | Ok n => if (1 <? n)%nat then Some (item.1, set_range n) else None
       | Raise _ => None
       end
  else None.

(** The axis of a tensor of [n] axes that [name] names under [name_to_dim]
    and [event_dim], counted from the front; none when the name is unknown or
    the tensor has too few axes. *)
Definition axis_of (name_to_dim : dict string Z) (event_dim : Z) (n : nat)
    (name : string) : option nat :=
  d ← dict_get name_to_dim name ; norm_axis n (d - event_dim).

(** The names of an index set reach axes to the left of the event axes, and
    different names reach different axes. *)
Definition names_axes (name_to_dim : dict string Z) (event_dim : Z)
    (ix : IndexSet) : Prop :=
  NoDup (keys ix)
  ∧ (∀ name, name ∈ keys ix →
       ∃ d, dict_get name_to_dim name = Some d ∧ d - event_dim < 0)
  ∧ (∀ name1 name2 d, name1 ∈ keys ix → name2 ∈ keys ix →
       dict_get name_to_dim name1 = Some d → dict_get name_to_dim name2 = Some d →
       name1 = name2).

(** The dims of a [name_to_dim] are those of distinct axes to the left of
    the event axes. *)
Definition dims_distinct (name_to_dim : dict string Z) (event_dim : Z) : Prop :=
  NoDup (keys name_to_dim)
  ∧ (∀ name d, (name, d) ∈ name_to_dim → d - event_dim < 0)
  ∧ (∀ name1 name2 d, (name1, d) ∈ name_to_dim → (name2, d) ∈ name_to_dim →
       name1 = name2).

(** The sets of an index set are not empty and hold indices below the
    registered sizes of their plates. *)
Definition indices_in_plates (plates : Plates) (ix : IndexSet) : Prop :=
  ∀ name S, (name, S) ∈ ix →
    S ≠ ∅ ∧ ∀ f, dict_get plates name = Some f → ∀ k, k ∈ S → (k < f_size f)%nat.

(** An index set asks, for each of its names, for every position of the
    name's plate, and [name_to_dim] gives the name the plate's dim. *)
Definition covers_plates (plates : Plates) (name_to_dim : dict string Z)
    (ix : IndexSet) : Prop :=
  ∀ name S, (name, S) ∈ ix →
    ∃ f, dict_get plates name = Some f ∧ dict_get name_to_dim name = Some (f_dim f)
         ∧ (0 < f_size f)%nat ∧ S = set_range (f_size f).

(** The axes of a shape that [name_to_dim] names have length 1 or the
    registered size of the name's plate. *)
Definition shaped_by_plates (plates : Plates) (name_to_dim : dict string Z)
    (event_dim : Z) (sh : list nat) : Prop :=
  ∀ name d i n, dict_get name_to_dim name = Some d →
    axis_of name_to_dim event_dim (length sh) name = Some i → sh !! i = Some n →
    n = 1%nat ∨ ∃ f, dict_get plates name = Some f ∧ n = f_size f.

(** ** scatter of a partitioned value, on the store *)

Section Store.

Context {A : Type}.
Variable zero : A.

(** The state of the handlers that hold the index-plate registry, read by
    [get_index_plates] and changed by the handlers of the [add_indices]
    effect. *)
Context {World : Type}.
Variable get_index_plates : World → Plates.
Variable add_indices_handlers : IndexSet → World → World.

(** Tensors are objects: [result] names one, and [scatter] writes to it. *)
Definition loc := nat.

Inductive Effect :=
  | EAddIndices (indexset : IndexSet)
  | EScatter (indexset : IndexSet) (result : option loc).

Record Store := mkStore {
  tensors : gmap loc (Tensor A);
  world : World;
  effects : list Effect
}.

(** [add_indices(indexset)]: the effect is handled, the index set returned. *)
Definition add_indices (indexset : IndexSet) (σ : Store) : res IndexSet * Store :=
  (Ok indexset,
   mkStore (tensors σ) (add_indices_handlers indexset (world σ))
     (effects σ ++ [EAddIndices indexset])).

(** [scatter(value, indexset, result=result, ...)] on the store: the tensor
    named by [result] is assigned to in place and returned; without one a
    new tensor is allocated. *)
Definition scatter_in_store (value : pyval A) (indexset : IndexSet)
    (result : option loc) (event_dim : option Z)
    (name_to_dim : option (dict string Z)) (σ : Store) : res loc * Store :=
  let σ := mkStore (tensors σ) (world σ) (effects σ ++ [EScatter indexset result]) in
  let plates := get_index_plates (world σ) in
  match result with
  | Some l =>
      match tensors σ !! l with
      | None => (Raise OutsideModel, σ)
      | Some r =>
          match scatter zero plates value indexset (Some r) event_dim name_to_dim with
          | Ok r' => (Ok l, mkStore (<[l := r']> (tensors σ)) (world σ) (effects σ))
          | Raise e => (Raise e, σ)
          end
      end
  | None =>
      match scatter zero plates value indexset None event_dim name_to_dim with
      | Ok r' =>
          let l := fresh (dom (tensors σ)) in
          (Ok l, mkStore (<[l := r']> (tensors σ)) (world σ) (effects σ))
      | Raise e => (Raise e, σ)
      end
  end.

(** A key of the mapping passed to [scatter]: an [IndexSet] or not. *)
Inductive pykey :=
  | KIndexSet (indexset : IndexSet)
  | KOther (k : string).

Definition isinstance_IndexSet (k : pykey) : bool :=
  match k with
  | KIndexSet _ => true
  | KOther _ => false
  end.

Definition key_indexsets (ks : list pykey) : list IndexSet :=
  omap (fun k => match k with KIndexSet ix => Some ix | KOther _ => None end) ks.

(** The [for] loop of [_scatter_dict]. *)
Fixpoint scatter_partitions (items : list (pykey * pyval A)) (result : option loc)
    (event_dim : option Z) (name_to_dim : option (dict string Z)) (σ : Store)
    : res (option loc) * Store :=
  match items with
  | [] => (Ok result, σ)
  | (KOther _, _) :: _ => (Raise OutsideModel, σ)
  | (KIndexSet indices, value) :: items' =>
      match scatter_in_store value indices result event_dim name_to_dim σ with
      | (Ok l, σ') => scatter_partitions items' (Some l) event_dim name_to_dim σ'
      | (Raise e, σ') => (Raise e, σ')
      end
  end.

(** [_scatter_dict] *)
Definition _scatter_dict (partitioned_values : dict pykey (pyval A))
    (result : option loc) (event_dim : option Z)
    (name_to_dim : option (dict string Z)) (σ : Store) : res (option loc) * Store :=
  if negb (0 <? length partitioned_values)%nat then (Raise AssertionError, σ)
  else if negb (forallb isinstance_IndexSet (keys partitioned_values))
  then (Raise AssertionError, σ)
  else
    let '(_, σ) := add_indices (union_all (key_indexsets (keys partitioned_values))) σ in
    scatter_partitions partitioned_values result event_dim name_to_dim σ.

End Store.

(** ** The interruption event loop *)

Module EventLoop.

(** A messenger on pyro's handler stack: its identity, and whether it is an
    instance of [Interruption]. *)
Record Messenger := mkMessenger {
  m_id : nat;
  is_interruption : bool
}.

#[global] Instance Messenger_eq_dec : EqDecision Messenger.
Proof. solve_decision. Defined.

(** [block_messengers(predicate)]: inside the [with] block the handler stack
    is the stack without the messengers the predicate holds of. *)
Definition block_messengers (predicate : Messenger → bool) (stack : list Messenger)
    : list Messenger :=
  filter (fun m => predicate m = false) stack.

Section Loop.

Context {Dynamics State Time Solver : Type}.

(** [start_time < end_time] *)
Variable lt_time : Time → Time → bool.

(** The operations of [chirho.dynamical.internals.solver], which the handlers
    on the stack interpret: each is a function of the stack it runs under. *)
Variable get_solver : list Messenger → Solver.
Variable get_next_interruptions :
  list Messenger → Solver → Dynamics → State → Time → Time → list Messenger * Time.
Variable simulate_to_interruption :
  list Messenger → Solver → Dynamics → State → Time → Time → State.
Variable apply_interruptions :
  list Messenger → Dynamics → State → Dynamics * State.

(** What the loop carries from one iteration to the next; [l_used] holds the
    identities of the messengers whose [used] attribute is [True]. *)
Record LoopState := mkLoopState {
  l_dynamics : Dynamics;
  l_state : State;
  l_start_time : Time;
  l_used : gset nat
}.

(** What one iteration did: the span it integrated over, the stack its
    discovery and integration phase ran under, the interruptions that
    phase returned, the [used] attributes once these are marked, and the
    stack its effect phase ran under. *)
Record Iteration := mkIteration {
  it_from : Time;
  it_to : Time;
  it_discovery : list Messenger;
  it_terminal : list Messenger;
  it_used : gset nat;
  it_effect : list Messenger
}.

Definition used_pred (self : Messenger) (used : gset nat) (m : Messenger) : bool :=
  bool_decide (m = self) || (is_interruption m && bool_decide (m_id m ∈ used)).

Definition not_terminal_pred (terminal_interruptions : list Messenger)
    (m : Messenger) : bool :=
  is_interruption m && negb (bool_decide (m ∈ terminal_interruptions)).

(** The body of the [while] loop. *)
Definition iteration (stack : list Messenger) (self : Messenger) (solver : Solver)
    (end_time : Time) (l : LoopState) : Iteration * LoopState :=
  let visible := block_messengers (used_pred self (l_used l)) stack in
  let '(terminal_interruptions, interruption_time) :=
    get_next_interruptions visible solver (l_dynamics l) (l_state l)
      (l_start_time l) end_time in
  let state :=
    simulate_to_interruption visible solver (l_dynamics l) (l_state l)
      (l_start_time l) interruption_time in
  let used := l_used l ∪ list_to_set (m_id <$> terminal_interruptions) in
  let live := block_messengers (not_terminal_pred terminal_interruptions) stack in
  let '(dynamics, state) := apply_interruptions live (l_dynamics l) state in
  (mkIteration (l_start_time l) interruption_time visible terminal_interruptions
     used live,
   mkLoopState dynamics state interruption_time used).

(** The [while] loop, run for at most [fuel] tests of its condition: the
    iterations it made, and the state it ended in if it ended. *)
Fixpoint simulate_loop (fuel : nat) (stack : list Messenger) (self : Messenger)
    (solver : Solver) (end_time : Time) (l : LoopState)
    : list Iteration * option LoopState :=
  match fuel with
  | O => ([], None)
  | S fuel' =>
      if lt_time (l_start_time l) end_time
      then
        let '(it, l') := iteration stack self solver end_time l in
        let '(its, final) := simulate_loop fuel' stack self solver end_time l' in
        (it :: its, final)
      else ([], Some l)
  end.

(** [InterruptionEventLoop._pyro_simulate]: [args] and the [solver] keyword
    are those of the message; the result holds [msg["value"]] and the
    [used] attributes after the call. *)
Definition _pyro_simulate (fuel : nat) (stack : list Messenger) (self : Messenger)
    (used : gset nat) (args : Dynamics * State * Time * Time)
    (solver_kwarg : option Solver)
    : list Iteration * option (State * gset nat) :=
  let '(dynamics, state, start_time, end_time) := args in
  let solver := match solver_kwarg with
                | Some solver => solver
                | None => get_solver stack
                end in
  let '(its, final) :=
    simulate_loop fuel stack self solver end_time
      (mkLoopState dynamics state start_time used) in
  (its, (fun l => (l_state l, l_used l)) <$> final).

End Loop.

End EventLoop.

(** ** An instance of the event loop: two static interruptions

    The handlers that interpret the solver operations are not among the
    sources; this instance gives them a simple reading, used to run the
    loop: every interruption has a fixed time, discovery returns the visible
    interruption that comes first in the span (or a new interruption at
    [end_time], which is on no stack), integration adds the length of the
    span to a clock, and the effect phase records which interruptions were
    on its stack. *)

Module LoopExample.

Import EventLoop.

Definition the_loop : Messenger := mkMessenger 0 false.
Definition int_A : Messenger := mkMessenger 1 true.
Definition int_B : Messenger := mkMessenger 2 true.
Definition stack : list Messenger := [the_loop; int_A; int_B].

Definition fire_time (m : Messenger) : Z :=
  if decide (m_id m = 1%nat) then 2 else 5.

Fixpoint earliest (ms : list Messenger) : option Messenger :=
  match ms with
  | [] => None
  | m :: ms' =>
      match earliest ms' with
      | Some m' => if fire_time m <=? fire_time m' then Some m else Some m'
      | None => Some m
      end
  end.

Definition get_next (visible : list Messenger) (solver : unit) (d : unit)
    (s : Z * list nat) (t0 t1 : Z) : list Messenger * Z :=
  match earliest (filter (fun m => is_interruption m = true
                                   ∧ t0 ≤ fire_time m ∧ fire_time m < t1) visible) with
  | Some m => ([m], fire_time m)
  | None => ([mkMessenger 99 true], t1)
  end.

Definition integrate (visible : list Messenger) (solver : unit) (d : unit)
    (s : Z * list nat) (t0 t1 : Z) : Z * list nat :=
  (s.1 + (t1 - t0), s.2).

Definition apply_effects (live : list Messenger) (d : unit) (s : Z * list nat)
    : unit * (Z * list nat) :=
  (d, (s.1, s.2 ++ (m_id <$> filter (fun m => is_interruption m = true) live))).

Definition run (fuel : nat) :=
  _pyro_simulate Z.ltb (fun _ => tt) get_next integrate apply_effects
    fuel stack the_loop ∅ (tt, (0, []), 0, 10) None.

End LoopExample.

(** ** Plates that apply only where a site varies *)

Section LazyPlate.

Context {A : Type}.

(** The attributes of an [IndepMessenger]. *)
Record IndepMessenger := mkIndepMessenger {
  im_name : string;
  im_dim : Z;
  im_size : nat;
  im_counter : nat
}.

(** The [frame] property of [_LazyPlateMessenger]: its counter is 0. *)
Definition frame (self : IndepMessenger) : Frame :=
  mkFrame (im_name self) (im_dim self) (im_size self) 0.

(** What is read of [msg["fn"]], a distribution. *)
Record Distribution := mkDistribution {
  d_batch_shape : list nat;
  d_event_dim : Z
}.

(** A message: the entries [_process_message] reads, and the others. *)
Context {Entries : Type}.

Record Msg := mkMsg {
  msg_type : string;
  msg_fn : Distribution;
  msg_value : pyval A;
  msg_entries : Entries
}.

(** [pyro.poutine.util.site_is_subsample] and [_process_message] of pyro's
    [IndepMessenger], which are not among the sources; the latter gives the
    message as it is after the call. *)
Variable site_is_subsample : Msg → bool.
Variable IndepMessenger_process_message : IndepMessenger → Msg → Msg.

(** [_LazyPlateMessenger._process_message]: the message after the call.
    [name in indexset] tests the keys of the index set. *)
Definition _process_message (plates : Plates) (self : IndepMessenger) (msg : Msg)
    : res Msg :=
  if negb (bool_decide (msg_type msg = "sample")) || site_is_subsample msg
  then Ok msg
  else
    of_value ← indices_of plates (msg_value msg)
                 (mkKwargs (Some (Some (d_event_dim (msg_fn msg)))) None) ;
    of_fn ← indices_of (A:=A) plates (VDistribution (d_batch_shape (msg_fn msg)))
              (mkKwargs None None) ;
    if bool_decide (f_name (frame self) ∈ keys (union of_value of_fn))
    then Ok (IndepMessenger_process_message self msg)
    else Ok msg.

End LazyPlate.

(** ** The device of a sample site *)

Section SampleDevice.

Context {Device : Type}.

(** An object as [get_sample_msg_device] tells objects apart: a tensor on a
    device, or anything else. *)
Inductive pyobj :=
  | ObjTensor (device : Device)
  | ObjOther.

(** A distribution object: its [base_dist] attribute if it has one, the
    keys of its [arg_constraints] in order, and its other attributes. *)
Inductive DistObj :=
  | mkDistObj (base_dist : option DistObj) (arg_constraints : list string)
      (attrs : dict string pyobj).

Definition base_dist (d : DistObj) : option DistObj :=
  match d with mkDistObj b _ _ => b end.

Definition arg_constraints (d : DistObj) : list string :=
  match d with mkDistObj _ names _ => names end.

Definition attrs (d : DistObj) : dict string pyobj :=
  match d with mkDistObj _ _ a => a end.

(** What a call of [get_sample_msg_device] ends in. *)
Inductive device_error :=
  | DeviceValueError
  | DeviceAttributeError.

Inductive device_res :=
  | DeviceOk (device : Device)
  | DeviceRaise (e : device_error).

(** [while hasattr(dist_, "base_dist"): dist_ = dist_.base_dist] *)
Fixpoint innermost_base_dist (dist_ : DistObj) : DistObj :=
  match dist_ with
  | mkDistObj (Some b) _ _ => innermost_base_dist b
  | mkDistObj None _ _ => dist_
  end.

(** The [for] loop over [dist_.arg_constraints.keys()]; falling out of it
    reaches the [raise ValueError]. *)
Fixpoint first_tensor_device (a : dict string pyobj) (param_names : list string)
    : device_res :=
  match param_names with
  | [] => DeviceRaise DeviceValueError
  | param_name :: rest =>
      match dict_get a param_name with
      | None => DeviceRaise DeviceAttributeError
      | Some (ObjTensor device) => DeviceOk device
      | Some ObjOther => first_tensor_device a rest
      end
  end.

Definition get_sample_msg_device (dist : DistObj) (value : pyobj) : device_res :=
  match value with
  | ObjTensor device => DeviceOk device
  | ObjOther =>
      let dist_ := innermost_base_dist dist in
      first_tensor_device (attrs dist_) (arg_constraints dist_)
  end.

End SampleDevice.

Arguments pyobj Device : clear implicits.
Arguments DistObj Device : clear implicits.
Arguments device_res Device : clear implicits.

(** ** Positions and requests *)

(** A position of a tensor of [n] axes is requested by an index set when its
    coordinate along the axis of every name is among the name's indices, and
    missed by it when its coordinate along the axis of one name is not. *)
Definition requested (name_to_dim : dict string Z) (event_dim : Z) (n : nat)
    (ix : IndexSet) (pos : list nat) : Prop :=
  ∀ name S i c, (name, S) ∈ ix → axis_of name_to_dim event_dim n name = Some i →
    pos !! i = Some c → c ∈ S.

Definition missed (name_to_dim : dict string Z) (event_dim : Z) (n : nat)
    (ix : IndexSet) (pos : list nat) : Prop :=
  ∃ name S i c, (name, S) ∈ ix ∧ axis_of name_to_dim event_dim n name = Some i
                ∧ pos !! i = Some c ∧ c ∉ S.

(** A mapping of partitions whose values are tensors, as [scatter] takes
    it. *)
Definition partitioned {A} (parts : list (IndexSet * Tensor A))
    : dict pykey (pyval A) :=
  (fun p => (KIndexSet p.1, VTensor p.2)) <$> parts.

(** What the partitions of a mapping have in common when they are pieces
    of one value: tensors of one shape [sh], under index sets over the same
    [names], each asking for positions of registered plates. *)
Definition good_partition {A} (plates : Plates) (name_to_dim : dict string Z)
    (sh : list nat) (names : list string) (p : IndexSet * Tensor A) : Prop :=
  shape p.2 = sh ∧ NoDup (keys p.1)
  ∧ (∀ name, name ∈ keys p.1 ↔ name ∈ names)
  ∧ ∀ name S, (name, S) ∈ p.1 →
      ∃ f, dict_get plates name = Some f ∧ dict_get name_to_dim name = Some (f_dim f)
           ∧ S ≠ ∅ ∧ ∀ k, k ∈ S → (k < f_size f)%nat.

(** A tensor that such partitions can be scattered into: it has an axis
    for every axis of [sh], as long as that of [sh] where that is not of
    length 1, and the size of the plate along the axis of every name. *)
Definition fits {A} (plates : Plates) (name_to_dim : dict string Z) (event_dim : Z)
    (sh : list nat) (names : list string) (r0 : Tensor A) : Prop :=
  (length sh ≤ ndim r0)%nat
  ∧ (∀ name, name ∈ names →
       ∃ i f, axis_of name_to_dim event_dim (ndim r0) name = Some i
              ∧ dict_get plates name = Some f
              ∧ shape r0 !! i = Some (f_size f))
  ∧ (∀ j n, sh !! j = Some n → n ≠ 1%nat →
       shape r0 !! (ndim r0 - length sh + j)%nat = Some n).


(** * Properties *)

(** ** Dicts and Python indexing *)

Lemma dict_get_Some_elem {V} (d : dict string V) k v :
  dict_get d k = Some v → (k, v) ∈ d.
Proof.
  induction d as [| [k' v'] d IH]; cbn; [done |].
  case_decide as Hk; [intros [= ->]; subst; left | intros ?; right; auto].
Qed.

Lemma dict_get_elem {V} (d : dict string V) k v :
  NoDup (keys d) → (k, v) ∈ d → dict_get d k = Some v.
Proof.
  unfold keys. induction d as [| [k' v'] d IH]; cbn; [by intros _ ?%elem_of_nil |].
  intros [Hk' Hnd]%NoDup_cons [[= -> ->] | Hin]%elem_of_cons.
  - by rewrite decide_True.
  - rewrite decide_False; [by apply IH |].
    intros ->. apply Hk', list_elem_of_fmap. by exists (k, v).
Qed.

Lemma dict_get_None {V} (d : dict string V) k :
  dict_get d k = None ↔ k ∉ keys d.
Proof.
  unfold keys. induction d as [| [k' v'] d IH]; cbn.
  - split; [intros _ ?%elem_of_nil; done | done].
  - case_decide as Hk.
    + subst. split; [done | intros []; left].
    + rewrite IH, not_elem_of_cons. split; [by intros ? | by intros [_ ?]].
Qed.

Lemma norm_axis_lt n d i : norm_axis n d = Some i → (i < n)%nat.
Proof. unfold norm_axis. repeat case_match; intros [= <-]; lia. Qed.

Lemma norm_axis_neg n d :
  d < 0 → norm_axis n d
          = if - d <=? Z.of_nat n then Some (Z.to_nat (Z.of_nat n + d)) else None.
Proof. intros Hd. unfold norm_axis. by rewrite (proj2 (Z.ltb_lt _ _) Hd). Qed.

Lemma py_getitem_Ok {X} (l : list X) d x :
  py_getitem l d = Ok x ↔ ∃ i, norm_axis (length l) d = Some i ∧ l !! i = Some x.
Proof.
  unfold py_getitem. destruct (norm_axis _ _) as [i |] eqn:Hi.
  - destruct (l !! i) as [y |] eqn:Hl.
    + split; [intros [= ->]; eauto | intros (? & [= <-] & ?); congruence].
    + split; [done | intros (? & [= <-] & ?); congruence].
  - split; [done | by intros (? & [=] & ?)].
Qed.

Lemma py_getitem_is_Ok {X} (l : list X) d i :
  norm_axis (length l) d = Some i → ∃ x, py_getitem l d = Ok x ∧ l !! i = Some x.
Proof.
  intros Hi. unfold py_getitem. rewrite Hi.
  destruct (lookup_lt_is_Some_2 l i (norm_axis_lt _ _ _ Hi)) as [x Hx].
  exists x. by rewrite Hx.
Qed.

Lemma elem_of_set_range n k : k ∈ set_range n ↔ (k < n)%nat.
Proof.
  unfold set_range. rewrite elem_of_list_to_set, elem_of_seq. lia.
Qed.

(** ** indices_of on shapes *)

Lemma for_each_cons {X S} (body : S → X → res S) x xs s :
  for_each body (x :: xs) s = body s x ≫= for_each body xs.
Proof. reflexivity. Qed.

Lemma omap_cons_eq {X Y} (f : X → option Y) x l :
  omap f (x :: l) = match f x with Some y => y :: omap f l | None => omap f l end.
Proof. reflexivity. Qed.

Lemma res_bind_Ok {X Y} (k : X → res Y) x : Ok x ≫= k = k x.
Proof. reflexivity. Qed.

Lemma for_each_shape_items value (m : dict string Z) acc :
  (∀ name d, (name, d) ∈ m → d < Z.of_nat (length value)) →
  for_each (indices_of_shape_item value) m acc = Ok (acc ++ omap (shape_entry value) m).
Proof.
  revert acc. induction m as [| [name d] m IH]; intros acc Hd.
  { cbn. by rewrite app_nil_r. }
  assert (d < Z.of_nat (length value)) as Hlt by (apply (Hd name); left).
  assert (∀ name' d', (name', d') ∈ m → d' < Z.of_nat (length value)) as Hd'
    by (intros ???; eapply Hd; by right).
  rewrite for_each_cons.
  change (indices_of_shape_item value acc (name, d))
    with (if - d <=? Z.of_nat (length value)
          then n ← py_getitem value d ;
               if (1 <? n)%nat then Ok (acc ++ [(name, set_range n)]) else Ok acc
          else Ok acc).
  rewrite omap_cons_eq. unfold shape_entry at 1. cbn [fst snd].
  destruct (- d <=? Z.of_nat (length value)) eqn:Hle.
  - assert (∃ i, norm_axis (length value) d = Some i) as [i Hi].
    { unfold norm_axis. rewrite Hle.
      destruct (d <? 0); [eauto |].
      rewrite (proj2 (Z.ltb_lt _ _) Hlt). eauto. }
    destruct (py_getitem_is_Ok value d i Hi) as (n & -> & _).
    rewrite res_bind_Ok. destruct (1 <? n)%nat; rewrite res_bind_Ok.
    + rewrite IH by done. by rewrite <- app_assoc.
    + by apply IH.
  - cbv iota. rewrite res_bind_Ok. by apply IH.
Qed.

Lemma shape_entry_Some value item name S :
  shape_entry value item = Some (name, S) ↔
  name = item.1 ∧ ∃ n, - item.2 ≤ Z.of_nat (length value)
                       ∧ py_getitem value item.2 = Ok n ∧ (1 < n)%nat
                       ∧ S = set_range n.
Proof.
  unfold shape_entry.
  destruct (- item.2 <=? Z.of_nat (length value)) eqn:Hle.
  - apply Z.leb_le in Hle. destruct (py_getitem value item.2) as [n | e].
    + destruct (1 <? n)%nat eqn:Hn.
      * apply Nat.ltb_lt in Hn. split.
        -- intros [= <- <-]. eauto 10.
        -- intros (-> & n' & _ & [= <-] & _ & ->). done.
      * apply Nat.ltb_ge in Hn. split; [done |].
        intros (_ & n' & _ & [= <-] & ? & _). lia.
    + split; [done | intros (_ & n' & _ & [=] & _)].
  - apply Z.leb_gt in Hle. split; [done | intros (_ & n' & ? & _); lia].
Qed.

Lemma mk_IndexSet_shape_entries value (m : dict string Z) :
  mk_IndexSet (omap (shape_entry value) m) = omap (shape_entry value) m.
Proof.
  unfold mk_IndexSet. induction m as [| item m IH]; [done |].
  rewrite omap_cons_eq.
  destruct (shape_entry value item) as [[name S] |] eqn:He; [| done].
  cbv iota. rewrite filter_cons_True; [by rewrite IH |]. cbn.
  apply shape_entry_Some in He as (_ & n & _ & _ & Hn & ->).
  intros Hempty. assert (0%nat ∈ set_range n) as H0 by (apply elem_of_set_range; lia).
  rewrite Hempty in H0. by apply not_elem_of_empty in H0.
Qed.

Lemma keys_shape_entries value (m : dict string Z) :
  keys (omap (shape_entry value) m) `sublist_of` keys m.
Proof.
  unfold keys. induction m as [| item m IH]; [done |].
  rewrite omap_cons_eq, fmap_cons.
  destruct (shape_entry value item) as [[name S] |] eqn:He.
  - apply shape_entry_Some in He as [-> _]. cbv iota. rewrite fmap_cons.
    by apply sublist_skip.
  - by apply sublist_cons.
Qed.

Lemma dict_get_shape_entries value (m : dict string Z) name S :
  NoDup (keys m) →
  dict_get (omap (shape_entry value) m) name = Some S ↔
  ∃ d n, dict_get m name = Some d
         ∧ - d ≤ Z.of_nat (length value)
         ∧ py_getitem value d = Ok n ∧ (1 < n)%nat ∧ S = set_range n.
Proof.
  intros Hnd.
  assert (NoDup (keys (omap (shape_entry value) m))) as Hnd'
    by (eapply sublist_NoDup; [done | apply keys_shape_entries]).
  split.
  - intros Hget%dict_get_Some_elem.
    apply list_elem_of_omap in Hget as ([name' d] & Hin & He).
    apply shape_entry_Some in He as (-> & n & ? & ? & ? & ->). cbn in *.
    exists d, n. split; [by apply dict_get_elem |]. done.
  - intros (d & n & Hget%dict_get_Some_elem & ? & ? & ? & ->).
    apply dict_get_elem; [done |]. apply list_elem_of_omap.
    exists (name, d). split; [done |]. apply shape_entry_Some. cbn. eauto 10.
Qed.

(** C3: for a shape [s], an [event_dim] that counts trailing axes of [s]
    (absent: 0) and a [name_to_dim] (absent: the registry's) whose dims, where
    not negative, are axes of the trimmed shape, [indices_of] returns an
    IndexSet that holds a name exactly when its dim reaches into the shape
    without its [event_dim] trailing axes and that axis is longer than 1, and
    then holds [{0, ..., length - 1}] for it; when every such axis has length
    1 the IndexSet is empty, however many plates there are. *)
Theorem indices_of_shape_spec {A} (plates : Plates) (s : list nat)
    (event_dim : option Z) (name_to_dim : option (dict string Z)) :
  let e := default 0 event_dim in
  let m := default (plate_dims plates) name_to_dim in
  let trimmed := take (length s - Z.to_nat e) s in
  0 ≤ e ≤ Z.of_nat (length s) →
  NoDup (keys m) →
  (∀ name d, (name, d) ∈ m → d < Z.of_nat (length trimmed)) →
  ∃ ix,
    indices_of (A:=A) plates (VShape s)
      (mkKwargs (Some <$> event_dim) (Some <$> name_to_dim)) = Ok ix
    ∧ NoDup (keys ix)
    ∧ (∀ name S,
         dict_get ix name = Some S ↔
         ∃ d n, dict_get m name = Some d
                ∧ - d ≤ Z.of_nat (length trimmed)
                ∧ py_getitem trimmed d = Ok n ∧ (1 < n)%nat
                ∧ S = set_range n)
    ∧ ((∀ name d, (name, d) ∈ m → - d ≤ Z.of_nat (length trimmed) →
          py_getitem trimmed d = Ok 1%nat) →
       ix = []).
Proof.
  intros e m trimmed He Hnd Hd.
  exists (omap (shape_entry trimmed) m).
  assert (py_slice_to s (Z.of_nat (length s) - e) = trimmed) as Hslice.
  { unfold py_slice_to, trimmed.
    rewrite (proj2 (Z.ltb_ge _ _)) by lia. f_equal. lia. }
  split; [| split; [| split]].
  - cbn [indices_of]. unfold _indices_of_shape. cbn [kw_event_dim kw_name_to_dim].
    replace (default (Some 0) (Some <$> event_dim)) with (Some e)
      by (by destruct event_dim).
    replace (default (Some (plate_dims plates)) (Some <$> name_to_dim)) with (Some m)
      by (by destruct name_to_dim).
    rewrite !res_bind_Ok, Hslice, for_each_shape_items by done.
    rewrite res_bind_Ok. cbn [app]. by rewrite mk_IndexSet_shape_entries.
  - eapply sublist_NoDup; [done | apply keys_shape_entries].
  - intros name S. by apply dict_get_shape_entries.
  - intros Hone. destruct (omap (shape_entry trimmed) m) as [| [name S] ix] eqn:Hix;
      [done |]. exfalso.
    assert ((name, S) ∈ omap (shape_entry trimmed) m) as Hin by (rewrite Hix; left).
    apply list_elem_of_omap in Hin as ([name' d] & Hin & Hentry).
    apply shape_entry_Some in Hentry as (_ & n & Hle & Hn & Hlt & _). cbn in *.
    rewrite (Hone name' d Hin Hle) in Hn. injection Hn as <-. lia.
Qed.

Lemma indices_of_shape_spec_witness :
  let plates : Plates := [("a", mkFrame "a" (-1) 3 0); ("b", mkFrame "b" (-2) 2 0)] in
  let s := [2; 3; 4]%nat in
  (0 ≤ 1 ≤ Z.of_nat (length s))
  ∧ NoDup (keys (plate_dims plates))
  ∧ (∀ name d, (name, d) ∈ plate_dims plates → d < Z.of_nat (length (take 2 s)))
  ∧ ∃ ix,
      indices_of (A:=Z) plates (VShape s) (mkKwargs (Some (Some 1)) None) = Ok ix
      ∧ dict_get ix "a" = Some (set_range 3) ∧ dict_get ix "b" = Some (set_range 2).
Proof.
  cbn zeta.
  assert (0 ≤ 1 ≤ Z.of_nat (length [2; 3; 4]%nat)) as H1 by (cbn; lia).
  assert (NoDup (keys (plate_dims [("a", mkFrame "a" (-1) 3 0);
                                   ("b", mkFrame "b" (-2) 2 0)]))) as H2
    by (cbn; apply (bool_decide_unpack _); vm_compute; reflexivity).
  assert (∀ name d,
            (name, d) ∈ plate_dims [("a", mkFrame "a" (-1) 3 0);
                                    ("b", mkFrame "b" (-2) 2 0)] →
            d < Z.of_nat (length (take 2 [2; 3; 4]%nat))) as H3.
  { cbn. intros name d. rewrite !elem_of_cons, elem_of_nil.
    intros [[= _ ->] | [[= _ ->] | []]]; lia. }
  split; [exact H1 |]. split; [exact H2 |]. split; [exact H3 |].
  destruct (indices_of_shape_spec (A:=Z)
              [("a", mkFrame "a" (-1) 3 0); ("b", mkFrame "b" (-2) 2 0)]
              [2; 3; 4]%nat (Some 1) None H1 H2 H3)
    as (ix & Hix & _ & Hget & _).
  exists ix. split; [exact Hix |]. split; apply Hget.
  - exists (-1), 3%nat. repeat split; try reflexivity; vm_compute; try lia; discriminate.
  - exists (-2), 2%nat. repeat split; try reflexivity; vm_compute; try lia; discriminate.
Defined.

(** ** gather on tensors *)

Lemma sorted_Permutation (S : gset nat) : sorted S ≡ₚ elements S.
Proof. apply merge_sort_Permutation. Qed.

Lemma elem_of_sorted (S : gset nat) k : k ∈ sorted S ↔ k ∈ S.
Proof. by rewrite sorted_Permutation, elem_of_elements. Qed.

Lemma length_sorted (S : gset nat) : length (sorted S) = size S.
Proof. by rewrite sorted_Permutation. Qed.

Lemma NoDup_sorted (S : gset nat) : NoDup (sorted S).
Proof. rewrite sorted_Permutation. apply NoDup_elements. Qed.

Lemma StronglySorted_lookup_lt {X} (R : relation X) l i j x y :
  StronglySorted R l → l !! i = Some x → l !! j = Some y → (i < j)%nat → R x y.
Proof.
  intros Hs. revert i j. induction Hs as [| a l Hs IH Hall]; intros i j; [done |].
  destruct j as [| j]; [lia |]. destruct i as [| i]; cbn.
  - intros [= ->] Hj _. rewrite Forall_forall in Hall.
    by eapply Hall, list_elem_of_lookup_2.
  - intros Hi Hj ?. eapply IH; eauto. lia.
Qed.

(** [sorted] is strictly ascending. *)
Lemma sorted_ascending (S : gset nat) i j x y :
  sorted S !! i = Some x → sorted S !! j = Some y → (i < j)%nat → (x < y)%nat.
Proof.
  intros Hi Hj Hij.
  assert (StronglySorted Nat.le (sorted S)) as Hs.
  { apply (StronglySorted_merge_sort Nat.le). }
  assert (x ≤ y)%nat as Hle.
  { eapply (StronglySorted_lookup_lt Nat.le); eauto. }
  assert (x ≠ y); [| lia].
  intros ->. assert (i = j); [| lia].
  eapply NoDup_lookup; [apply NoDup_sorted | done..].
Qed.

Lemma forallb_lt_sorted (S : gset nat) n :
  forallb (fun k => k <? n)%nat (sorted S) = true ↔ ∀ k, k ∈ S → (k < n)%nat.
Proof.
  rewrite forallb_forall. split.
  - intros H k Hk. apply Nat.ltb_lt, H, list_elem_of_In, elem_of_sorted, Hk.
  - intros H k Hk. apply Nat.ltb_lt, H, elem_of_sorted, list_elem_of_In, Hk.
Qed.

Lemma norm_axis_neg_inj n p q i :
  p < 0 → q < 0 → norm_axis n p = Some i → norm_axis n q = Some i → p = q.
Proof.
  intros Hp Hq. rewrite !norm_axis_neg by done.
  repeat case_match; intros [= <-] [=]; lia.
Qed.

Section Gather.

Context {A : Type}.
Variable e : Z.
Variable m : dict string Z.

(** What the loop body of [_gather_tensor] does, by the axis the name
    reaches. *)
Lemma gather_step_cases (t : Tensor A) name S d :
  dict_get m name = Some d → d - e < 0 →
  gather_step e m t (name, S)
  = match axis_of m e (ndim t) name with
    | None => Ok t
    | Some i =>
        if decide (shape t !! i = Some 1%nat) then Ok t
        else if forallb (fun k => k <? default 0%nat (shape t !! i))%nat (sorted S)
        then Ok (mkTensor (<[i := size S]> (shape t))
                   (fun idx => elem t
                      (<[i := default 0%nat (idx !! i ≫= (sorted S !!.))]> idx)))
        else Raise IndexError
    end.
Proof.
  intros Hd Hneg. unfold gather_step, axis_of, dict_item. rewrite Hd.
  rewrite res_bind_Ok. cbn [mbind option_bind].
  rewrite norm_axis_neg by done. unfold ndim.
  destruct (- (d - e) <=? Z.of_nat (length (shape t))) eqn:Hle.
  - rewrite (proj2 (Z.ltb_ge _ _)) by (apply Z.leb_le in Hle; lia).
    set (i := Z.to_nat (Z.of_nat (length (shape t)) + (d - e))).
    assert (norm_axis (length (shape t)) (d - e) = Some i) as Hi
      by (by rewrite norm_axis_neg, Hle).
    destruct (py_getitem_is_Ok (shape t) (d - e) i Hi) as (n & Hn & Hlook).
    rewrite Hn, res_bind_Ok, Hlook.
    destruct (decide (Some n = Some 1%nat)) as [[= ->] | Hne]; [done |].
    rewrite (proj2 (Nat.eqb_neq n 1)) by congruence.
    unfold index_select, ndim. rewrite Hi, Hlook. cbn [default].
    by rewrite length_sorted.
  - by rewrite (proj2 (Z.ltb_lt _ _)) by (apply Z.leb_gt in Hle; lia).
Qed.


Lemma axis_of_inj n name1 name2 d1 d2 i :
  dict_get m name1 = Some d1 → d1 - e < 0 →
  dict_get m name2 = Some d2 → d2 - e < 0 →
  axis_of m e n name1 = Some i → axis_of m e n name2 = Some i → d1 = d2.
Proof.
  intros H1 Hn1 H2 Hn2. unfold axis_of. rewrite H1, H2. cbn.
  intros Ha Hb. pose proof (norm_axis_neg_inj _ _ _ _ Hn1 Hn2 Ha Hb). lia.
Qed.

Lemma names_axes_cons name S ix :
  names_axes m e ((name, S) :: ix) →
  names_axes m e ix
  ∧ (∃ d, dict_get m name = Some d ∧ d - e < 0)
  ∧ (∀ n name' i, name' ∈ keys ix →
       axis_of m e n name = Some i → axis_of m e n name' ≠ Some i).
Proof.
  unfold keys. intros (Hnd & Hneg & Hinj). cbn in Hnd.
  apply NoDup_cons in Hnd as [Hfresh Hnd].
  split; [| split].
  - split; [done |]. split.
    + intros name' Hin. apply Hneg. by right.
    + intros n1 n2 d H1 H2. apply Hinj; by right.
  - apply Hneg. left.
  - intros n name' i Hin Ha Hb.
    destruct (Hneg name) as (d & Hd & Hdn); [left |].
    destruct (Hneg name') as (d' & Hd' & Hdn'); [by right |].
    pose proof (axis_of_inj n name name' d d' i Hd Hdn Hd' Hdn' Ha Hb) as <-.
    apply Hfresh. rewrite (Hinj name name' d); [done | left | by right | done..].
Qed.

Lemma in_bounds_lookup sh idx i c n :
  in_bounds sh idx → idx !! i = Some c → sh !! i = Some n → (c < n)%nat.
Proof. intros Hb Hc Hn. by eapply (Forall2_lookup_lr _ _ _ _ _ _ Hb). Qed.

Lemma gather_loop_spec (ix : IndexSet) (v r : Tensor A) :
  names_axes m e ix →
  for_each (gather_step e m) ix v = Ok r →
  ndim r = ndim v
  ∧ (∀ name S i, (name, S) ∈ ix → axis_of m e (ndim v) name = Some i →
       shape r !! i = if decide (shape v !! i = Some 1%nat) then Some 1%nat
                      else Some (size S))
  ∧ (∀ i, (∀ name, name ∈ keys ix → axis_of m e (ndim v) name ≠ Some i) →
       shape r !! i = shape v !! i)
  ∧ (∀ idx, in_bounds (shape r) idx →
       ∃ src, elem r idx = elem v src ∧ length src = length idx
         ∧ (∀ name S i c, (name, S) ∈ ix →
              axis_of m e (ndim v) name = Some i →
              shape v !! i ≠ Some 1%nat → idx !! i = Some c →
              src !! i = sorted S !! c)
         ∧ (∀ i, (∀ name, name ∈ keys ix → axis_of m e (ndim v) name = Some i →
                    shape v !! i = Some 1%nat) →
              src !! i = idx !! i)).
Proof.
  revert v. induction ix as [| [name S] ix IH]; intros v Hwf Hrun.
  { injection Hrun as <-. split; [done |]. split; [by intros ??? ?%elem_of_nil |].
    split; [done |]. intros idx _. exists idx. split; [done |]. split; [done |].
    split; [by intros ???? ?%elem_of_nil | done]. }
  apply names_axes_cons in Hwf as (Hwf & (d & Hd & Hneg) & Hother).
  rewrite for_each_cons in Hrun.
  destruct (gather_step e m v (name, S)) as [v1 | err] eqn:Hstep; [| done].
  rewrite res_bind_Ok in Hrun. specialize (IH v1 Hwf Hrun).
  rewrite (gather_step_cases _ _ _ d) in Hstep by done.
  assert (∀ name', name' ∈ keys ((name, S) :: ix) ↔ name' = name ∨ name' ∈ keys ix)
    as Hkeys by (intros; unfold keys; cbn; apply elem_of_cons).
  destruct (axis_of m e (ndim v) name) as [i0 |] eqn:Hax;
    [destruct (decide (shape v !! i0 = Some 1%nat)) as [Hone | Hone] |].
  - (* the axis has length 1: left as it is *)
    injection Hstep as <-. destruct IH as (IH1 & IH2 & IH3 & IH4).
    split; [done |]. split; [| split].
    + intros name' S' i [[= -> ->] | Hin]%elem_of_cons Hi; [| by eapply IH2].
      rewrite Hax in Hi. injection Hi as <-. rewrite decide_True by done.
      rewrite IH3, Hone; [done |]. intros name' Hin. by eapply Hother.
    + intros i Hi. apply IH3. intros name' Hin. apply Hi, Hkeys. by right.
    + intros idx Hb. destruct (IH4 idx Hb) as (src & Hsrc & Hlen & Ha & Hb').
      exists src. split; [done |]. split; [done |]. split.
      * intros name' S' i c [[= -> ->] | Hin]%elem_of_cons Hi Hne Hc;
          [congruence | by eapply Ha].
      * intros i Hi. apply Hb'. intros name' Hin. apply Hi, Hkeys. by right.
  - (* the axis is selected from *)
    destruct (forallb _ _) eqn:Hrange; [| done]. injection Hstep as <-.
    destruct (lookup_lt_is_Some_2 (shape v) i0) as [n0 Hn0].
    { unfold axis_of in Hax. rewrite Hd in Hax. by eapply norm_axis_lt. }
    unfold ndim in *. cbn [shape elem] in IH. rewrite length_insert in IH.
    destruct IH as (IH1 & IH2 & IH3 & IH4).
    assert (∀ name' i, name' ∈ keys ix → axis_of m e (ndim v) name' = Some i →
              <[i0:=size S]> (shape v) !! i = shape v !! i) as Hsame.
    { intros name' i Hin Hi. apply list_lookup_insert_ne. intros <-.
      by eapply Hother. }
    split; [done |]. split; [| split].
    + intros name' S' i [[= -> ->] | Hin]%elem_of_cons Hi.
      * rewrite Hax in Hi. injection Hi as <-. rewrite decide_False by done.
        rewrite IH3 by (intros name' Hin; by eapply Hother).
        apply list_lookup_insert_eq. by eapply lookup_lt_Some.
      * rewrite (IH2 name' S' i Hin Hi).
        rewrite (Hsame name' i); [done | | done].
        apply list_elem_of_fmap. by exists (name', S').
    + intros i Hi. rewrite IH3.
      * apply list_lookup_insert_ne. intros <-. apply (Hi name); [| done].
        apply Hkeys. by left.
      * intros name' Hin. apply Hi, Hkeys. by right.
    + intros idx Hb. destruct (IH4 idx Hb) as (src & Hsrc & Hlen & Ha & Hb').
      exists (<[i0 := default 0%nat (src !! i0 ≫= (sorted S !!.))]> src).
      split; [done |]. split; [by rewrite length_insert |]. split.
      * intros name' S' i c [[= -> ->] | Hin]%elem_of_cons Hi Hne Hc.
        -- rewrite Hax in Hi. injection Hi as <-.
           assert (src !! i0 = Some c) as Hsrc0.
           { rewrite Hb'; [done |]. intros name' Hin Hi. by eapply Hother in Hi. }
           rewrite list_lookup_insert_eq
             by (rewrite Hlen; by eapply lookup_lt_Some).
           rewrite Hsrc0. cbn.
           assert (shape r !! i0 = Some (size S)) as Hr0.
           { rewrite IH3 by (intros name' Hin; by eapply Hother).
             apply list_lookup_insert_eq. by eapply lookup_lt_Some. }
           pose proof (in_bounds_lookup _ _ _ _ _ Hb Hc Hr0) as Hlt.
           rewrite <- length_sorted in Hlt.
           destruct (lookup_lt_is_Some_2 _ _ Hlt) as [k ->]. done.
        -- assert (name' ∈ keys ix) as Hin'
             by (apply list_elem_of_fmap; by exists (name', S')).
           rewrite list_lookup_insert_ne by (intros <-; by eapply Hother).
           eapply Ha; [done.. | | done]. by rewrite (Hsame name' i).
      * intros i Hi.
        assert (i0 ≠ i) as Hne.
        { intros <-. apply Hone, (Hi name); [| done]. apply Hkeys. by left. }
        rewrite list_lookup_insert_ne by done. apply Hb'.
        intros name' Hin Hi'. rewrite (Hsame name' i) by done.
        apply (Hi name'); [| done]. apply Hkeys. by right.
  - (* too few axes: left as it is *)
    injection Hstep as <-. destruct IH as (IH1 & IH2 & IH3 & IH4).
    split; [done |]. split; [| split].
    + intros name' S' i [[= -> ->] | Hin]%elem_of_cons Hi; [congruence |].
      by eapply IH2.
    + intros i Hi. apply IH3. intros name' Hin. apply Hi, Hkeys. by right.
    + intros idx Hb. destruct (IH4 idx Hb) as (src & Hsrc & Hlen & Ha & Hb').
      exists src. split; [done |]. split; [done |]. split.
      * intros name' S' i c [[= -> ->] | Hin]%elem_of_cons Hi Hne Hc;
          [congruence | by eapply Ha].
      * intros i Hi. apply Hb'. intros name' Hin. apply Hi, Hkeys. by right.
Qed.

(** The loop of [_gather_tensor] raises nothing when every name either
    reaches no axis, or an axis of length 1, or asks for indices of the
    axis. *)
Lemma gather_loop_total (ix : IndexSet) (v : Tensor A) :
  names_axes m e ix →
  (∀ name S i n, (name, S) ∈ ix → axis_of m e (ndim v) name = Some i →
     shape v !! i = Some n → n ≠ 1%nat → ∀ k, k ∈ S → (k < n)%nat) →
  ∃ r, for_each (gather_step e m) ix v = Ok r.
Proof.
  revert v. induction ix as [| [name S] ix IH]; intros v Hwf Hrange; [by eexists |].
  apply names_axes_cons in Hwf as (Hwf & (d & Hd & Hneg) & Hother).
  rewrite for_each_cons, (gather_step_cases _ _ _ d) by done.
  assert (∀ name' S' i n, (name', S') ∈ ix → axis_of m e (ndim v) name' = Some i →
            shape v !! i = Some n → n ≠ 1%nat → ∀ k, k ∈ S' → (k < n)%nat) as Hrange'
    by (intros ???? Hin; eapply Hrange; by right).
  destruct (axis_of m e (ndim v) name) as [i0 |] eqn:Hax;
    [destruct (decide (shape v !! i0 = Some 1%nat)) as [Hone | Hone] |];
    [by apply IH | | by apply IH].
  destruct (lookup_lt_is_Some_2 (shape v) i0) as [n0 Hn0].
  { unfold axis_of in Hax. rewrite Hd in Hax. by eapply norm_axis_lt. }
  rewrite Hn0. change (default 0%nat (Some n0)) with n0.
  rewrite (proj2 (forallb_lt_sorted S n0)).
  2:{ eapply Hrange; [left | done.. | congruence]. }
  rewrite res_bind_Ok. apply IH; [done |]. unfold ndim in *. cbn [shape].
  rewrite length_insert.
  intros name' S' i n Hin Hi.
  rewrite list_lookup_insert_ne; [by eapply Hrange' |].
  intros <-. eapply Hother; [| done..]. apply list_elem_of_fmap. by exists (name', S').
Qed.

End Gather.

(** C2: gather, for an index set whose names reach axes to the left of the
    event axes, different names different axes (target axis of a name:
    [name_to_dim[name] - event_dim]). It raises nothing when every name
    reaches no axis of [v], or one of length 1, or asks only for indices of
    its axis. A result [r] has the axes of [v]; for each name, when its axis
    has length 1 in [v] it has length 1 in [r] and is read at the same
    coordinate, and otherwise it has as many positions as the name has
    indices, position [c] reading position [sorted(indices)[c]] of [v];
    [sorted(indices)] holds the requested indices once each, ascending. A
    name that reaches no axis of [v] changes nothing. *)
Theorem gather_tensor_spec {A} (plates : Plates) (v : Tensor A) (ix : IndexSet)
    (event_dim : option Z) (name_to_dim : option (dict string Z)) :
  let e := default 0 event_dim in
  let m := default (plate_dims plates) name_to_dim in
  names_axes m e ix →
  ((∀ name S i n, (name, S) ∈ ix → axis_of m e (ndim v) name = Some i →
      shape v !! i = Some n → n ≠ 1%nat → ∀ k, k ∈ S → (k < n)%nat) →
   ∃ r, _gather_tensor plates v ix event_dim name_to_dim = Ok r)
  ∧ (∀ r, _gather_tensor plates v ix event_dim name_to_dim = Ok r →
       ndim r = ndim v
       ∧ (∀ name S i, (name, S) ∈ ix → axis_of m e (ndim v) name = Some i →
            shape r !! i = if decide (shape v !! i = Some 1%nat) then Some 1%nat
                           else Some (size S))
       ∧ (∀ i, (∀ name, name ∈ keys ix → axis_of m e (ndim v) name ≠ Some i) →
            shape r !! i = shape v !! i)
       ∧ (∀ idx, in_bounds (shape r) idx →
            ∃ src, elem r idx = elem v src ∧ length src = length idx
              ∧ (∀ name S i c, (name, S) ∈ ix →
                   axis_of m e (ndim v) name = Some i →
                   shape v !! i ≠ Some 1%nat → idx !! i = Some c →
                   src !! i = sorted S !! c)
              ∧ (∀ i, (∀ name, name ∈ keys ix →
                         axis_of m e (ndim v) name = Some i →
                         shape v !! i = Some 1%nat) →
                   src !! i = idx !! i)))
  ∧ (∀ S : gset nat,
       length (sorted S) = size S
       ∧ (∀ k, k ∈ sorted S ↔ k ∈ S)
       ∧ (∀ i j x y, sorted S !! i = Some x → sorted S !! j = Some y →
            (i < j)%nat → (x < y)%nat)).
Proof.
  intros e m Hwf. split; [| split].
  - intros Hrange. by apply gather_loop_total.
  - intros r Hr. by apply gather_loop_spec.
  - intros S. split; [apply length_sorted |]. split; [apply elem_of_sorted |].
    apply sorted_ascending.
Qed.

Lemma gather_tensor_spec_witness :
  let plates : Plates := [("a", mkFrame "a" (-1) 3 0); ("b", mkFrame "b" (-2) 2 0)] in
  let v : Tensor Z := mkTensor [2; 3]%nat (fun idx => Z.of_nat (sum_list idx)) in
  let ix : IndexSet := [("a", {[0; 2]}%nat)] in
  names_axes (plate_dims plates) 0 ix
  ∧ ∃ r, _gather_tensor plates v ix None None = Ok r
         ∧ shape r !! 0%nat = Some 2%nat ∧ shape r !! 1%nat = Some 2%nat.
Proof.
  cbn zeta.
  set (plates := [("a", mkFrame "a" (-1) 3 0); ("b", mkFrame "b" (-2) 2 0)]).
  set (v := mkTensor [2; 3]%nat (fun idx => Z.of_nat (sum_list idx))).
  set (ix := [("a", {[0; 2]}%nat)] : IndexSet).
  assert (names_axes (plate_dims plates) 0 ix) as Hwf.
  { split; [apply NoDup_singleton |]. split.
    - intros name ->%list_elem_of_singleton. exists (-1). split; [reflexivity | lia].
    - by intros name1 name2 d ->%list_elem_of_singleton ->%list_elem_of_singleton. }
  split; [exact Hwf |].
  destruct (gather_tensor_spec plates v ix None None Hwf) as (Htotal & Hspec & _).
  destruct Htotal as [r Hr].
  { intros name S i n [[= -> ->] | []%elem_of_nil]%elem_of_cons [= <-] [= <-] _ k.
    rewrite !elem_of_union, !elem_of_singleton. lia. }
  exists r. split; [exact Hr |].
  destruct (Hspec r Hr) as (_ & Hnamed & Hother & _). split.
  - apply Hother. intros name ->%list_elem_of_singleton. discriminate.
  - exact (Hnamed "a" {[0; 2]}%nat 1%nat ltac:(left) eq_refl).
Defined.

(** ** Index sets: union and the indices of a gathered value *)

Lemma elem_of_keys {V} (d : dict string V) k :
  k ∈ keys d ↔ ∃ v, (k, v) ∈ d.
Proof.
  unfold keys. rewrite list_elem_of_fmap. split.
  - intros ([k' v] & -> & Hin). by exists v.
  - intros [v Hin]. by exists (k, v).
Qed.

Lemma elem_of_mk_IndexSet mapping name S :
  (name, S) ∈ mk_IndexSet mapping ↔ S ≠ ∅ ∧ (name, S) ∈ mapping.
Proof. unfold mk_IndexSet. by rewrite list_elem_of_filter. Qed.

Lemma elem_of_union_indexset (a b : IndexSet) name S :
  (name, S) ∈ union a b ↔
  S ≠ ∅ ∧ ((∃ Sa, (name, Sa) ∈ a ∧ S = Sa ∪ default ∅ (dict_get b name))
           ∨ ((name ∉ keys a) ∧ (name, S) ∈ b)).
Proof.
  unfold union. rewrite elem_of_mk_IndexSet, elem_of_app, list_elem_of_fmap,
    list_elem_of_filter.
  cbn. rewrite dict_get_None. split.
  - intros [Hne [([name' Sa] & [= -> ->] & Hin) | [Hnot Hin]]]; split; eauto.
  - intros [Hne [(Sa & Hin & ->) | [Hnot Hin]]]; split; eauto.
    left. by exists (name, Sa).
Qed.

Lemma keys_union_indexset (a b : IndexSet) name :
  name ∈ keys (union a b) → name ∈ keys a ∨ name ∈ keys b.
Proof.
  rewrite !elem_of_keys. intros [S HS].
  apply elem_of_union_indexset in HS as [_ [(Sa & Hin & _) | [_ Hin]]]; eauto.
Qed.

Lemma NoDup_keys_union (a b : IndexSet) :
  NoDup (keys a) → NoDup (keys b) → NoDup (keys (union a b)).
Proof.
  intros Ha Hb. unfold union, mk_IndexSet.
  eapply sublist_NoDup; [| apply fmap_sublist, sublist_filter].
  unfold keys. rewrite fmap_app, <- list_fmap_compose.
  apply NoDup_app. split; [exact Ha |]. split.
  - intros name Hin Hin'. apply list_elem_of_fmap in Hin' as ([name' S] & -> & Hf).
    apply list_elem_of_filter in Hf as [Hnone _].
    cbn in *. by apply dict_get_None in Hnone.
  - eapply sublist_NoDup; [exact Hb |]. apply fmap_sublist, sublist_filter.
Qed.

(** The comprehension of [_indices_of_shape], when it raises nothing. *)
Lemma for_each_shape_items_inv value (m : dict string Z) acc out :
  for_each (indices_of_shape_item value) m acc = Ok out →
  out = acc ++ omap (shape_entry value) m.
Proof.
  revert acc. induction m as [| [name d] m IH]; intros acc.
  { cbn. intros [= <-]. by rewrite app_nil_r. }
  rewrite for_each_cons.
  change (indices_of_shape_item value acc (name, d))
    with (if - d <=? Z.of_nat (length value)
          then n ← py_getitem value d ;
               if (1 <? n)%nat then Ok (acc ++ [(name, set_range n)]) else Ok acc
          else Ok acc).
  rewrite omap_cons_eq. unfold shape_entry at 1. cbn [fst snd].
  destruct (- d <=? Z.of_nat (length value)).
  - destruct (py_getitem value d) as [n | err]; [| done].
    rewrite res_bind_Ok. destruct (1 <? n)%nat; rewrite res_bind_Ok.
    + intros ->%IH. by rewrite <- app_assoc.
    + apply IH.
  - cbv iota. rewrite res_bind_Ok. apply IH.
Qed.

Lemma indices_of_shape_inv plates value e (m : dict string Z) ix :
  _indices_of_shape plates value (mkKwargs (Some (Some e)) (Some (Some m))) = Ok ix →
  ix = omap (shape_entry (py_slice_to value (Z.of_nat (length value) - e))) m.
Proof.
  unfold _indices_of_shape. cbn [kw_event_dim kw_name_to_dim default from_option id].
  rewrite !res_bind_Ok.
  destruct (for_each _ _ _) as [out |] eqn:Hout; [| done].
  apply for_each_shape_items_inv in Hout as ->. rewrite res_bind_Ok. cbn [app].
  rewrite mk_IndexSet_shape_entries. by intros [= <-].
Qed.

(** The names of the merged index set of [_scatter_tensor] reach distinct
    axes to the left of the event axes when the dims of [name_to_dim] do. *)
Lemma names_axes_merged (m : dict string Z) e (ix : IndexSet) value :
  dims_distinct m e → NoDup (keys ix) → (∀ name, name ∈ keys ix → name ∈ keys m) →
  names_axes m e (union ix (omap (shape_entry value) m)).
Proof.
  intros (Hnd & Hneg & Hinj) Hix Hsub.
  assert (∀ name, name ∈ keys (union ix (omap (shape_entry value) m)) →
            name ∈ keys m) as Hkeys.
  { intros name [Hin | Hin]%keys_union_indexset; [by apply Hsub |].
    eapply elem_of_sublist; [done | apply keys_shape_entries]. }
  split; [| split].
  - apply NoDup_keys_union; [done |].
    eapply sublist_NoDup; [exact Hnd | apply keys_shape_entries].
  - intros name [d Hd]%Hkeys%elem_of_keys. exists d.
    split; [by apply dict_get_elem | by eapply Hneg].
  - intros name1 name2 d _ _ H1%dict_get_Some_elem H2%dict_get_Some_elem.
    by eapply Hinj.
Qed.

(** ** The indexed assignment of scatter *)

Lemma index_of_Some x l k : index_of x l = Some k → l !! k = Some x.
Proof.
  revert k. induction l as [| y l IH]; intros k; cbn; [done |].
  case_decide as Hy; [by intros [= <-]; subst |].
  destruct (index_of x l) as [k' |]; cbn; [| done].
  intros [= <-]. by apply IH.
Qed.

Lemma index_of_None x l : index_of x l = None ↔ x ∉ l.
Proof.
  induction l as [| y l IH]; cbn.
  - split; [intros _ ?%elem_of_nil; done | done].
  - rewrite not_elem_of_cons. case_decide as Hy.
    + split; [done | intros [? _]; congruence].
    + destruct (index_of x l); cbn.
      * split; [done | intros [_ Hn]]. by apply IH in Hn.
      * split; [intros _; split; [congruence | by apply IH] | done].
Qed.

Lemma index_of_elem_of x l : x ∈ l → ∃ k, index_of x l = Some k.
Proof.
  intros Hin. destruct (index_of x l) as [k |] eqn:Hk; [by exists k |].
  by apply index_of_None in Hk.
Qed.

Lemma index_of_seq x s n :
  (s ≤ x < s + n)%nat → index_of x (seq s n) = Some (x - s)%nat.
Proof.
  revert s. induction n as [| n IH]; intros s Hx; [lia |]. cbn.
  case_decide as Hs; [subst; f_equal; lia |].
  rewrite IH by lia. cbn. f_equal. lia.
Qed.

Lemma locate_None_lookup index pos i l c :
  index !! i = Some l → pos !! i = Some c → c ∉ l → locate index pos = None.
Proof.
  revert pos i. induction index as [| l' index IH]; intros pos i; [done |].
  destruct pos as [| c' pos]; [done |]. destruct i as [| i]; cbn.
  - intros [= ->] [= ->] Hc%index_of_None. by rewrite Hc.
  - intros Hl Hc Hnot. rewrite (IH pos i Hl Hc Hnot).
    by destruct (index_of c' l').
Qed.

Lemma locate_Some_lookup index pos j :
  locate index pos = Some j →
  length pos = length index ∧ length j = length index
  ∧ ∀ i l c, index !! i = Some l → pos !! i = Some c →
      ∃ k, index_of c l = Some k ∧ j !! i = Some k.
Proof.
  revert pos j. induction index as [| l' index IH]; intros pos j.
  { destruct pos; [| done]. intros [= <-]. done. }
  destruct pos as [| c' pos]; [done |]. cbn.
  destruct (index_of c' l') as [k' |] eqn:Hk'; [| done]. cbn.
  destruct (locate index pos) as [j' |] eqn:Hj'; [| done]. cbn.
  intros [= <-]. destruct (IH pos j' Hj') as (Hlen & Hlenj & Hall).
  split; [cbn; lia |]. split; [cbn; lia |].
  intros [| i] l c; cbn.
  - intros [= <-] [= <-]. eauto.
  - apply Hall.
Qed.

Lemma locate_is_Some index pos :
  length pos = length index →
  (∀ i l c, index !! i = Some l → pos !! i = Some c → c ∈ l) →
  ∃ j, locate index pos = Some j.
Proof.
  revert pos. induction index as [| l' index IH]; intros pos Hlen Hall.
  { destruct pos; [by eexists | done]. }
  destruct pos as [| c' pos]; [done |]. cbn.
  destruct (index_of_elem_of c' l') as [k ->]; [by apply (Hall 0%nat) |]. cbn.
  destruct (IH pos) as [j ->]; [by injection Hlen | | by eexists].
  intros i l c. apply (Hall (S i)).
Qed.

Section Scatter.

Context {A : Type}.
Variable zero : A.
Variable e : Z.
Variable m : dict string Z.

(** What [result[tuple(index)] = value] leaves in [result], when it raises
    nothing. *)
Lemma index_put_inv (r : Tensor A) index value r' :
  index_put r index value = Ok r' →
  length index = ndim r
  ∧ (∀ i it, index !! i = Some it →
       it_trailing it = Z.of_nat (ndim r) - 1 - Z.of_nat i)
  ∧ (∀ i it n k, index !! i = Some it → shape r !! i = Some n →
       k ∈ it_vals it → (k < n)%nat)
  ∧ expandable (shape (strip_leading_ones value))
      (length <$> (it_vals <$> index)) = true
  ∧ r' = mkTensor (shape r)
           (fun pos => match locate (it_vals <$> index) pos with
                       | Some j => expand_read (strip_leading_ones value) j
                       | None => elem r pos
                       end).
Proof.
  unfold index_put.
  destruct (bool_decide (length index = ndim r)) eqn:Hlen; [| done].
  apply bool_decide_eq_true in Hlen. cbn [negb].
  destruct (forallb _ (imap _ index)) eqn:Hlay; [| done]. cbn [negb].
  destruct (forallb _ (zip index (shape r))) eqn:Hbnd; [| done]. cbn [negb].
  destruct (expandable _ _) eqn:Hexp; [| done]. cbn [negb].
  intros [= <-]. split; [done |]. split; [| split; [| done]].
  - intros i it Hit. rewrite forallb_forall in Hlay.
    specialize (Hlay (i, it)). cbn in Hlay. apply Z.eqb_eq, Hlay.
    apply list_elem_of_In, list_elem_of_lookup. exists i.
    by rewrite list_lookup_imap, Hit.
  - intros i it n k Hit Hn Hk. rewrite forallb_forall in Hbnd.
    specialize (Hbnd (it, n)). cbn in Hbnd.
    assert (forallb (λ k0 : nat, (k0 <? n)%nat) (it_vals it) = true) as Hall.
    { apply Hbnd, list_elem_of_In, list_elem_of_lookup. exists i.
      by rewrite lookup_zip_with, Hit, Hn. }
    rewrite forallb_forall in Hall. by apply Nat.ltb_lt, Hall, list_elem_of_In.
Qed.

(** The body of the loop of [_scatter_tensor] that overrides the index of a
    named axis, by the axis the name reaches. *)
Lemma index_step_cases (r : Tensor A) (index : list IndexTensor) name S d :
  dict_get m name = Some d → d - e < 0 → length index = ndim r →
  index_step r e m index (name, S)
  = match axis_of m e (ndim r) name with
    | None => Raise IndexError
    | Some i =>
        if decide (1 < default 0 (shape r !! i))%nat
        then Ok (<[i := mkIndexTensor (sorted S)
                          (Z.of_nat (ndim r) - 1 - Z.of_nat i)]> index)
        else Ok index
    end.
Proof.
  intros Hd Hneg Hlen. unfold index_step, axis_of, dict_item. rewrite Hd.
  rewrite res_bind_Ok. cbn [mbind option_bind].
  unfold py_getitem, py_setitem, ndim in *. rewrite Hlen.
  destruct (norm_axis (length (shape r)) (d - e)) as [i |] eqn:Hi; [| done].
  destruct (lookup_lt_is_Some_2 (shape r) i (norm_axis_lt _ _ _ Hi)) as [n Hn].
  rewrite Hn, res_bind_Ok. cbn [default from_option id].
  rewrite norm_axis_neg in Hi by done.
  destruct (- (d - e) <=? Z.of_nat (length (shape r))) eqn:Hle; [| done].
  injection Hi as <-. apply Z.leb_le in Hle.
  destruct (decide (1 < n)%nat) as [Hn1 | Hn1].
  - rewrite (proj2 (Nat.ltb_lt 1 n)) by done. rewrite res_bind_Ok.
    rewrite norm_axis_neg by done. rewrite (proj2 (Z.leb_le _ _) Hle).
    do 3 f_equal. lia.
  - by rewrite (proj2 (Nat.ltb_ge 1 n)) by lia.
Qed.

Lemma index_loop_spec (r : Tensor A) (ix : IndexSet) index index' :
  names_axes m e ix → length index = ndim r →
  for_each (index_step r e m) ix index = Ok index' →
  length index' = ndim r
  ∧ (∀ name, name ∈ keys ix → is_Some (axis_of m e (ndim r) name))
  ∧ (∀ name S i n, (name, S) ∈ ix → axis_of m e (ndim r) name = Some i →
       shape r !! i = Some n → (1 < n)%nat →
       index' !! i = Some (mkIndexTensor (sorted S)
                             (Z.of_nat (ndim r) - 1 - Z.of_nat i)))
  ∧ (∀ i, (∀ name n, name ∈ keys ix → axis_of m e (ndim r) name = Some i →
             shape r !! i = Some n → (n ≤ 1)%nat) →
       index' !! i = index !! i).
Proof.
  revert index. induction ix as [| [name S] ix IH]; intros index Hwf Hlen Hrun.
  { injection Hrun as <-. split; [done |]. split; [by intros ? ?%elem_of_nil |].
    split; [by intros ???? ?%elem_of_nil | done]. }
  apply names_axes_cons in Hwf as (Hwf & (d & Hd & Hneg) & Hother).
  rewrite for_each_cons in Hrun.
  destruct (index_step r e m index (name, S)) as [index1 | err] eqn:Hstep; [| done].
  rewrite res_bind_Ok in Hrun.
  rewrite (index_step_cases _ _ _ _ d) in Hstep by done.
  destruct (axis_of m e (ndim r) name) as [i0 |] eqn:Hax; [| done].
  assert (∀ name', name' ∈ keys ((name, S) :: ix) ↔ name' = name ∨ name' ∈ keys ix)
    as Hkeys by (intros; unfold keys; cbn; apply elem_of_cons).
  assert (length index1 = ndim r ∧
          (∀ i, i ≠ i0 → index1 !! i = index !! i)) as [Hlen1 Hsame].
  { destruct (decide _); injection Hstep as <-; [| done].
    split; [by rewrite length_insert |].
    intros i Hne. by apply list_lookup_insert_ne. }
  destruct (IH index1 Hwf Hlen1 Hrun) as (IH1 & IH2 & IH3 & IH4).
  split; [done |]. split; [| split].
  - intros name' [-> | Hin]%Hkeys; [by rewrite Hax | by apply IH2].
  - intros name' S' i n [[= -> ->] | Hin]%elem_of_cons Hi Hn Hn1;
      [| by eapply IH3].
    rewrite Hax in Hi. injection Hi as <-.
    rewrite IH4 by (intros name' n' Hin Hi; by eapply Hother in Hi).
    rewrite Hn in Hstep. cbn [default from_option id] in Hstep.
    rewrite decide_True in Hstep by done. injection Hstep as <-.
    apply list_lookup_insert_eq. rewrite Hlen. by eapply lookup_lt_Some.
  - intros i Hi. rewrite IH4.
    + destruct (decide (i = i0)) as [-> | Hne]; [| by apply Hsame].
      destruct (decide _) as [Hlt | _]; [| by injection Hstep as <-].
      exfalso. destruct (shape r !! i0) as [n |] eqn:Hn; cbn in Hlt; [| lia].
      specialize (Hi name n). rewrite Hkeys in Hi.
      specialize (Hi (or_introl eq_refl) Hax eq_refl). lia.
    + intros name' n Hin. apply Hi, Hkeys. by right.
Qed.


Lemma index_loop_entry (r : Tensor A) (ix : IndexSet) index index' i :
  names_axes m e ix → length index = ndim r →
  for_each (index_step r e m) ix index = Ok index' →
  (∃ name S n, (name, S) ∈ ix ∧ axis_of m e (ndim r) name = Some i
               ∧ shape r !! i = Some n ∧ (1 < n)%nat
               ∧ index' !! i = Some (mkIndexTensor (sorted S)
                                       (Z.of_nat (ndim r) - 1 - Z.of_nat i)))
  ∨ ((∀ name n, name ∈ keys ix → axis_of m e (ndim r) name = Some i →
        shape r !! i = Some n → (n ≤ 1)%nat)
     ∧ index' !! i = index !! i).
Proof.
  intros Hwf Hlen Hrun.
  destruct (index_loop_spec r ix index index' Hwf Hlen Hrun) as (_ & _ & H3 & H4).
  destruct (decide (Exists (fun kv => axis_of m e (ndim r) kv.1 = Some i
                                      ∧ (1 < default 0 (shape r !! i))%nat) ix))
    as [Hex | Hno].
  - left. apply Exists_exists in Hex as ([name S] & Hin & Hax & Hlt). cbn in *.
    destruct (shape r !! i) as [n |] eqn:Hn; cbn in Hlt; [| lia].
    exists name, S, n. repeat split; [done.. |]. by eapply H3.
  - right. assert (∀ name n, name ∈ keys ix → axis_of m e (ndim r) name = Some i →
                     shape r !! i = Some n → (n ≤ 1)%nat) as Hall.
    { intros name n [S Hin]%elem_of_keys Hax Hn.
      destruct (decide (n ≤ 1)%nat) as [| Hgt]; [done |]. exfalso.
      apply Hno, Exists_exists. exists (name, S). cbn. rewrite Hn. cbn.
      split; [done |]. split; [done | lia]. }
    split; [done | by apply H4].
Qed.

Lemma gather_loop_keys (ix : IndexSet) (v r : Tensor A) :
  for_each (gather_step e m) ix v = Ok r → ∀ name, name ∈ keys ix → name ∈ keys m.
Proof.
  revert v. induction ix as [| [name S] ix IH]; intros v Hrun name';
    [by intros ?%elem_of_nil |].
  rewrite for_each_cons in Hrun.
  destruct (gather_step e m v (name, S)) as [v1 |] eqn:Hstep; [| done].
  rewrite res_bind_Ok in Hrun.
  unfold keys. cbn. intros [-> | Hin]%elem_of_cons; [| by eapply IH].
  unfold gather_step, dict_item in Hstep.
  destruct (dict_get m name) as [d |] eqn:Hd; [| done].
  apply elem_of_keys. exists d. by apply dict_get_Some_elem.
Qed.

(** The steps of [_scatter_tensor], when it raises nothing: the gathered
    value, its own indices, the tensor written to, the index tensors and
    the assignment. *)
Lemma scatter_tensor_inv (plates : Plates) (v : Tensor A) (ix : IndexSet)
    (result : option (Tensor A)) (event_dim : option Z)
    (name_to_dim : option (dict string Z)) r' :
  e = default 0 event_dim → m = default (plate_dims plates) name_to_dim →
  _scatter_tensor zero plates v ix result event_dim name_to_dim = Ok r' →
  ∃ value ix_v r0 index,
    _gather_tensor plates v ix (Some e) (Some m) = Ok value
    ∧ indices_of plates (VTensor value)
        (mkKwargs (Some (Some e)) (Some (Some m))) = Ok ix_v
    ∧ match result with
      | Some r => r0 = r
      | None =>
          ∃ bs rs,
            broadcast_shapes (shape value)
              (replicate
                 (Z.to_nat (max_list_Z (((fun nf => e - f_dim nf.2) <$> plates) ++ [0])))
                 1%nat) = Ok bs
            ∧ for_each (result_shape_step plates e m) (union ix ix_v) bs = Ok rs
            ∧ r0 = new_zeros zero rs
      end
    ∧ for_each (index_step r0 e m) (union ix ix_v)
        ((fun i => arange_reshaped (default 0%nat (shape r0 !! i))
                     (Z.of_nat (ndim r0) - 1 - Z.of_nat i)) <$> seq 0 (ndim r0))
      = Ok index
    ∧ index_put r0 index value = Ok r'.
Proof.
  intros -> ->. unfold _scatter_tensor.
  destruct (_gather_tensor _ _ _ _ _) as [value |] eqn:Hval; [| done].
  rewrite res_bind_Ok.
  destruct (indices_of _ _ _) as [ix_v |] eqn:Hixv; [| done].
  rewrite res_bind_Ok.
  destruct result as [r |].
  - rewrite res_bind_Ok.
    destruct (for_each (index_step _ _ _) _ _) as [index |] eqn:Hindex; [| done].
    rewrite res_bind_Ok. intros Hput. by exists value, ix_v, r, index.
  - destruct (broadcast_shapes _ _) as [bs |] eqn:Hbs; [| done].
    rewrite res_bind_Ok.
    destruct (for_each (result_shape_step _ _ _) _ _) as [rs |] eqn:Hrs; [| done].
    rewrite !res_bind_Ok.
    destruct (for_each (index_step _ _ _) _ _) as [index |] eqn:Hindex; [| done].
    rewrite res_bind_Ok. intros Hput.
    exists value, ix_v, (new_zeros zero rs), index. eauto 10.
Qed.

(** What [_scatter_tensor] leaves in the tensor it assigns to ([r0]: the
    tensor passed as [result], or the allocated one). *)
Lemma scatter_tensor_write (r0 r' value : Tensor A) (merged : IndexSet) index :
  names_axes m e merged →
  for_each (index_step r0 e m) merged
    ((fun i => arange_reshaped (default 0%nat (shape r0 !! i))
                 (Z.of_nat (ndim r0) - 1 - Z.of_nat i)) <$> seq 0 (ndim r0))
  = Ok index →
  index_put r0 index value = Ok r' →
  shape r' = shape r0
  ∧ ∀ pos,
      ((∃ name S i n c, (name, S) ∈ merged ∧ axis_of m e (ndim r0) name = Some i
                        ∧ shape r0 !! i = Some n ∧ (1 < n)%nat
                        ∧ pos !! i = Some c ∧ c ∉ S) →
       elem r' pos = elem r0 pos)
      ∧ (in_bounds (shape r0) pos →
         (∀ name S i n c, (name, S) ∈ merged → axis_of m e (ndim r0) name = Some i →
            shape r0 !! i = Some n → (1 < n)%nat → pos !! i = Some c → c ∈ S) →
         ∃ j, elem r' pos = expand_read (strip_leading_ones value) j
              ∧ length j = length pos
              ∧ (∀ name S i n c, (name, S) ∈ merged →
                   axis_of m e (ndim r0) name = Some i →
                   shape r0 !! i = Some n → (1 < n)%nat → pos !! i = Some c →
                   ∃ k, j !! i = Some k ∧ sorted S !! k = Some c)
              ∧ (∀ i, (∀ name n, name ∈ keys merged →
                         axis_of m e (ndim r0) name = Some i →
                         shape r0 !! i = Some n → (n ≤ 1)%nat) →
                   j !! i = pos !! i)).
Proof.
  intros Hwf Hindex Hput.
  set (index0 := (fun i => arange_reshaped (default 0%nat (shape r0 !! i))
                     (Z.of_nat (ndim r0) - 1 - Z.of_nat i)) <$> seq 0 (ndim r0))
    in *.
  assert (length index0 = ndim r0) as Hlen0
    by (unfold index0; by rewrite length_fmap, length_seq).
  assert (∀ i n, shape r0 !! i = Some n →
            index0 !! i = Some (arange_reshaped n (Z.of_nat (ndim r0) - 1 - Z.of_nat i)))
    as Hindex0.
  { intros i n Hn. unfold index0. rewrite list_lookup_fmap, lookup_seq_lt
      by (by eapply lookup_lt_Some). cbn. by rewrite Hn. }
  destruct (index_loop_spec r0 merged index0 index Hwf Hlen0 Hindex)
    as (Hlen & _ & Hnamed & _).
  pose proof (index_loop_entry r0 merged index0 index) as Hentry.
  apply index_put_inv in Hput as (_ & _ & _ & _ & ->). cbn [shape elem].
  split; [done |]. intros pos. split.
  - intros (name & S & i & n & c & Hin & Hax & Hn & Hn1 & Hc & Hnot).
    erewrite locate_None_lookup; [done | | exact Hc |].
    + rewrite list_lookup_fmap, (Hnamed name S i n) by done. done.
    + cbn. by rewrite elem_of_sorted.
  - intros Hb Haddr.
    assert (length pos = length (it_vals <$> index)) as Hlenpos.
    { rewrite length_fmap, Hlen. by eapply Forall2_length. }
    destruct (locate_is_Some (it_vals <$> index) pos Hlenpos) as [j Hj].
    { intros i l c Hl Hc.
      destruct (lookup_lt_is_Some_2 (shape r0) i) as [n Hn].
      { apply lookup_lt_Some in Hc. rewrite Hlenpos, length_fmap, Hlen in Hc. done. }
      rewrite list_lookup_fmap in Hl.
      destruct (Hentry i Hwf Hlen0 Hindex)
        as [(name & S & n' & Hin & Hax & Hn' & Hn1 & Hi) | [_ Hi]].
      - rewrite Hi in Hl. injection Hl as <-. apply elem_of_sorted. eauto.
      - rewrite Hi, (Hindex0 i n Hn) in Hl. injection Hl as <-. cbn.
        apply elem_of_seq. pose proof (in_bounds_lookup _ _ _ _ _ Hb Hc Hn). lia. }
    rewrite Hj. exists j.
    destruct (locate_Some_lookup _ _ _ Hj) as (_ & Hlenj & Hall).
    split; [done |]. split; [congruence |]. split.
    + intros name S i n c Hin Hax Hn Hn1 Hc.
      destruct (Hall i (sorted S) c) as (k & Hk & Hjk); [| done |].
      { rewrite list_lookup_fmap, (Hnamed name S i n) by done. done. }
      exists k. split; [done | by apply index_of_Some].
    + intros i Hshort.
      destruct (pos !! i) as [c |] eqn:Hc.
      * destruct (lookup_lt_is_Some_2 (shape r0) i) as [n Hn].
        { apply lookup_lt_Some in Hc. rewrite Hlenpos, length_fmap, Hlen in Hc. done. }
        destruct (Hall i (seq 0 n) c) as (k & Hk & Hjk); [| done |].
        { rewrite list_lookup_fmap.
          destruct (Hentry i Hwf Hlen0 Hindex)
            as [(name & S & n' & Hin & Hax & Hn' & Hn1 & Hi) | [_ Hi]].
          - assert (n' ≤ 1)%nat; [| lia].
            eapply Hshort; [| done..]. apply elem_of_keys. eauto.
          - by rewrite Hi, (Hindex0 i n Hn). }
        rewrite index_of_seq in Hk
          by (pose proof (in_bounds_lookup _ _ _ _ _ Hb Hc Hn); lia).
        injection Hk as <-. rewrite Hjk. f_equal. lia.
      * apply lookup_ge_None in Hc. apply lookup_ge_None. lia.
Qed.

End Scatter.

(** ** scatter into a given result *)

(** C7: scatter of a tensor with [result=r], for a [name_to_dim] whose dims
    are those of distinct axes to the left of the event axes. The call
    returns the tensor it was passed as [result]; the store differs only in
    the content of that tensor, whose shape is unchanged. With the merged
    index set (the requested one united with the indices of the gathered
    value), a position whose coordinate along some named axis of [r] of
    length more than 1 is not among that name's indices holds the element it
    held before; a position all of whose coordinates along such axes are
    among the indices holds an element of the gathered value: the one at the
    rank of the coordinate in [sorted(indices)] along these axes and at the
    same coordinate along every other axis. *)
Theorem scatter_result_in_place {A} (zero : A) {World}
    (get_index_plates : World → Plates) (σ σ' : Store (A:=A) (World:=World))
    (l l' : loc) (r v : Tensor A) (ix : IndexSet) (event_dim : option Z)
    (name_to_dim : option (dict string Z)) :
  let plates := get_index_plates (world σ) in
  let e := default 0 event_dim in
  let m := default (plate_dims plates) name_to_dim in
  dims_distinct m e → NoDup (keys ix) → tensors σ !! l = Some r →
  scatter_in_store zero get_index_plates (VTensor v) ix (Some l) event_dim
    name_to_dim σ = (Ok l', σ') →
  l' = l ∧ world σ' = world σ
  ∧ ∃ value ix_v r',
      _gather_tensor plates v ix (Some e) (Some m) = Ok value
      ∧ indices_of plates (VTensor value)
          (mkKwargs (Some (Some e)) (Some (Some m))) = Ok ix_v
      ∧ tensors σ' = <[l := r']> (tensors σ)
      ∧ shape r' = shape r
      ∧ ∀ pos,
          ((∃ name S i n c,
              (name, S) ∈ union ix ix_v ∧ axis_of m e (ndim r) name = Some i
              ∧ shape r !! i = Some n ∧ (1 < n)%nat
              ∧ pos !! i = Some c ∧ c ∉ S) →
           elem r' pos = elem r pos)
          ∧ (in_bounds (shape r) pos →
             (∀ name S i n c,
                (name, S) ∈ union ix ix_v → axis_of m e (ndim r) name = Some i →
                shape r !! i = Some n → (1 < n)%nat → pos !! i = Some c → c ∈ S) →
             ∃ j, elem r' pos = expand_read (strip_leading_ones value) j
                  ∧ length j = length pos
                  ∧ (∀ name S i n c,
                       (name, S) ∈ union ix ix_v →
                       axis_of m e (ndim r) name = Some i →
                       shape r !! i = Some n → (1 < n)%nat → pos !! i = Some c →
                       ∃ k, j !! i = Some k ∧ sorted S !! k = Some c)
                  ∧ (∀ i, (∀ name n, name ∈ keys (union ix ix_v) →
                             axis_of m e (ndim r) name = Some i →
                             shape r !! i = Some n → (n ≤ 1)%nat) →
                       j !! i = pos !! i)).
Proof.
  intros plates e m Hdims Hix Hl. unfold scatter_in_store. cbn [tensors world effects].
  rewrite Hl. fold plates. cbn [scatter].
  destruct (_scatter_tensor zero plates v ix (Some r) event_dim name_to_dim)
    as [r' | err] eqn:Hrun; [| done].
  intros [= <- <-]. cbn [tensors world]. split; [done |]. split; [done |].
  pose proof (scatter_tensor_inv zero e m _ _ _ _ _ _ _ eq_refl eq_refl Hrun)
    as (value & ix_v & r0 & index & Hval & Hixv & Hr0 & Hindex & Hput).
  cbn in Hr0. subst r0.
  exists value, ix_v, r'. split; [done |]. split; [done |]. split; [done |].
  eapply scatter_tensor_write; [| exact Hindex | exact Hput].
  cbn [indices_of] in Hixv. apply indices_of_shape_inv in Hixv as ->.
  apply names_axes_merged; [done.. |]. by eapply gather_loop_keys.
Qed.

Lemma scatter_result_in_place_witness :
  let plates : Plates := [("a", mkFrame "a" (-1) 3 0)] in
  let r : Tensor Z := mkTensor [2; 3]%nat (fun _ => 7) in
  let v : Tensor Z := mkTensor [2; 1]%nat (fun idx => Z.of_nat (sum_list idx)) in
  let ix : IndexSet := [("a", {[1%nat]})] in
  let σ : Store (A:=Z) (World:=Plates) := mkStore {[0%nat := r]} plates [] in
  let run := scatter_in_store 0 id (VTensor v) ix (Some 0%nat) None None σ in
  dims_distinct (plate_dims plates) 0 ∧ NoDup (keys ix)
  ∧ tensors σ !! 0%nat = Some r
  ∧ run = (Ok 0%nat, run.2)
  ∧ ∃ r', tensors run.2 = <[0%nat := r']> (tensors σ) ∧ shape r' = [2; 3]%nat.
Proof.
  cbn zeta.
  set (plates := [("a", mkFrame "a" (-1) 3 0)] : Plates).
  set (r := mkTensor [2; 3]%nat (fun _ => 7) : Tensor Z).
  set (v := mkTensor [2; 1]%nat (fun idx => Z.of_nat (sum_list idx)) : Tensor Z).
  set (ix := [("a", {[1%nat]})] : IndexSet).
  set (σ := mkStore {[0%nat := r]} plates [] : Store (A:=Z) (World:=Plates)).
  assert (dims_distinct (plate_dims plates) 0) as H1.
  { split; [apply NoDup_singleton |]. split.
    - intros name d [= -> ->]%list_elem_of_singleton. lia.
    - by intros name1 name2 d [= -> ->]%list_elem_of_singleton
        [= ->]%list_elem_of_singleton. }
  assert (NoDup (keys ix)) as H2 by apply NoDup_singleton.
  assert (tensors σ !! 0%nat = Some r) as H3 by reflexivity.
  assert (scatter_in_store 0 id (VTensor v) ix (Some 0%nat) None None σ
          = (Ok 0%nat, (scatter_in_store 0 id (VTensor v) ix (Some 0%nat) None None σ).2))
    as H4 by (vm_compute; reflexivity).
  split; [exact H1 |]. split; [exact H2 |]. split; [exact H3 |]. split; [exact H4 |].
  destruct (scatter_result_in_place 0 id σ _ 0%nat 0%nat r v ix None None
              H1 H2 H3 H4) as (_ & _ & value & ix_v & r' & _ & _ & Ht & Hs & _).
  exists r'. split; [exact Ht | exact Hs].
Defined.

(** A run on an instance: of the tensor of shape (2, 3) filled with 7,
    column 1 now holds the value and the others still hold 7. *)
Example scatter_result_in_place_run :
  let plates : Plates := [("a", mkFrame "a" (-1) 3 0)] in
  let r : Tensor Z := mkTensor [2; 3]%nat (fun _ => 7) in
  let v : Tensor Z := mkTensor [2; 1]%nat (fun idx => Z.of_nat (sum_list idx)) in
  match _scatter_tensor 0 plates v [("a", {[1%nat]})] (Some r) None None with
  | Ok r' => (shape r', elem r' <$> [[0; 0]; [0; 1]; [0; 2]; [1; 0]; [1; 1]; [1; 2]]%nat)
             = ([2; 3]%nat, [7; 0; 7; 7; 1; 7])
  | Raise _ => False
  end.
Proof. vm_compute. reflexivity. Qed.

(** ** scatter into an allocated result *)

Lemma broadcast_rev_ones (a : list nat) k :
  broadcast_rev a (replicate k 1%nat) = Ok (a ++ replicate (k - length a) 1%nat).
Proof.
  revert k. induction a as [| x a IH]; intros k.
  { cbn. by rewrite Nat.sub_0_r. }
  destruct k as [| k]; [cbn; by rewrite app_nil_r |].
  cbn [broadcast_rev replicate]. rewrite IH, res_bind_Ok. cbn [length Nat.sub app].
  by destruct (x =? 1)%nat.
Qed.

Lemma rev_reverse {X} (l : list X) : rev l = reverse l.
Proof. apply rev_alt. Qed.

Lemma broadcast_shapes_ones (sh : list nat) k :
  broadcast_shapes sh (replicate k 1%nat)
  = Ok (replicate (k - length sh) 1%nat ++ sh).
Proof.
  unfold broadcast_shapes.
  rewrite (rev_reverse (replicate _ _)), reverse_replicate.
  rewrite broadcast_rev_ones, res_bind_Ok, length_rev.
  rewrite rev_app_distr, rev_involutive.
  by rewrite (rev_reverse (replicate _ _)), reverse_replicate.
Qed.

Section ScatterAlloc.

Context {A : Type}.
Variable zero : A.
Variable e : Z.
Variable m : dict string Z.
Variable plates : Plates.

Lemma result_shape_step_cases (rs : list nat) name S d :
  dict_get m name = Some d →
  result_shape_step plates e m rs (name, S)
  = match dict_get plates name with
    | None => Raise KeyError
    | Some f =>
        match axis_of m e (length rs) name with
        | None => Raise IndexError
        | Some i => Ok (<[i := f_size f]> rs)
        end
    end.
Proof.
  intros Hd. unfold result_shape_step, axis_of, dict_item, py_setitem.
  rewrite Hd. destruct (dict_get plates name); [| done].
  rewrite !res_bind_Ok. cbn [mbind option_bind]. done.
Qed.

(** The loop of [_scatter_tensor] that sizes the allocated result: the axis
    of every name of the merged index set gets the size of its plate. *)
Lemma result_shape_loop_spec (ix : IndexSet) (bs rs : list nat) :
  names_axes m e ix →
  for_each (result_shape_step plates e m) ix bs = Ok rs →
  length rs = length bs
  ∧ (∀ name, name ∈ keys ix →
       ∃ i f, axis_of m e (length bs) name = Some i
              ∧ dict_get plates name = Some f ∧ rs !! i = Some (f_size f))
  ∧ (∀ i, (∀ name, name ∈ keys ix → axis_of m e (length bs) name ≠ Some i) →
       rs !! i = bs !! i).
Proof.
  revert bs. induction ix as [| [name S] ix IH]; intros bs Hwf Hrun.
  { injection Hrun as <-. split; [done |]. split; [by intros ? ?%elem_of_nil | done]. }
  apply names_axes_cons in Hwf as (Hwf & (d & Hd & Hneg) & Hother).
  rewrite for_each_cons in Hrun.
  destruct (result_shape_step plates e m bs (name, S)) as [bs1 | err] eqn:Hstep;
    [| done].
  rewrite res_bind_Ok in Hrun. rewrite (result_shape_step_cases _ _ _ d) in Hstep by done.
  destruct (dict_get plates name) as [f |] eqn:Hf; [| done].
  destruct (axis_of m e (length bs) name) as [i0 |] eqn:Hax; [| done].
  injection Hstep as <-.
  destruct (IH _ Hwf Hrun) as (IH1 & IH2 & IH3). rewrite length_insert in *.
  assert (∀ name', name' ∈ keys ((name, S) :: ix) ↔ name' = name ∨ name' ∈ keys ix)
    as Hkeys by (intros; unfold keys; cbn; apply elem_of_cons).
  assert (i0 < length bs)%nat as Hi0.
  { unfold axis_of in Hax. rewrite Hd in Hax. by eapply norm_axis_lt. }
  split; [done |]. split.
  - intros name' [-> | Hin]%Hkeys; [| by apply IH2].
    exists i0, f. split; [done |]. split; [done |].
    rewrite IH3 by (intros name' Hin; by eapply Hother).
    by apply list_lookup_insert_eq.
  - intros i Hi. rewrite IH3 by (intros name' Hin; apply Hi, Hkeys; by right).
    apply list_lookup_insert_ne. intros <-. apply (Hi name); [| done].
    apply Hkeys. by left.
Qed.

End ScatterAlloc.

(** *** Expanding the value to the indexed positions *)

Lemma strip_ones_drop (sh : list nat) :
  ∃ k, strip_ones sh = drop k sh ∧ (k ≤ length sh)%nat
       ∧ ∀ j, (j < k)%nat → sh !! j = Some 1%nat.
Proof.
  induction sh as [| x sh (k & Hk & Hlen & Hall)].
  { exists 0%nat. split; [done |]. split; [done | lia]. }
  destruct (decide (x = 1%nat)) as [-> | Hx].
  - exists (S k). cbn. split; [done |]. split; [lia |].
    intros [| j] Hj; [done |]. apply Hall. lia.
  - exists 0%nat. split; [| split; [cbn; lia | lia]].
    cbn. destruct x as [| [| x]]; done.
Qed.

Lemma expandable_lookup (sh target : list nat) j n :
  expandable sh target = true → sh !! j = Some n → n ≠ 1%nat →
  target !! (length target - length sh + j)%nat = Some n.
Proof.
  unfold expandable. intros [Hlen Hall]%andb_true_iff Hj Hn.
  apply bool_decide_eq_true in Hlen. rewrite forallb_forall in Hall.
  pose proof (lookup_lt_Some _ _ _ Hj) as Hjlt.
  set (q := (length sh - S j)%nat).
  assert (rev sh !! q = Some n) as Hq.
  { rewrite rev_reverse, reverse_lookup by (unfold q; lia).
    rewrite <- Hj. f_equal. unfold q. lia. }
  destruct (lookup_lt_is_Some_2 (rev target) q) as [t Ht].
  { rewrite length_rev. unfold q. lia. }
  specialize (Hall (n, t)). cbn in Hall.
  assert ((n =? t)%nat || (n =? 1)%nat = true) as Hnt.
  { apply Hall, list_elem_of_In, list_elem_of_lookup. exists q.
    by rewrite lookup_zip_with, Hq, Ht. }
  apply orb_true_iff in Hnt as [Hnt%Nat.eqb_eq | Hnt%Nat.eqb_eq]; [subst t | done].
  rewrite rev_reverse, reverse_lookup in Ht by (unfold q; lia).
  rewrite <- Ht. f_equal. unfold q. lia.
Qed.

(** An axis of the value that is longer than 1 has, in the indexed
    positions, the length of the index list of the axis it is aligned
    with. *)
Lemma expandable_strip_lookup {A} (value : Tensor A) (target : list nat) iv i n :
  expandable (shape (strip_leading_ones value)) target = true →
  shape value !! iv = Some n → n ≠ 1%nat →
  (ndim value - iv = length target - i)%nat → (i < length target)%nat →
  target !! i = Some n.
Proof.
  cbn [strip_leading_ones shape]. intros Hexp Hiv Hn Halign Hi.
  destruct (strip_ones_drop (shape value)) as (k & Hk & Hklen & Hones).
  rewrite Hk in Hexp.
  assert (k ≤ iv)%nat as Hkiv.
  { destruct (decide (k ≤ iv)%nat); [done |].
    rewrite Hones in Hiv by lia. congruence. }
  pose proof (lookup_lt_Some _ _ _ Hiv) as Hivlt.
  pose proof (expandable_lookup _ target (iv - k) n Hexp) as Hlook.
  rewrite lookup_drop, length_drop in Hlook.
  replace (k + (iv - k))%nat with iv in Hlook by lia.
  specialize (Hlook Hiv Hn). rewrite <- Hlook. f_equal.
  apply andb_true_iff in Hexp as [Hlen%bool_decide_eq_true _].
  rewrite length_drop in Hlen. unfold ndim in *. lia.
Qed.

Lemma names_axes_dims (m : dict string Z) e (ix : IndexSet) :
  dims_distinct m e → NoDup (keys ix) → (∀ name, name ∈ keys ix → name ∈ keys m) →
  names_axes m e ix.
Proof.
  intros (Hnd & Hneg & Hinj) Hix Hsub. split; [done |]. split.
  - intros name [d Hd]%Hsub%elem_of_keys. exists d.
    split; [by apply dict_get_elem | by eapply Hneg].
  - intros name1 name2 d _ _ H1%dict_get_Some_elem H2%dict_get_Some_elem.
    by eapply Hinj.
Qed.

Lemma axis_of_neg (m : dict string Z) e n name d i :
  dict_get m name = Some d → d - e < 0 →
  axis_of m e n name = Some i ↔
  - (d - e) ≤ Z.of_nat n ∧ i = Z.to_nat (Z.of_nat n + (d - e)).
Proof.
  intros Hd Hneg. unfold axis_of. rewrite Hd. cbn.
  rewrite norm_axis_neg by done.
  destruct (- (d - e) <=? Z.of_nat n) eqn:Hle.
  - apply Z.leb_le in Hle. split; [by intros [= <-] | by intros [_ ->]].
  - apply Z.leb_gt in Hle. split; [done | lia].
Qed.

(** C6: scatter of a tensor with [result=None], for a [name_to_dim] whose
    dims are negative and distinct, an [event_dim] that counts trailing axes
    of the value, and an index set of non-empty sets of indices below the
    sizes of their plates. The tensor returned has the axes of the gathered
    value, with axes of length 1 added on the left until every registered
    plate has one ([max(event_dim - dim)] axes at least); the axis of every
    name of the merged index set has the plate's registered size, every
    other axis its length in that broadcast shape; a position whose
    coordinate along a named axis longer than 1 is not among the merged
    indices of the name holds zero, and so does a position whose coordinate
    along the axis of a requested name is not among the requested indices. *)
Theorem scatter_allocates_zero_filled {A} (zero : A) (plates : Plates)
    (v : Tensor A) (ix : IndexSet) (event_dim : option Z)
    (name_to_dim : option (dict string Z)) (r : Tensor A) :
  let e := default 0 event_dim in
  let m := default (plate_dims plates) name_to_dim in
  let ones := Z.to_nat (max_list_Z (((fun nf => e - f_dim nf.2) <$> plates) ++ [0])) in
  dims_distinct m e → (∀ name d, (name, d) ∈ m → d < 0) →
  0 ≤ e ≤ Z.of_nat (ndim v) →
  NoDup (keys ix) → indices_in_plates plates ix →
  _scatter_tensor zero plates v ix None event_dim name_to_dim = Ok r →
  ∃ value ix_v,
    _gather_tensor plates v ix (Some e) (Some m) = Ok value
    ∧ indices_of plates (VTensor value)
        (mkKwargs (Some (Some e)) (Some (Some m))) = Ok ix_v
    ∧ ndim r = (ndim value `max` ones)%nat
    ∧ (∀ name, name ∈ keys (union ix ix_v) →
         ∃ i f, axis_of m e (ndim r) name = Some i
                ∧ dict_get plates name = Some f ∧ shape r !! i = Some (f_size f))
    ∧ (∀ i, (∀ name, name ∈ keys (union ix ix_v) →
               axis_of m e (ndim r) name ≠ Some i) →
         shape r !! i
         = (replicate (ones - ndim value) 1%nat ++ shape value) !! i)
    ∧ (∀ pos,
         (∃ name S i n c,
            (name, S) ∈ union ix ix_v ∧ axis_of m e (ndim r) name = Some i
            ∧ shape r !! i = Some n ∧ (1 < n)%nat
            ∧ pos !! i = Some c ∧ c ∉ S) →
         elem r pos = zero)
    ∧ (∀ pos name S i c,
         in_bounds (shape r) pos → (name, S) ∈ ix →
         axis_of m e (ndim r) name = Some i → pos !! i = Some c → c ∉ S →
         elem r pos = zero).
Proof.
  intros e m ones Hdims Hneg He Hix Hvalid Hrun.
  pose proof (scatter_tensor_inv zero e m _ _ _ _ _ _ _ eq_refl eq_refl Hrun)
    as (value & ix_v & r0 & index & Hval & Hixv & Hr0 & Hindex & Hput).
  cbn in Hr0. destruct Hr0 as (bs & rs & Hbs & Hrs & ->).
  fold ones in Hbs. rewrite broadcast_shapes_ones in Hbs. injection Hbs as Hbs.
  fold (ndim value) in Hbs.
  exists value, ix_v. split; [done |]. split; [done |].
  pose proof Hixv as Hixv'. cbn [indices_of] in Hixv'.
  apply indices_of_shape_inv in Hixv'.
  set (trimmed := py_slice_to (shape value) (Z.of_nat (length (shape value)) - e))
    in Hixv'.
  assert (∀ name, name ∈ keys ix → name ∈ keys m) as Hsub
    by (by eapply gather_loop_keys).
  assert (names_axes m e (union ix ix_v)) as Hwf
    by (rewrite Hixv'; by apply names_axes_merged).
  assert (names_axes m e ix) as Hwfix by (by apply names_axes_dims).
  destruct (gather_loop_spec e m ix v value Hwfix Hval) as (Hnv & Hvnamed & _).
  destruct (result_shape_loop_spec e m plates _ _ _ Hwf Hrs) as (Hlen & Hnamed & Hother).
  destruct (scatter_tensor_write e m _ _ _ _ _ Hwf Hindex Hput) as (Hshape & Hwrite).
  set (r0 := new_zeros zero rs) in *.
  assert (ndim r = ndim r0) as Hnd by (unfold ndim; by rewrite Hshape).
  rewrite <- Hlen in Hnamed, Hother. change (length rs) with (ndim r0) in *.
  change (shape r0) with rs in *.
  rewrite Hnd, Hshape.
  split; [| split; [| split; [| split]]].
  - rewrite Hlen, <- Hbs, length_app, length_replicate. unfold ndim. lia.
  - done.
  - intros i Hi. rewrite Hbs. by apply Hother.
  - intros pos Hex. by apply (proj1 (Hwrite pos)).
  - intros pos name S i c Hb Hin Hax Hc Hnot.
    destruct (Hvalid name S Hin) as [Hne Hlt].
    set (extra := default ∅ (dict_get ix_v name)).
    assert ((name, S ∪ extra) ∈ union ix ix_v) as Hmerged.
    { apply elem_of_union_indexset. split; [set_solver |]. left. by exists S. }
    destruct (Hnamed name) as (i' & f & Hax' & Hf & Hri); [apply elem_of_keys; eauto |].
    rewrite Hax in Hax'. injection Hax' as <-.
    pose proof (in_bounds_lookup _ _ _ _ _ Hb Hc Hri) as Hcf.
    destruct (decide (1 < f_size f)%nat) as [Hbig | Hsmall].
    2:{ exfalso. apply set_choose_L in Hne as [k Hk].
        pose proof (Hlt f Hf k Hk). assert (k = c) as -> by lia. done. }
    destruct (decide (c ∈ S ∪ extra)) as [Hcin | Hcnot].
    2:{ apply (proj1 (Hwrite pos)). exists name, (S ∪ extra), i, (f_size f), c. done. }
    exfalso. apply elem_of_union in Hcin as [? | Hcin]; [done |].
    unfold extra in Hcin.
    destruct (dict_get ix_v name) as [Sv |] eqn:Hget; cbn in Hcin;
      [| by apply not_elem_of_empty in Hcin].
    rewrite Hixv' in Hget.
    apply dict_get_shape_entries in Hget
      as (d & n & Hd & Hdlen & Hn & Hn1 & ->); [| apply Hdims].
    assert (d < 0) as Hdneg by (eapply Hneg, dict_get_Some_elem, Hd).
    assert (trimmed = take (ndim value - Z.to_nat e) (shape value)) as Htrim.
    { unfold trimmed, py_slice_to, ndim in *.
      rewrite (proj2 (Z.ltb_ge _ _)) by lia. f_equal. lia. }
    assert (length trimmed = (ndim value - Z.to_nat e)%nat) as Htrimlen.
    { rewrite Htrim, length_take. unfold ndim in *. lia. }
    apply py_getitem_Ok in Hn as (j & Hj & Hjn).
    rewrite norm_axis_neg in Hj by done.
    destruct (- d <=? Z.of_nat (length trimmed)) eqn:Hle; [| done].
    apply Z.leb_le in Hle. injection Hj as <-.
    set (j := Z.to_nat (Z.of_nat (length trimmed) + d)) in *.
    assert (shape value !! j = Some n) as Hvj.
    { rewrite Htrim in Hjn. rewrite lookup_take_lt in Hjn; [done |].
      apply lookup_lt_Some in Hjn. by rewrite length_take in Hjn; lia. }
    assert (axis_of m e (ndim v) name = Some j) as Haxv.
    { apply (axis_of_neg m e _ name d); [done | lia |]. unfold j. lia. }
    rewrite (Hvnamed name S j Hin Haxv) in Hvj.
    destruct (decide (shape v !! j = Some 1%nat)); [injection Hvj as <-; lia |].
    injection Hvj as <-.
    edestruct (index_loop_spec e m r0) as (Hilen & _ & Hinamed & _);
      [exact Hwf | | exact Hindex |]; [by rewrite length_fmap, length_seq |].
    pose proof (Hinamed name _ i (f_size f) Hmerged Hax Hri Hbig) as Hii.
    apply index_put_inv in Hput as (_ & _ & _ & Hexp & _).
    apply (axis_of_neg m e _ name d) in Hax as [Hax1 Hax2]; [| done | lia].
    pose proof (expandable_strip_lookup value _ j i (size S) Hexp) as Htarget.
    rewrite (Hvnamed name S j Hin Haxv), decide_False in Htarget by done.
    rewrite !list_lookup_fmap, Hii, !length_fmap, Hilen in Htarget. cbn in Htarget.
    rewrite length_sorted in Htarget.
    assert (size (S ∪ set_range (size S)) = size S) as Hsize.
    { symmetry. assert (Some (size (S ∪ set_range (size S))) = Some (size S)) as [=];
        [| done].
      apply Htarget; [done | lia | | ].
      - unfold j, ndim in *. cbn [r0 shape new_zeros] in *. lia.
      - by eapply lookup_lt_Some. }
    assert (S = S ∪ set_range (size S)) as HS.
    { apply set_subseteq_size_eq; [set_solver | lia]. }
    apply Hnot. rewrite HS. by apply elem_of_union_r.
Qed.

Lemma scatter_allocates_zero_filled_witness :
  let plates : Plates := [("a", mkFrame "a" (-1) 3 0)] in
  let v : Tensor Z := mkTensor [2; 1]%nat (fun idx => 5 + Z.of_nat (sum_list idx)) in
  let ix : IndexSet := [("a", {[1%nat]})] in
  dims_distinct (plate_dims plates) 0
  ∧ (∀ name d, (name, d) ∈ plate_dims plates → d < 0)
  ∧ 0 ≤ 0 ≤ Z.of_nat (ndim v)
  ∧ NoDup (keys ix) ∧ indices_in_plates plates ix
  ∧ ∃ r, _scatter_tensor 0 plates v ix None None None = Ok r
         ∧ ndim r = 2%nat
         ∧ elem r [0; 0]%nat = 0 ∧ elem r [1; 2]%nat = 0.
Proof.
  cbn zeta.
  set (plates := [("a", mkFrame "a" (-1) 3 0)] : Plates).
  set (v := mkTensor [2; 1]%nat (fun idx => 5 + Z.of_nat (sum_list idx)) : Tensor Z).
  set (ix := [("a", {[1%nat]})] : IndexSet).
  assert (dims_distinct (plate_dims plates) 0) as H1.
  { split; [apply NoDup_singleton |]. split.
    - intros name d [= -> ->]%list_elem_of_singleton. lia.
    - by intros name1 name2 d [= -> ->]%list_elem_of_singleton
        [= ->]%list_elem_of_singleton. }
  assert (∀ name d, (name, d) ∈ plate_dims plates → d < 0) as H2.
  { intros name d [= -> ->]%list_elem_of_singleton. lia. }
  assert (0 ≤ 0 ≤ Z.of_nat (ndim v)) as H3 by (cbn; lia).
  assert (NoDup (keys ix)) as H4 by apply NoDup_singleton.
  assert (indices_in_plates plates ix) as H5.
  { intros name S [= -> ->]%list_elem_of_singleton. split.
    - intros Hempty. assert (1%nat ∈ ({[1%nat]} : gset nat)) as Hin by set_solver.
      rewrite Hempty in Hin. by apply not_elem_of_empty in Hin.
    - intros f [= <-] k ->%elem_of_singleton. cbn. lia. }
  do 5 (split; [done |]).
  destruct (_scatter_tensor 0 plates v ix None None None) as [r | err] eqn:Hr;
    [| vm_compute in Hr; discriminate Hr].
  exists r. split; [reflexivity |].
  destruct (scatter_allocates_zero_filled 0 plates v ix None None r H1 H2 H3 H4 H5 Hr)
    as (value & ix_v & Hval & _ & Hndim & _ & _ & _ & Hzero).
  assert (shape r = [2; 3]%nat) as Hshape.
  { vm_compute in Hr. by injection Hr as <-. }
  assert (value = v) as -> by (by injection Hval).
  split; [exact Hndim |].
  split; (eapply (Hzero _ "a" {[1%nat]} 1%nat);
          [rewrite Hshape; repeat constructor | left | rewrite Hndim; reflexivity
          | reflexivity | set_solver]).
Defined.

(** A request for positions 0 and 2 of a plate of size 3, for a value that
    has the three positions: the gathered value has two positions, its own
    indices {0, 1} join the requested ones, and the assignment of two
    positions to three raises. The merged indices of a name differ from the
    requested ones only in calls that raise. *)
Example scatter_two_of_three_raises :
  _scatter_tensor 0 [("a", mkFrame "a" (-1) 3 0)]
    (mkTensor [2; 3]%nat (fun idx => Z.of_nat (sum_list idx)))
    [("a", {[0; 2]}%nat)] None None None
  = Raise RuntimeError.
Proof. vm_compute. reflexivity. Qed.

(** ** gather after scatter *)

Lemma size_set_range n : size (set_range n) = n.
Proof.
  unfold set_range. rewrite size_list_to_set by apply NoDup_seq. apply length_seq.
Qed.

Lemma sorted_set_range n : sorted (set_range n) = seq 0 n.
Proof.
  apply (StronglySorted_unique Nat.le).
  - apply (StronglySorted_merge_sort Nat.le).
  - apply Sorted_StronglySorted; [apply _ |].
    generalize 0%nat. induction n as [| n IH]; intros s; cbn; [constructor |].
    constructor; [apply IH |]. destruct n; cbn; constructor. lia.
  - apply NoDup_Permutation; [apply NoDup_sorted | apply NoDup_seq |].
    intros k. rewrite elem_of_sorted, elem_of_set_range, elem_of_seq. lia.
Qed.

Section GatherFull.

Context {A : Type}.
Variable e : Z.
Variable m : dict string Z.

(** gather with index sets that ask for every position of the axes they
    reach returns the tensor it is given: same shape, same elements. *)
Lemma gather_full_range (ix : IndexSet) (t : Tensor A) :
  names_axes m e ix →
  (∀ name S i n, (name, S) ∈ ix → axis_of m e (ndim t) name = Some i →
     shape t !! i = Some n → n ≠ 1%nat → S = set_range n) →
  ∃ r, for_each (gather_step e m) ix t = Ok r
       ∧ shape r = shape t
       ∧ ∀ idx, in_bounds (shape t) idx → elem r idx = elem t idx.
Proof.
  intros Hwf Hfull.
  destruct (gather_loop_total e m ix t Hwf) as [r Hr].
  { intros name S i n Hin Hax Hn Hn1 k Hk.
    rewrite (Hfull name S i n) in Hk by done. by apply elem_of_set_range. }
  exists r. split; [done |].
  destruct (gather_loop_spec e m ix t r Hwf Hr) as (Hnd & Hnamed & Hother & Helem).
  assert (shape r = shape t) as Hshape.
  { apply list_eq. intros i.
    destruct (decide (Exists (fun kv => axis_of m e (ndim t) kv.1 = Some i) ix))
      as [Hex | Hno].
    - apply Exists_exists in Hex as ([name S] & Hin & Hax). cbn in Hax.
      rewrite (Hnamed name S i Hin Hax).
      destruct (decide (shape t !! i = Some 1%nat)) as [-> | Hne]; [done |].
      destruct (shape t !! i) as [n |] eqn:Hn.
      + rewrite (Hfull name S i n) by congruence. by rewrite size_set_range.
      + exfalso. destruct Hwf as (_ & Hneg & _).
        destruct (Hneg name) as (d & Hd & _); [apply elem_of_keys; eauto |].
        unfold axis_of in Hax. rewrite Hd in Hax. cbn in Hax.
        apply norm_axis_lt in Hax. apply lookup_ge_None in Hn. unfold ndim in *. lia.
    - apply Hother. intros name [S Hin]%elem_of_keys Hax.
      apply Hno, Exists_exists. by exists (name, S). }
  split; [done |]. intros idx Hb.
  destruct (Helem idx) as (src & -> & Hlen & Hsel & Hsame); [by rewrite Hshape |].
  f_equal. apply list_eq. intros i.
  destruct (idx !! i) as [c |] eqn:Hc.
  2:{ apply lookup_ge_None in Hc. apply lookup_ge_None. lia. }
  destruct (decide (Exists (fun kv => axis_of m e (ndim t) kv.1 = Some i
                                      ∧ shape t !! i ≠ Some 1%nat) ix))
    as [Hex | Hno].
  - apply Exists_exists in Hex as ([name S] & Hin & Hax & Hne). cbn in Hax.
    rewrite (Hsel name S i c Hin Hax Hne Hc).
    destruct (lookup_lt_is_Some_2 (shape t) i) as [n Hn].
    { apply lookup_lt_Some in Hc. by rewrite <- (Forall2_length _ _ _ Hb). }
    rewrite (Hfull name S i n) by congruence.
    rewrite sorted_set_range. apply lookup_seq_lt.
    by eapply in_bounds_lookup.
  - rewrite Hsame, Hc; [done |]. intros name [S Hin]%elem_of_keys Hax.
    destruct (decide (shape t !! i = Some 1%nat)) as [| Hne]; [done |].
    exfalso. apply Hno, Exists_exists. by exists (name, S).
Qed.

End GatherFull.

Lemma expandable_intro (sh target : list nat) :
  (length sh ≤ length target)%nat →
  (∀ j n, sh !! j = Some n →
     n = 1%nat ∨ target !! (length target - length sh + j)%nat = Some n) →
  expandable sh target = true.
Proof.
  intros Hlen Hall. unfold expandable. apply andb_true_iff.
  split; [by apply bool_decide_eq_true |].
  apply forallb_forall. intros [n t] Hin%list_elem_of_In%list_elem_of_lookup.
  destruct Hin as [q Hq]. apply lookup_zip_with_Some in Hq as (n' & t' & [= <- <-] & Hn & Ht).
  cbn. rewrite rev_reverse in Hn, Ht.
  apply reverse_lookup_Some in Hn as [Hn Hqn]. apply reverse_lookup_Some in Ht as [Ht Hqt].
  destruct (Hall _ _ Hn) as [-> | Ht']; [by rewrite orb_true_r |].
  replace (length target - length sh + (length sh - S q))%nat
    with (length target - S q)%nat in Ht' by lia.
  rewrite Ht in Ht'. injection Ht' as ->. by rewrite Nat.eqb_refl.
Qed.

Lemma broadcast_rev_expandable (a b : list nat) :
  (length b ≤ length a)%nat →
  forallb (fun p => (p.1 =? p.2)%nat || (p.1 =? 1)%nat) (zip b a) = true →
  broadcast_rev a b = Ok a.
Proof.
  revert b. induction a as [| x a IH]; intros [| y b] Hlen Hall; try done.
  { cbn in Hlen. lia. }
  cbn in Hall. apply andb_true_iff in Hall as [Hxy Hall].
  cbn [broadcast_rev]. rewrite IH by (cbn in Hlen; by try lia). rewrite res_bind_Ok.
  destruct (x =? y)%nat eqn:Hx; [done |].
  apply orb_true_iff in Hxy as [Hxy | Hy1].
  - rewrite Nat.eqb_sym in Hxy. congruence.
  - apply Nat.eqb_eq in Hy1 as ->. rewrite Hx. done.
Qed.

Lemma broadcast_shapes_expandable (a b : list nat) :
  expandable b a = true → broadcast_shapes a b = Ok a.
Proof.
  unfold expandable, broadcast_shapes.
  intros [Hlen%bool_decide_eq_true Hall]%andb_true_iff.
  rewrite broadcast_rev_expandable by (by rewrite ?length_rev).
  by rewrite res_bind_Ok, rev_involutive.
Qed.

Lemma locate_seq (sh pos : list nat) :
  in_bounds sh pos → locate (seq 0 <$> sh) pos = Some pos.
Proof.
  unfold in_bounds. intros Hb. induction Hb as [| c n pos sh Hc Hb IH]; [done |].
  cbn. rewrite index_of_seq by lia. cbn. rewrite IH. cbn. do 2 f_equal. lia.
Qed.

Section ExpandRead.

Context {A : Type}.

Lemma expand_read_eq (t : Tensor A) j : expand_read t j = elem t (expand_index (shape t) j).
Proof. reflexivity. Qed.

Lemma expand_index_in_bounds (sh pos : list nat) :
  in_bounds sh pos → expand_index sh pos = pos.
Proof.
  intros Hb. unfold expand_index.
  rewrite (Forall2_length _ _ _ Hb), Nat.sub_diag, drop_0.
  unfold in_bounds in Hb. induction Hb as [| c n pos sh Hc Hb IH]; [done |].
  cbn. rewrite IH. destruct (n =? 1)%nat eqn:Hn; [| done].
  apply Nat.eqb_eq in Hn. f_equal. lia.
Qed.

Lemma expand_index_lookup (sh j : list nat) i n :
  (length sh ≤ length j)%nat → sh !! i = Some n →
  expand_index sh j !! i
  = (fun c => if (n =? 1)%nat then 0%nat else c) <$> j !! (length j - length sh + i)%nat.
Proof.
  intros Hlen Hn. unfold expand_index.
  rewrite lookup_zip_with, lookup_drop, Hn.
  by destruct (j !! (length j - length sh + i)%nat).
Qed.

Lemma length_expand_index (sh j : list nat) :
  (length sh ≤ length j)%nat → length (expand_index sh j) = length sh.
Proof.
  intros Hlen. unfold expand_index. rewrite length_zip_with, length_drop. lia.
Qed.

(** Reading the value without its leading axes of length 1 is reading the
    value. *)
Lemma expand_read_strip (t : Tensor A) (j : list nat) :
  (ndim t ≤ length j)%nat →
  expand_read (strip_leading_ones t) j = expand_read t j.
Proof.
  intros Hlen. rewrite !expand_read_eq. cbn [strip_leading_ones shape elem].
  f_equal. unfold ndim in *.
  destruct (strip_ones_drop (shape t)) as (k & Hk & Hklen & Hones).
  rewrite Hk, length_drop.
  replace (length (shape t) - (length (shape t) - k))%nat with k by lia.
  apply list_eq. intros i.
  destruct (decide (i < k)%nat) as [Hik | Hik].
  - rewrite lookup_app_l by (rewrite length_replicate; lia).
    rewrite lookup_replicate_2 by done.
    rewrite (expand_index_lookup _ _ _ 1%nat) by (done || by apply Hones).
    destruct (lookup_lt_is_Some_2 j (length j - length (shape t) + i)) as [c ->];
      [lia | done].
  - rewrite lookup_app_r by (rewrite length_replicate; lia).
    rewrite length_replicate.
    destruct (shape t !! i) as [n |] eqn:Hn.
    + rewrite (expand_index_lookup (shape t) _ _ n) by done.
      rewrite (expand_index_lookup _ _ _ n);
        [| rewrite length_drop; lia | rewrite lookup_drop, <- Hn; f_equal; lia].
      rewrite length_drop. do 2 f_equal. lia.
    + apply lookup_ge_None in Hn.
      rewrite !(proj2 (lookup_ge_None _ _)); [done | |].
      * rewrite length_expand_index by done. lia.
      * rewrite length_expand_index by (rewrite length_drop; lia).
        rewrite length_drop. lia.
Qed.

End ExpandRead.

Lemma indices_of_shape_total plates value e (m : dict string Z) :
  (∀ name d, (name, d) ∈ m →
     d < Z.of_nat (length (py_slice_to value (Z.of_nat (length value) - e)))) →
  _indices_of_shape plates value (mkKwargs (Some (Some e)) (Some (Some m)))
  = Ok (omap (shape_entry (py_slice_to value (Z.of_nat (length value) - e))) m).
Proof.
  intros Hd. unfold _indices_of_shape.
  cbn [kw_event_dim kw_name_to_dim default from_option id].
  rewrite !res_bind_Ok, for_each_shape_items by done.
  rewrite res_bind_Ok. cbn [app]. by rewrite mk_IndexSet_shape_entries.
Qed.

Section ScatterTotal.

Context {A : Type}.
Variable zero : A.
Variable e : Z.
Variable m : dict string Z.
Variable plates : Plates.

Lemma result_shape_loop_total (ix : IndexSet) (bs : list nat) :
  names_axes m e ix →
  (∀ name, name ∈ keys ix →
     is_Some (dict_get plates name) ∧ is_Some (axis_of m e (length bs) name)) →
  ∃ rs, for_each (result_shape_step plates e m) ix bs = Ok rs.
Proof.
  revert bs. induction ix as [| [name S] ix IH]; intros bs Hwf Hall; [by eexists |].
  apply names_axes_cons in Hwf as (Hwf & (d & Hd & Hneg) & Hother).
  rewrite for_each_cons, (result_shape_step_cases _ _ _ _ _ _ d) by done.
  destruct (Hall name) as [[f ->] [i ->]]; [unfold keys; cbn; left |].
  rewrite res_bind_Ok. apply IH; [done |]. rewrite length_insert.
  intros name' Hin. apply Hall. unfold keys. cbn. by right.
Qed.

Lemma index_loop_total (r : Tensor A) (ix : IndexSet) index :
  names_axes m e ix → length index = ndim r →
  (∀ name, name ∈ keys ix → is_Some (axis_of m e (ndim r) name)) →
  ∃ index', for_each (index_step r e m) ix index = Ok index'.
Proof.
  revert index. induction ix as [| [name S] ix IH]; intros index Hwf Hlen Hall;
    [by eexists |].
  apply names_axes_cons in Hwf as (Hwf & (d & Hd & Hneg) & Hother).
  rewrite for_each_cons, (index_step_cases _ _ _ _ _ _ d) by done.
  destruct (Hall name) as [i ->]; [unfold keys; cbn; left |].
  assert (∀ name', name' ∈ keys ix → is_Some (axis_of m e (ndim r) name')) as Hall'
    by (intros name' Hin; apply Hall; unfold keys; cbn; by right).
  destruct (decide _); rewrite res_bind_Ok; apply IH; try done.
  by rewrite length_insert.
Qed.

Lemma index_put_total (r : Tensor A) index value :
  length index = ndim r →
  (∀ i it, index !! i = Some it →
     it_trailing it = Z.of_nat (ndim r) - 1 - Z.of_nat i) →
  (∀ i it n k, index !! i = Some it → shape r !! i = Some n →
     k ∈ it_vals it → (k < n)%nat) →
  expandable (shape (strip_leading_ones value))
    (length <$> (it_vals <$> index)) = true →
  index_put r index value
  = Ok (mkTensor (shape r)
          (fun pos => match locate (it_vals <$> index) pos with
                      | Some j => expand_read (strip_leading_ones value) j
                      | None => elem r pos
                      end)).
Proof.
  intros Hlen Hlay Hbnd Hexp. unfold index_put.
  rewrite (bool_decide_eq_true_2 _ Hlen). cbn [negb].
  assert (forallb (fun p => it_trailing p.2 =? Z.of_nat (ndim r) - 1 - Z.of_nat p.1)
            (imap (fun i it => (i, it)) index) = true) as ->.
  { apply forallb_forall. intros [i it] Hin%list_elem_of_In%list_elem_of_lookup.
    destruct Hin as [i' Hi']. rewrite list_lookup_imap in Hi'.
    destruct (index !! i') as [it' |] eqn:Hit; [| done]. injection Hi' as <- <-.
    cbn. by apply Z.eqb_eq, Hlay. }
  cbn [negb].
  assert (forallb (fun p => forallb (fun k => k <? p.2)%nat (it_vals p.1))
            (zip index (shape r)) = true) as ->.
  { apply forallb_forall. intros [it n] Hin%list_elem_of_In%list_elem_of_lookup.
    destruct Hin as [i Hi].
    apply lookup_zip_with_Some in Hi as (it' & n' & [= <- <-] & Hit & Hn).
    cbn. apply forallb_forall. intros k Hk%list_elem_of_In.
    apply Nat.ltb_lt. by eapply Hbnd. }
  cbn [negb]. by rewrite Hexp.
Qed.

End ScatterTotal.

Lemma max_list_Z_ge (l : list Z) x : x ∈ l → x ≤ max_list_Z l.
Proof.
  unfold max_list_Z. generalize (default 0 (head l)). intros init.
  induction l as [| y l IH]; [by intros ?%elem_of_nil |].
  cbn. intros [-> | Hin]%elem_of_cons; [lia |]. specialize (IH Hin). lia.
Qed.

(** The names [indices_of] reports for a shape are those whose axis, the one
    gather and scatter reach, is longer than 1. *)
Lemma shape_entries_axis (m : dict string Z) e (sh : list nat) name S :
  (∀ name d, (name, d) ∈ m → d < 0) → 0 ≤ e ≤ Z.of_nat (length sh) →
  NoDup (keys m) →
  (name, S) ∈ omap (shape_entry (py_slice_to sh (Z.of_nat (length sh) - e))) m →
  ∃ d i n, dict_get m name = Some d ∧ axis_of m e (length sh) name = Some i
           ∧ sh !! i = Some n ∧ (1 < n)%nat ∧ S = set_range n.
Proof.
  intros Hneg He Hnd Hin.
  apply list_elem_of_omap in Hin as ([name' d] & Hin & Hentry).
  apply shape_entry_Some in Hentry as (-> & n & Hle & Hn & Hn1 & ->). cbn in *.
  assert (d < 0) as Hd by (by eapply Hneg).
  set (trimmed := py_slice_to sh (Z.of_nat (length sh) - e)) in *.
  assert (trimmed = take (length sh - Z.to_nat e) sh) as Htrim.
  { unfold trimmed, py_slice_to. rewrite (proj2 (Z.ltb_ge _ _)) by lia. f_equal. lia. }
  assert (length trimmed = (length sh - Z.to_nat e)%nat) as Hlen
    by (rewrite Htrim, length_take; lia).
  apply py_getitem_Ok in Hn as (j & Hj & Hjn).
  rewrite norm_axis_neg in Hj by done.
  destruct (- d <=? Z.of_nat (length trimmed)); [| done]. injection Hj as Hj.
  pose proof (lookup_lt_Some _ _ _ Hjn) as Hjlt.
  exists d, j, n.
  split; [by apply dict_get_elem |]. split.
  - apply (axis_of_neg m e _ name' d); [by apply dict_get_elem | lia | lia].
  - split; [| done]. rewrite <- Hjn, Htrim. symmetry. apply lookup_take_lt. lia.
Qed.

Section ScatterGather.

Context {A : Type}.
Variable zero : A.
Variable plates : Plates.
Variable v : Tensor A.
Variable ix : IndexSet.
Variable e : Z.
Variable m : dict string Z.

Hypothesis Hdims : dims_distinct m e.
Hypothesis Hneg : ∀ name d, (name, d) ∈ m → d < 0.
Hypothesis He : 0 ≤ e ≤ Z.of_nat (ndim v).
Hypothesis Hix : NoDup (keys ix).
Hypothesis Hcov : covers_plates plates m ix.
Hypothesis Hshaped : shaped_by_plates plates m e (shape v).

Let ones : nat :=
  Z.to_nat (max_list_Z (((fun nf => e - f_dim nf.2) <$> plates) ++ [0])).
Let bs : list nat := replicate (ones - ndim v) 1%nat ++ shape v.
Let ix_v : IndexSet :=
  omap (shape_entry (py_slice_to (shape v) (Z.of_nat (length (shape v)) - e))) m.

Lemma sg_names_axes : names_axes m e ix.
Proof.
  apply names_axes_dims; [done.. |]. intros name [S Hin]%elem_of_keys.
  destruct (Hcov name S Hin) as (f & _ & Hd & _). apply elem_of_keys.
  eexists. by apply dict_get_Some_elem.
Qed.

Lemma sg_gather_value :
  ∃ value, for_each (gather_step e m) ix v = Ok value
           ∧ shape value = shape v
           ∧ ∀ idx, in_bounds (shape v) idx → elem value idx = elem v idx.
Proof.
  apply gather_full_range; [apply sg_names_axes |].
  intros name S i n Hin Hax Hn Hn1.
  destruct (Hcov name S Hin) as (f & Hf & Hd & _ & ->).
  destruct (Hshaped name (f_dim f) i n Hd Hax Hn) as [-> | (f' & Hf' & ->)]; [done |].
  congruence.
Qed.

Lemma sg_length_bs : length bs = (ndim v `max` ones)%nat.
Proof. unfold bs. rewrite length_app, length_replicate. unfold ndim. lia. Qed.

(** Every name of the merged index set has a plate and asks for every
    position of it. *)
Lemma sg_merged name S :
  (name, S) ∈ union ix ix_v →
  ∃ f d i, dict_get plates name = Some f ∧ dict_get m name = Some d
           ∧ (0 < f_size f)%nat ∧ S = set_range (f_size f)
           ∧ axis_of m e (length bs) name = Some i.
Proof.
  intros [Hne [(S0 & Hin & ->) | [Hnot Hin]]]%elem_of_union_indexset.
  - destruct (Hcov name S0 Hin) as (f & Hf & Hd & Hpos & ->).
    assert (f_dim f - e < 0) as Hdneg.
    { destruct Hdims as (_ & Hlt & _). by eapply Hlt, dict_get_Some_elem. }
    exists f, (f_dim f), (Z.to_nat (Z.of_nat (length bs) + (f_dim f - e))).
    split; [done |]. split; [done |]. split; [done |]. split.
    + destruct (dict_get ix_v name) as [Sv |] eqn:Hget; cbn; [| set_solver].
      apply dict_get_Some_elem, shape_entries_axis in Hget
        as (d & i & n & Hd' & Hax & Hn & Hn1 & ->); [| done | apply He | apply Hdims].
      destruct (Hshaped name d i n Hd' Hax Hn) as [-> | (f' & Hf' & ->)]; [lia |].
      assert (f' = f) as -> by congruence. set_solver.
    + apply (axis_of_neg m e _ name (f_dim f)); [done.. |]. split; [| done].
      rewrite sg_length_bs.
      assert (e - f_dim f ≤ max_list_Z (((fun nf => e - f_dim nf.2) <$> plates) ++ [0])).
      { apply max_list_Z_ge, elem_of_app. left. apply list_elem_of_fmap.
        exists (name, f). split; [done |]. by apply dict_get_Some_elem. }
      unfold ones. lia.
  - apply shape_entries_axis in Hin
      as (d & i & n & Hd & Hax & Hn & Hn1 & ->); [| done | apply He | apply Hdims].
    destruct (Hshaped name d i n Hd Hax Hn) as [-> | (f & Hf & ->)]; [lia |].
    assert (d - e < 0) as Hdneg.
    { destruct Hdims as (_ & Hlt & _). by eapply Hlt, dict_get_Some_elem. }
    exists f, d, (Z.to_nat (Z.of_nat (length bs) + (d - e))).
    split; [done |]. split; [done |]. split; [lia |]. split; [done |].
    pose proof (proj1 (axis_of_neg m e _ name d _ Hd Hdneg) Hax) as [Hle _].
    apply (axis_of_neg m e _ name d); [done.. |]. split; [| done].
    rewrite sg_length_bs. unfold ndim in *. lia.
Qed.


Lemma sg_names_axes_merged : names_axes m e (union ix ix_v).
Proof.
  apply names_axes_merged; [done.. |]. intros name [S Hin]%elem_of_keys.
  destruct (Hcov name S Hin) as (f & _ & Hd & _). apply elem_of_keys.
  eexists. by apply dict_get_Some_elem.
Qed.

(** The shape of the allocated result: the plate's size along the axis of
    every merged name, the value's own length along the others. *)
Lemma sg_result_shape :
  ∃ rs, for_each (result_shape_step plates e m) (union ix ix_v) bs = Ok rs
        ∧ length rs = length bs
        ∧ (∀ name S i, (name, S) ∈ union ix ix_v →
             axis_of m e (length bs) name = Some i → rs !! i = Some (size S))
        ∧ (∀ j n, shape v !! j = Some n →
             n = 1%nat ∨ rs !! (length rs - ndim v + j)%nat = Some n).
Proof.
  destruct (result_shape_loop_total e m plates (union ix ix_v) bs) as [rs Hrs];
    [apply sg_names_axes_merged | |].
  { intros name [S Hin]%elem_of_keys.
    destruct (sg_merged name S Hin) as (f & d & i & -> & _ & _ & _ & ->). eauto. }
  destruct (result_shape_loop_spec e m plates _ _ _ sg_names_axes_merged Hrs)
    as (Hlen & Hnamed & Hother).
  assert (∀ name S i, (name, S) ∈ union ix ix_v →
            axis_of m e (length bs) name = Some i → rs !! i = Some (size S)) as Hsize.
  { intros name S i Hin Hax.
    destruct (sg_merged name S Hin) as (f & d & i' & Hf & _ & _ & -> & _).
    destruct (Hnamed name) as (i'' & f' & Hax' & Hf' & Hi''); [apply elem_of_keys; eauto |].
    rewrite size_set_range. congruence. }
  exists rs. split; [done |]. split; [done |]. split; [done |].
  intros j n Hn. rewrite Hlen.
  pose proof (lookup_lt_Some _ _ _ Hn) as Hj.
  assert (length bs - ndim v = ones - ndim v)%nat as Hoff
    by (rewrite sg_length_bs; lia).
  assert (bs !! (length bs - ndim v + j)%nat = Some n) as Hbs.
  { unfold bs at 2. rewrite lookup_app_r by (rewrite length_replicate; lia).
    rewrite length_replicate, <- Hn. f_equal. lia. }
  destruct (decide (Exists (fun kv => axis_of m e (length bs) kv.1
                                      = Some (length bs - ndim v + j)%nat)
                      (union ix ix_v))) as [Hex | Hno].
  - apply Exists_exists in Hex as ([name S] & Hin & Hax). cbn in Hax.
    destruct (sg_merged name S Hin) as (f & d & i' & Hf & Hd & _ & -> & _).
    rewrite (Hsize _ _ _ Hin Hax), size_set_range.
    assert (d - e < 0) as Hdneg.
    { destruct Hdims as (_ & Hlt & _). by eapply Hlt, dict_get_Some_elem. }
    assert (axis_of m e (length (shape v)) name = Some j) as Haxv.
    { pose proof (proj1 (axis_of_neg m e _ name d _ Hd Hdneg) Hax) as [Hle Heq].
      pose proof sg_length_bs as Hlbs.
      apply (axis_of_neg m e _ name d); [done.. |]. unfold ndim in *. lia. }
    destruct (Hshaped name d j n Hd Haxv Hn) as [-> | (f' & Hf' & ->)]; [by left |].
    right. congruence.
  - right. rewrite Hother; [done |]. intros name [S Hin]%elem_of_keys Hax.
    apply Hno, Exists_exists. by exists (name, S).
Qed.

Lemma sg_index (rs : list nat) :
  length rs = length bs →
  (∀ name S i, (name, S) ∈ union ix ix_v →
     axis_of m e (length bs) name = Some i → rs !! i = Some (size S)) →
  ∃ index,
    for_each (index_step (new_zeros zero rs) e m) (union ix ix_v)
      ((fun i => arange_reshaped (default 0%nat (rs !! i))
                   (Z.of_nat (length rs) - 1 - Z.of_nat i)) <$> seq 0 (length rs))
    = Ok index
    ∧ length index = length rs
    ∧ ∀ i n, rs !! i = Some n →
        index !! i = Some (mkIndexTensor (seq 0 n)
                             (Z.of_nat (length rs) - 1 - Z.of_nat i)).
Proof.
  intros Hlen Hsize.
  set (r0 := new_zeros zero rs).
  set (index0 := (fun i => arange_reshaped (default 0%nat (rs !! i))
                     (Z.of_nat (length rs) - 1 - Z.of_nat i)) <$> seq 0 (length rs)).
  assert (length index0 = ndim r0) as Hlen0
    by (unfold index0; by rewrite length_fmap, length_seq).
  destruct (index_loop_total e m r0 (union ix ix_v) index0) as [index Hindex];
    [apply sg_names_axes_merged | done | |].
  { intros name [S Hin]%elem_of_keys.
    destruct (sg_merged name S Hin) as (f & d & i & _ & _ & _ & _ & Hax).
    unfold ndim, r0. cbn. rewrite Hlen. eauto. }
  exists index. split; [done |].
  destruct (index_loop_spec e m r0 _ _ _ sg_names_axes_merged Hlen0 Hindex)
    as (Hilen & _ & _ & _).
  split; [done |]. intros i n Hn.
  destruct (index_loop_entry e m r0 _ _ _ i sg_names_axes_merged Hlen0 Hindex)
    as [(name & S & n' & Hin & Hax & Hn' & Hn1 & ->) | [_ ->]].
  - unfold ndim, r0 in *. cbn in *. rewrite Hlen in Hax.
    rewrite (Hsize name S i Hin Hax) in Hn. injection Hn as <-.
    destruct (sg_merged name S Hin) as (f & d & i' & _ & _ & _ & -> & _).
    by rewrite sorted_set_range, size_set_range.
  - unfold index0. rewrite list_lookup_fmap, lookup_seq_lt
      by (by eapply lookup_lt_Some). cbn. by rewrite Hn.
Qed.

(** scatter of [v] with [result=None]: it raises nothing, and the tensor it
    returns reads as [v] expanded to its shape. *)
Lemma sg_scatter :
  ∃ s, _scatter_tensor zero plates v ix None (Some e) (Some m) = Ok s
       ∧ (ndim v ≤ ndim s)%nat
       ∧ (∀ j n, shape v !! j = Some n →
            n = 1%nat ∨ shape s !! (ndim s - ndim v + j)%nat = Some n)
       ∧ (∀ name S i, (name, S) ∈ ix → axis_of m e (ndim s) name = Some i →
            shape s !! i = Some (size S))
       ∧ (∀ pos, in_bounds (shape s) pos → elem s pos = expand_read v pos).
Proof.
  destruct sg_gather_value as (value & Hval & Hvshape & Hvelem).
  destruct sg_result_shape as (rs & Hrs & Hlen & Hsize & Hexp).
  destruct (sg_index rs Hlen Hsize) as (index & Hindex & Hilen & Hentry).
  assert (it_vals <$> index = seq 0 <$> rs) as Hvals.
  { apply list_eq. intros i. rewrite !list_lookup_fmap.
    destruct (rs !! i) as [n |] eqn:Hn; [by rewrite (Hentry i n Hn) |].
    apply lookup_ge_None in Hn. rewrite (proj2 (lookup_ge_None _ _)); [done | lia]. }
  assert (length <$> (it_vals <$> index) = rs) as Hlens.
  { rewrite Hvals, <- list_fmap_compose. rewrite <- (list_fmap_id rs) at 2.
    apply list_fmap_ext. intros i n _. cbn. apply length_seq. }
  assert (ndim v ≤ length rs)%nat as Hnv by (rewrite Hlen, sg_length_bs; lia).
  eexists. split.
  - unfold _scatter_tensor. cbn [default from_option id].
    unfold _gather_tensor at 1. cbn [default from_option id]. rewrite Hval, res_bind_Ok.
    cbn [indices_of]. rewrite Hvshape, indices_of_shape_total.
    2:{ intros name d Hin. specialize (Hneg name d Hin). lia. }
    rewrite res_bind_Ok. fold ix_v.
    rewrite broadcast_shapes_ones. fold ones. rewrite res_bind_Ok.
    change (replicate (ones - length (shape v)) 1%nat ++ shape v) with bs.
    rewrite Hrs, !res_bind_Ok. cbn [new_zeros shape ndim].
    unfold ndim at 1 2. cbn [new_zeros shape]. rewrite Hindex, res_bind_Ok.
    apply index_put_total.
    + done.
    + intros i it Hit. destruct (lookup_lt_is_Some_2 rs i) as [n Hn];
        [rewrite <- Hilen; by eapply lookup_lt_Some |].
      rewrite (Hentry i n Hn) in Hit. by injection Hit as <-.
    + intros i it n k Hit Hn Hk. cbn in Hn. rewrite (Hentry i n Hn) in Hit.
      injection Hit as <-. cbn in Hk. apply elem_of_seq in Hk. lia.
    + rewrite Hlens. cbn [strip_leading_ones shape].
      destruct (strip_ones_drop (shape value)) as (k & -> & Hklen & Hones).
      rewrite Hvshape in *. apply expandable_intro.
      * rewrite length_drop. unfold ndim in *. lia.
      * intros j n Hj. rewrite lookup_drop in Hj. rewrite length_drop.
        destruct (Hexp _ _ Hj) as [-> | Hr]; [by left |]. right.
        rewrite <- Hr. f_equal. pose proof (lookup_lt_Some _ _ _ Hj).
        unfold ndim in *. lia.
  - unfold ndim in *. cbn [shape elem new_zeros].
    split; [done |]. split; [done |]. split.
    + intros name S i Hin Hax. rewrite Hlen in Hax. apply (Hsize name S i); [| done].
      destruct (Hcov name S Hin) as (f & Hf & Hd & Hpos & ->).
      apply elem_of_union_indexset.
      assert (set_range (f_size f) ≠ ∅) as Hne.
      { intros Hempty. assert (0%nat ∈ set_range (f_size f)) as H0
          by (by apply elem_of_set_range).
        rewrite Hempty in H0. by apply not_elem_of_empty in H0. }
      split; [done |]. left. exists (set_range (f_size f)). split; [done |].
      destruct (dict_get ix_v name) as [Sv |] eqn:Hget; cbn; [| set_solver].
      apply dict_get_Some_elem, shape_entries_axis in Hget
        as (d & i' & n & Hd' & Hax' & Hn & Hn1 & ->); [| done | apply He | apply Hdims].
      destruct (Hshaped name d i' n Hd' Hax' Hn) as [-> | (f' & Hf' & ->)]; [lia |].
      assert (f' = f) as -> by congruence. set_solver.
    + intros pos Hb. rewrite Hvals, (locate_seq rs pos Hb).
      pose proof (Forall2_length _ _ _ Hb) as Hposlen.
      rewrite expand_read_strip by (unfold ndim; rewrite Hvshape; unfold ndim in *; lia).
      rewrite !expand_read_eq, Hvshape. apply Hvelem.
      apply Forall2_same_length_lookup. split.
      * apply length_expand_index. unfold ndim in *. lia.
      * intros j c n Hc Hn.
        rewrite (expand_index_lookup _ _ _ n) in Hc by (done || unfold ndim in *; lia).
        destruct (pos !! (length pos - length (shape v) + j)%nat) as [c' |] eqn:Hc';
          [| done]. injection Hc as <-.
        destruct (n =? 1)%nat eqn:Hn1; [apply Nat.eqb_eq in Hn1; lia |].
        apply Nat.eqb_neq in Hn1.
        destruct (Hexp j n Hn) as [-> | Hr]; [done |].
        eapply (in_bounds_lookup rs pos); [done | | exact Hr].
        rewrite <- Hc'. f_equal. unfold ndim. lia.
Qed.

End ScatterGather.

(** C1: for a registry of negative, distinct dims, an [event_dim] that
    counts trailing axes of [v], a tensor [v] whose named axes have length 1
    or the registered size of their plate, and an index set [I] that asks,
    for each of its names, for every position of the name's plate:
    [scatter(v, I)] and then [gather(., I)], with the same [event_dim] and
    [name_to_dim], raise nothing and return a tensor equal to [v] element by
    element (as [==] compares: [v] expanded to the shape of the result, which
    has the full size along the axes of [I] and an axis for every plate). *)
Theorem gather_scatter_inverse {A} (zero : A) (plates : Plates) (v : Tensor A)
    (ix : IndexSet) (event_dim : option Z) (name_to_dim : option (dict string Z)) :
  let e := default 0 event_dim in
  let m := default (plate_dims plates) name_to_dim in
  dims_distinct m e → (∀ name d, (name, d) ∈ m → d < 0) →
  0 ≤ e ≤ Z.of_nat (ndim v) → NoDup (keys ix) →
  covers_plates plates m ix → shaped_by_plates plates m e (shape v) →
  ∃ s r, _scatter_tensor zero plates v ix None event_dim name_to_dim = Ok s
         ∧ _gather_tensor plates s ix event_dim name_to_dim = Ok r
         ∧ tensor_eq_broadcast r v.
Proof.
  intros e m Hdims Hneg He Hix Hcov Hshaped.
  destruct (sg_scatter zero plates v ix e m Hdims Hneg He Hix Hcov Hshaped)
    as (s & Hs & Hnd & Hexp & Hfull & Helem).
  destruct (gather_full_range e m ix s) as (r & Hr & Hshape & Hrelem).
  { by apply sg_names_axes with plates. }
  { intros name S i n Hin Hax Hn Hn1.
    rewrite (Hfull name S i Hin Hax) in Hn. injection Hn as <-.
    destruct (Hcov name S Hin) as (f & _ & _ & _ & ->).
    by rewrite size_set_range. }
  exists s, r. split; [exact Hs |]. split; [exact Hr |].
  exists (shape r). split.
  - apply broadcast_shapes_expandable, expandable_intro; rewrite Hshape.
    + exact Hnd.
    + exact Hexp.
  - intros pos Hb. rewrite expand_read_eq, (expand_index_in_bounds _ _ Hb).
    rewrite Hshape in Hb. by rewrite Hrelem, Helem.
Qed.

Lemma gather_scatter_inverse_witness :
  let plates : Plates := [("a", mkFrame "a" (-1) 3 0)] in
  let v : Tensor Z := mkTensor [2; 3]%nat (fun idx => Z.of_nat (sum_list idx)) in
  let ix : IndexSet := [("a", set_range 3)] in
  dims_distinct (plate_dims plates) 0
  ∧ (∀ name d, (name, d) ∈ plate_dims plates → d < 0)
  ∧ 0 ≤ 0 ≤ Z.of_nat (ndim v)
  ∧ NoDup (keys ix)
  ∧ covers_plates plates (plate_dims plates) ix
  ∧ shaped_by_plates plates (plate_dims plates) 0 (shape v)
  ∧ ∃ s r, _scatter_tensor 0 plates v ix None None None = Ok s
           ∧ _gather_tensor plates s ix None None = Ok r
           ∧ tensor_eq_broadcast r v.
Proof.
  cbn zeta.
  set (plates := [("a", mkFrame "a" (-1) 3 0)] : Plates).
  set (v := mkTensor [2; 3]%nat (fun idx => Z.of_nat (sum_list idx)) : Tensor Z).
  set (ix := [("a", set_range 3)] : IndexSet).
  assert (dims_distinct (plate_dims plates) 0) as H1.
  { split; [apply NoDup_singleton |]. split.
    - intros name d [= -> ->]%list_elem_of_singleton. lia.
    - by intros name1 name2 d [= -> ->]%list_elem_of_singleton
        [= ->]%list_elem_of_singleton. }
  assert (∀ name d, (name, d) ∈ plate_dims plates → d < 0) as H2.
  { intros name d [= -> ->]%list_elem_of_singleton. lia. }
  assert (0 ≤ 0 ≤ Z.of_nat (ndim v)) as H3 by (cbn; lia).
  assert (NoDup (keys ix)) as H4 by apply NoDup_singleton.
  assert (covers_plates plates (plate_dims plates) ix) as H5.
  { intros name S [= -> ->]%list_elem_of_singleton.
    exists (mkFrame "a" (-1) 3 0). cbn. repeat split; [reflexivity.. | lia]. }
  assert (shaped_by_plates plates (plate_dims plates) 0 (shape v)) as H6.
  { intros name d i n Hd Hax Hn. unfold axis_of in Hax. rewrite Hd in Hax.
    cbn in Hd. destruct (decide ("a" = name)) as [<- |]; [| done].
    injection Hd as <-. cbn in Hax. injection Hax as <-. injection Hn as <-.
    right. by exists (mkFrame "a" (-1) 3 0). }
  do 6 (split; [done |]).
  exact (gather_scatter_inverse 0 plates v ix None None H1 H2 H3 H4 H5 H6).
Defined.

(** A run on an instance, and one where [v] has length 1 along the named
    axis: the result then has the plate's 3 positions, each holding what [v]
    holds at its one position. *)
Example gather_scatter_inverse_run :
  let plates : Plates := [("a", mkFrame "a" (-1) 3 0)] in
  let ix : IndexSet := [("a", set_range 3)] in
  let all := [[0; 0]; [0; 1]; [0; 2]; [1; 0]; [1; 1]; [1; 2]]%nat in
  let round v := s ← _scatter_tensor 0 plates v ix None None None ;
                 r ← _gather_tensor plates s ix None None ;
                 Ok (shape r, elem r <$> all) in
  round (mkTensor [2; 3]%nat (fun idx => Z.of_nat (sum_list idx)))
  = Ok ([2; 3]%nat, [0; 1; 2; 1; 2; 3])
  ∧ round (mkTensor [2; 1]%nat (fun idx => Z.of_nat (sum_list idx)))
    = Ok ([2; 3]%nat, [0; 0; 0; 1; 1; 1]).
Proof. vm_compute. done. Qed.

(** ** gather on the empty index set *)

(** C10: gathering with the empty IndexSet returns the tensor it was given,
    for every event_dim and name_to_dim (given or taken from the registry),
    and raises nothing. *)
Theorem gather_empty_indexset {A} (plates : Plates) (v : Tensor A)
    (event_dim : option Z) (name_to_dim : option (dict string Z)) :
  _gather_tensor plates v [] event_dim name_to_dim = Ok v.
Proof. reflexivity. Qed.

(** ** indices_of on numbers and booleans *)

(** C4, as the code has it: [indices_of] of a number or a boolean returns
    the empty IndexSet whatever keyword arguments it is given, an
    [event_dim] other than 0 and [None] included; it raises nothing. *)
Theorem indices_of_number_any_kwargs {A} (plates : Plates) (x : A) (kw : Kwargs) :
  indices_of plates (VNumber x) kw = Ok []
  ∧ indices_of plates (VBool x) kw = Ok [].
Proof. split; reflexivity. Qed.

(** C4 as stated fails: with [event_dim = 2] the call on the number 7 (and on
    a boolean) returns the empty IndexSet instead of failing. *)
Lemma indices_of_number_event_dim_2_returns :
  let kw := mkKwargs (Some (Some 2)) None in
  kw_event_dim kw ≠ None ∧ kw_event_dim kw ≠ Some None
  ∧ kw_event_dim kw ≠ Some (Some 0)
  ∧ indices_of [] (VNumber 7%Z) kw = Ok []
  ∧ indices_of [] (VBool 1%Z) kw = Ok []
  ∧ ¬ (∃ e, indices_of [] (VNumber 7%Z) kw = Raise e).
Proof.
  cbn. repeat split; try discriminate.
  intros [e He]. discriminate He.
Qed.

(** ** scatter of a partitioned value: failed preconditions *)

Section StoreProps.

Context {A : Type} (zero : A) {World : Type}.
Variable get_index_plates : World → Plates.
Variable add_indices_handlers : IndexSet → World → World.

(** C5: when the mapping is empty or one of its keys is not an IndexSet,
    [_scatter_dict] raises an assertion error and the store is the one it
    was called in: the registry, every tensor (the accumulator passed as
    [result] among them) and the record of handled effects are unchanged,
    so neither [add_indices] nor the scatter of a partition took place. *)
Theorem scatter_dict_precondition_fails_fast
    (partitioned_values : dict pykey (pyval A)) (result : option loc)
    (event_dim : option Z) (name_to_dim : option (dict string Z))
    (σ : Store (A:=A) (World:=World)) :
  partitioned_values = []
    ∨ (∃ k, k ∈ keys partitioned_values ∧ isinstance_IndexSet k = false) →
  _scatter_dict zero get_index_plates add_indices_handlers
    partitioned_values result event_dim name_to_dim σ
  = (Raise AssertionError, σ).
Proof.
  intros [-> | (k & Hk & Hno)]; [reflexivity |].
  unfold _scatter_dict.
  destruct partitioned_values as [| kv rest]; [reflexivity |].
  change (negb (0 <? length (kv :: rest))%nat) with false. cbn match.
  assert (forallb isinstance_IndexSet (keys (kv :: rest)) = false) as ->;
    [| reflexivity].
  apply not_true_is_false. intros Hall.
  rewrite forallb_forall in Hall.
  apply list_elem_of_In, Hall in Hk. congruence.
Qed.

End StoreProps.

Lemma scatter_dict_precondition_fails_fast_witness :
  let pv : dict pykey (pyval Z) := [(KOther "treated", VNumber 1)] in
  let σ : Store (A:=Z) (World:=Plates) := mkStore ∅ [] [] in
  (pv = [] ∨ (∃ k, k ∈ keys pv ∧ isinstance_IndexSet k = false))
  ∧ _scatter_dict 0 id (fun _ w => w) pv None None None σ
    = (Raise AssertionError, σ).
Proof.
  cbn zeta.
  assert ((([(KOther "treated", VNumber 1)] : dict pykey (pyval Z)) = [])
          ∨ (∃ k, k ∈ keys ([(KOther "treated", VNumber 1)] : dict pykey (pyval Z))
                  ∧ isinstance_IndexSet k = false)) as H.
  { right. exists (KOther "treated"). split; [left | reflexivity]. }
  split; [exact H |].
  exact (scatter_dict_precondition_fails_fast 0 id (fun _ w => w) _ None None None
           (mkStore ∅ [] []) H).
Defined.

(** ** The interruption event loop *)

Section LoopProps.

Import EventLoop.

Context {Dynamics State Time Solver : Type}.
Variable lt_time : Time → Time → bool.
Variable get_solver : list Messenger → Solver.
Variable get_next_interruptions :
  list Messenger → Solver → Dynamics → State → Time → Time → list Messenger * Time.
Variable simulate_to_interruption :
  list Messenger → Solver → Dynamics → State → Time → Time → State.
Variable apply_interruptions :
  list Messenger → Dynamics → State → Dynamics * State.

Local Abbreviation iteration :=
  (iteration get_next_interruptions simulate_to_interruption apply_interruptions).
Local Abbreviation simulate_loop :=
  (simulate_loop lt_time get_next_interruptions simulate_to_interruption
     apply_interruptions).
Local Abbreviation _pyro_simulate :=
  (_pyro_simulate lt_time get_solver get_next_interruptions
     simulate_to_interruption apply_interruptions).

(** What one iteration records, read off the body of the loop. *)
Lemma iteration_record stack self solver end_time l it l' :
  iteration stack self solver end_time l = (it, l') →
  let visible := block_messengers (used_pred self (l_used l)) stack in
  let found := get_next_interruptions visible solver (l_dynamics l) (l_state l)
                 (l_start_time l) end_time in
  let integrated := simulate_to_interruption visible solver (l_dynamics l)
                      (l_state l) (l_start_time l) found.2 in
  let live := block_messengers (not_terminal_pred found.1) stack in
  it = mkIteration (l_start_time l) found.2 visible found.1
         (l_used l ∪ list_to_set (m_id <$> found.1)) live
  ∧ l' = mkLoopState (apply_interruptions live (l_dynamics l) integrated).1
           (apply_interruptions live (l_dynamics l) integrated).2
           found.2 (l_used l ∪ list_to_set (m_id <$> found.1)).
Proof.
  unfold EventLoop.iteration. cbn zeta.
  destruct (get_next_interruptions _ _ _ _ _ _) as [terminal t] eqn:Hnext.
  destruct (apply_interruptions _ _ _) as [d s] eqn:Happ.
  intros [= <- <-]. done.
Qed.

Lemma simulate_loop_unfold fuel stack self solver end_time l :
  simulate_loop (S fuel) stack self solver end_time l
  = if lt_time (l_start_time l) end_time
    then
      let p := iteration stack self solver end_time l in
      let q := simulate_loop fuel stack self solver end_time p.2 in
      (p.1 :: q.1, q.2)
    else ([], Some l).
Proof.
  cbn [EventLoop.simulate_loop].
  destruct (lt_time _ _); [| done].
  destruct (iteration _ _ _ _ _) as [it l']. cbn [fst snd].
  by destruct (simulate_loop _ _ _ _ _ _).
Qed.

Lemma elem_of_block_messengers predicate stack m :
  m ∈ block_messengers predicate stack ↔ predicate m = false ∧ m ∈ stack.
Proof. unfold block_messengers. by rewrite list_elem_of_filter. Qed.

(** An interruption whose [used] attribute is set is on the stack of no
    later discovery and integration phase. *)
Lemma used_never_visible fuel stack self solver end_time l it m :
  it ∈ (simulate_loop fuel stack self solver end_time l).1 →
  m ∈ it_discovery it → is_interruption m = true → m_id m ∉ l_used l.
Proof.
  revert l. induction fuel as [| fuel IH]; intros l.
  - cbn. by intros ?%elem_of_nil.
  - rewrite simulate_loop_unfold.
    destruct (lt_time _ _); [| by intros ?%elem_of_nil].
    destruct (iteration stack self solver end_time l) as [it0 l'] eqn:Hit.
    apply iteration_record in Hit as [-> ->]. cbn [fst snd].
    intros [-> | Hin]%elem_of_cons Hm Hi.
    + cbn in Hm. apply elem_of_block_messengers in Hm as [Hp _].
      unfold used_pred in Hp. rewrite Hi in Hp.
      apply orb_false_iff in Hp as [_ Hp]. cbn in Hp.
      by apply bool_decide_eq_false in Hp.
    + specialize (IH _ Hin Hm Hi). cbn in IH. set_solver.
Qed.

(** The properties of the iterations of the loop, for the loop started in
    any state. *)
Lemma simulate_loop_single_fire fuel stack self solver end_time l :
  (∀ visible solver d s t0 t1 h,
     h ∈ (get_next_interruptions visible solver d s t0 t1).1 →
     h ∈ stack → h ∈ visible) →
  let its := (simulate_loop fuel stack self solver end_time l).1 in
  (∀ i j it_i it_j h,
     its !! i = Some it_i → its !! j = Some it_j → (i < j)%nat →
     h ∈ it_terminal it_i → is_interruption h = true →
     m_id h ∈ it_used it_i ∧ h ∉ it_discovery it_j)
  ∧ (∀ it h, it ∈ its → h ∈ it_effect it → is_interruption h = true →
       h ∈ it_terminal it ∧ h ∈ it_discovery it).
Proof.
  intros contract. revert l. induction fuel as [| fuel IH]; intros l.
  - cbn. split; [by intros ????? [=] | by intros ?? ?%elem_of_nil].
  - cbn zeta. rewrite simulate_loop_unfold.
    destruct (lt_time _ _);
      [| split; [by intros ????? [=] | by intros ?? ?%elem_of_nil]].
    destruct (iteration stack self solver end_time l) as [it0 l'] eqn:Hit.
    apply iteration_record in Hit as [Hit0 Hl']. cbn [fst snd].
    specialize (IH l') as [IHa IHb]. split.
    + intros i j it_i it_j h Hi Hj Hlt Hterm Hint.
      destruct j as [| j]; [lia |]. cbn in Hj.
      destruct i as [| i].
      * injection Hi as <-.
        assert (m_id h ∈ it_used it0) as Hused.
        { rewrite Hit0. cbn. apply elem_of_union_r, elem_of_list_to_set.
          apply list_elem_of_fmap. exists h. split; [done |].
          by rewrite Hit0 in Hterm. }
        split; [done |]. intros Hvis.
        eapply used_never_visible; [| exact Hvis | exact Hint |].
        { eapply list_elem_of_lookup_2, Hj. }
        by rewrite Hl', Hit0 in *.
      * cbn in Hi. eapply IHa; eauto. lia.
    + intros it h [-> | Hin]%elem_of_cons Heff Hint; [| by eapply IHb].
      rewrite Hit0 in Heff |- *. cbn in Heff |- *.
      apply elem_of_block_messengers in Heff as [Hp Hstack].
      unfold not_terminal_pred in Hp. rewrite Hint in Hp. cbn in Hp.
      apply negb_false_iff, bool_decide_eq_true in Hp.
      split; [done |]. by eapply contract.
Qed.

(** C8: in a run of the event loop (of any length, finished or not) whose
    interruption discovery only returns handlers of the stack it runs under,
    an interruption returned as terminal is marked used in that iteration and
    is on the stack of no later discovery and integration phase; the only
    interruptions on the stack of an effect phase are those the iteration's
    discovery returned; and no interruption is on the stack of the effect
    phase of two different iterations. *)
Theorem event_loop_single_fire fuel stack self used args solver_kwarg :
  (∀ visible solver d s t0 t1 h,
     h ∈ (get_next_interruptions visible solver d s t0 t1).1 →
     h ∈ stack → h ∈ visible) →
  let its := (_pyro_simulate fuel stack self used args solver_kwarg).1 in
  (∀ i j it_i it_j h,
     its !! i = Some it_i → its !! j = Some it_j → (i < j)%nat →
     h ∈ it_terminal it_i → is_interruption h = true →
     m_id h ∈ it_used it_i ∧ h ∉ it_discovery it_j)
  ∧ (∀ it h, it ∈ its → h ∈ it_effect it → is_interruption h = true →
       h ∈ it_terminal it)
  ∧ (∀ i j it_i it_j h,
       its !! i = Some it_i → its !! j = Some it_j → i ≠ j →
       is_interruption h = true → h ∈ it_effect it_i → h ∉ it_effect it_j).
Proof.
  intros contract. destruct args as [[[dynamics state] start_time] end_time].
  unfold EventLoop._pyro_simulate. cbn zeta.
  set (solver := match solver_kwarg with Some s => s | None => get_solver stack end).
  pose proof (simulate_loop_single_fire fuel stack self solver end_time
                (mkLoopState dynamics state start_time used) contract) as H.
  destruct (simulate_loop _ _ _ _ _ _) as [its final]. cbn [fst] in *.
  destruct H as [Ha Hb]. split; [exact Ha |]. split.
  { intros it h Hin Heff Hint. by apply (Hb it h). }
  assert (∀ i j it_i it_j h, its !! i = Some it_i → its !! j = Some it_j →
            (i < j)%nat → is_interruption h = true →
            h ∈ it_effect it_i → h ∈ it_effect it_j → False) as Hlt.
  { intros i j it_i it_j h Hi Hj Hij Hint Hei Hej.
    destruct (Hb it_i h) as [Hti _]; [by eapply list_elem_of_lookup_2 | done..|].
    destruct (Hb it_j h) as [_ Hdj]; [by eapply list_elem_of_lookup_2 | done..|].
    by destruct (Ha i j it_i it_j h Hi Hj Hij Hti Hint) as [_ []]. }
  intros i j it_i it_j h Hi Hj Hne Hint Hei Hej.
  destruct (Nat.lt_trichotomy i j) as [? | [? | ?]]; [| done |];
    eauto using Hlt.
Qed.

(** C9: when [start_time < end_time] and the discovery phase always reports
    [end_time] as the time of the next interruption, the loop makes one
    iteration, which integrates from [start_time] to [end_time], and then
    ends because [end_time < end_time] is false; the value of the simulation
    is the integrated state after the effect phase of that iteration. *)
Theorem event_loop_one_iteration fuel stack self used dynamics state
    start_time end_time solver_kwarg :
  lt_time start_time end_time = true →
  lt_time end_time end_time = false →
  (∀ visible solver d s t0,
     (get_next_interruptions visible solver d s t0 end_time).2 = end_time) →
  let solver := match solver_kwarg with
                | Some solver => solver
                | None => get_solver stack
                end in
  let visible := block_messengers (used_pred self used) stack in
  let terminal :=
    (get_next_interruptions visible solver dynamics state start_time end_time).1 in
  let integrated :=
    simulate_to_interruption visible solver dynamics state start_time end_time in
  let used' := used ∪ list_to_set (m_id <$> terminal) in
  let live := block_messengers (not_terminal_pred terminal) stack in
  _pyro_simulate (S (S fuel)) stack self used
    (dynamics, state, start_time, end_time) solver_kwarg
  = ([mkIteration start_time end_time visible terminal used' live],
     Some ((apply_interruptions live dynamics integrated).2, used')).
Proof.
  intros Hlt Hirr Hend. cbn zeta.
  unfold EventLoop._pyro_simulate.
  set (solver := match solver_kwarg with Some s => s | None => get_solver stack end).
  rewrite simulate_loop_unfold. cbn [l_start_time]. rewrite Hlt.
  destruct (iteration stack self solver end_time
              (mkLoopState dynamics state start_time used)) as [it l'] eqn:Hit.
  apply iteration_record in Hit as [-> ->]. cbn [l_dynamics l_state l_start_time l_used].
  cbn zeta. cbn [fst snd]. rewrite simulate_loop_unfold. cbn [l_start_time].
  rewrite !Hend, Hirr. reflexivity.
Qed.

(** *** The phases of an iteration and the course of a run *)

(** The stacks of the two phases of an iteration. *)
Lemma iteration_stacks stack self solver end_time l it l' :
  iteration stack self solver end_time l = (it, l') →
  it_discovery it = block_messengers (used_pred self (l_used l)) stack
  ∧ it_effect it = block_messengers (not_terminal_pred (it_terminal it)) stack
  ∧ it_from it = l_start_time l
  ∧ it_used it = l_used l ∪ list_to_set (m_id <$> it_terminal it)
  ∧ l_start_time l' = it_to it ∧ l_used l' = it_used it.
Proof. intros [-> ->]%iteration_record. done. Qed.

Lemma simulate_loop_iterations fuel stack self solver end_time l it :
  it ∈ (simulate_loop fuel stack self solver end_time l).1 →
  ∃ l0 l1, iteration stack self solver end_time l0 = (it, l1)
           ∧ lt_time (l_start_time l0) end_time = true.
Proof.
  revert l. induction fuel as [| fuel IH]; intros l.
  - cbn. by intros ?%elem_of_nil.
  - rewrite simulate_loop_unfold.
    destruct (lt_time _ _) eqn:Hlt; [| by intros ?%elem_of_nil].
    cbn [fst snd]. intros [-> | Hin]%elem_of_cons; [| by eapply IH].
    exists l, (iteration stack self solver end_time l).2.
    split; [by destruct (iteration _ _ _ _ _) | done].
Qed.

(** X1: In every iteration the event loop itself is off the stack of the
    discovery and integration phase; that stack and the stack of the effect
    phase are the handler stack with some handlers left out, in its order;
    a handler that is no interruption is on the stack of the effect phase,
    and, unless it is the loop itself, on that of the discovery phase; and a
    terminal interruption of the stack is on the stack of the effect
    phase. *)
Theorem event_loop_phase_stacks fuel stack self used args solver_kwarg it :
  it ∈ (_pyro_simulate fuel stack self used args solver_kwarg).1 →
  (self ∉ it_discovery it)
  ∧ (it_discovery it `sublist_of` stack)
  ∧ (it_effect it `sublist_of` stack)
  ∧ (∀ m, m ∈ stack → is_interruption m = false → m ≠ self → m ∈ it_discovery it)
  ∧ (∀ m, m ∈ stack → is_interruption m = false → m ∈ it_effect it)
  ∧ (∀ m, m ∈ stack → m ∈ it_terminal it → m ∈ it_effect it).
Proof.
  destruct args as [[[dynamics state] start_time] end_time].
  unfold EventLoop._pyro_simulate. cbn zeta.
  set (solver := match solver_kwarg with Some s => s | None => get_solver stack end).
  destruct (simulate_loop _ _ _ _ _ _) as [its final] eqn:Hrun. cbn [fst].
  intros Hin. replace its with (simulate_loop fuel stack self solver end_time
    (mkLoopState dynamics state start_time used)).1 in Hin by (by rewrite Hrun).
  apply simulate_loop_iterations in Hin as (l0 & l1 & Hit & _).
  apply iteration_stacks in Hit as (Hd & He & _).
  rewrite Hd, He. split; [| split; [| split; [| split; [| split]]]].
  - intros [Hp _]%elem_of_block_messengers. unfold used_pred in Hp.
    by rewrite bool_decide_eq_true_2 in Hp.
  - apply sublist_filter.
  - apply sublist_filter.
  - intros m Hm Hi Hne. apply elem_of_block_messengers. split; [| done].
    unfold used_pred. rewrite Hi, bool_decide_eq_false_2 by done. done.
  - intros m Hm Hi. apply elem_of_block_messengers. split; [| done].
    unfold not_terminal_pred. by rewrite Hi.
  - intros m Hm Ht. apply elem_of_block_messengers. split; [| done].
    unfold not_terminal_pred. rewrite (bool_decide_eq_true_2 _ Ht).
    by destruct (is_interruption m).
Qed.

(** X2: An empty time span: when [start_time < end_time] is false at the call,
    the loop makes no iteration; the value of the simulation is the state
    that was passed and no [used] attribute is set. *)
Theorem event_loop_empty_span fuel stack self used dynamics state start_time
    end_time solver_kwarg :
  lt_time start_time end_time = false →
  _pyro_simulate (S fuel) stack self used (dynamics, state, start_time, end_time)
    solver_kwarg
  = ([], Some (state, used)).
Proof.
  intros Hlt. unfold EventLoop._pyro_simulate.
  rewrite simulate_loop_unfold. cbn [l_start_time]. by rewrite Hlt.
Qed.

Lemma simulate_loop_course fuel stack self solver end_time l :
  let run := simulate_loop fuel stack self solver end_time l in
  (∀ it, run.1 !! 0%nat = Some it →
     it_from it = l_start_time l
     ∧ it_used it = l_used l ∪ list_to_set (m_id <$> it_terminal it))
  ∧ (∀ i a b, run.1 !! i = Some a → run.1 !! S i = Some b →
       it_from b = it_to a
       ∧ it_used b = it_used a ∪ list_to_set (m_id <$> it_terminal b))
  ∧ (∀ it, it ∈ run.1 → lt_time (it_from it) end_time = true)
  ∧ (∀ l', run.2 = Some l' →
       l_start_time l' = default (l_start_time l) (it_to <$> last run.1)
       ∧ l_used l' = default (l_used l) (it_used <$> last run.1)
       ∧ lt_time (l_start_time l') end_time = false).
Proof.
  revert l. induction fuel as [| fuel IH]; intros l.
  - cbn. split; [done |]. split; [done |]. split; [by intros ? ?%elem_of_nil | done].
  - cbn zeta. rewrite simulate_loop_unfold.
    destruct (lt_time _ _) eqn:Hlt.
    2:{ cbn. split; [done |]. split; [done |].
        split; [by intros ? ?%elem_of_nil |]. by intros ? [= <-]. }
    destruct (iteration stack self solver end_time l) as [it0 l1] eqn:Hit.
    pose proof (iteration_stacks _ _ _ _ _ _ _ Hit) as (_ & _ & Hfrom & Hused & Hto & Hu).
    specialize (IH l1). cbn zeta in IH. destruct IH as (IH0 & IHs & IHlt & IHfin).
    cbn [fst snd]. split; [| split; [| split]].
    + intros it [= <-]. done.
    + intros i a b Ha Hb. destruct i as [| i].
      * injection Ha as <-. cbn in Hb. destruct (IH0 b Hb) as [-> ->].
        by rewrite Hto, Hu.
      * cbn in Ha, Hb. by eapply IHs.
    + intros it [-> | Hin]%elem_of_cons; [by rewrite Hfrom | by apply IHlt].
    + intros l' Hl'. destruct (IHfin l' Hl') as (Ht & Hus & Hend).
      split; [| split; [| done]].
      * rewrite Ht, Hto.
        destruct (simulate_loop fuel stack self solver end_time l1).1 as [| x xs] eqn:Hl;
          [done |]. rewrite last_cons_cons.
        destruct (last (x :: xs)) as [y |] eqn:Hy; [done | by apply last_None in Hy].
      * rewrite Hus, Hu.
        destruct (simulate_loop fuel stack self solver end_time l1).1 as [| x xs] eqn:Hl;
          [done |]. rewrite last_cons_cons.
        destruct (last (x :: xs)) as [y |] eqn:Hy; [done | by apply last_None in Hy].
Qed.

(** X3: The course of a run: the first iteration starts at [start_time]; each
    later one starts where the one before it ended; the loop condition held
    at the start of every iteration; the [used] attributes set after an
    iteration are those set before it and those of its terminal
    interruptions, so none is ever reset; and when the loop ends, the
    [used] attributes are those after the last iteration and the time the
    last iteration ended at (or [start_time], when there was none) is not
    before [end_time]. *)
Theorem event_loop_course fuel stack self used dynamics state start_time end_time
    solver_kwarg :
  let run := _pyro_simulate fuel stack self used
               (dynamics, state, start_time, end_time) solver_kwarg in
  (∀ it, run.1 !! 0%nat = Some it →
     it_from it = start_time
     ∧ it_used it = used ∪ list_to_set (m_id <$> it_terminal it))
  ∧ (∀ i a b, run.1 !! i = Some a → run.1 !! S i = Some b →
       it_from b = it_to a
       ∧ it_used b = it_used a ∪ list_to_set (m_id <$> it_terminal b))
  ∧ (∀ it, it ∈ run.1 → lt_time (it_from it) end_time = true)
  ∧ (∀ value used', run.2 = Some (value, used') →
       used' = default used (it_used <$> last run.1)
       ∧ lt_time (default start_time (it_to <$> last run.1)) end_time = false).
Proof.
  cbn zeta. unfold EventLoop._pyro_simulate.
  set (solver := match solver_kwarg with Some s => s | None => get_solver stack end).
  pose proof (simulate_loop_course fuel stack self solver end_time
                (mkLoopState dynamics state start_time used)) as H.
  cbn zeta in H. destruct (simulate_loop _ _ _ _ _ _) as [its final].
  cbn [fst snd l_start_time l_used] in *.
  destruct H as (H0 & Hs & Hlt & Hfin).
  split; [exact H0 |]. split; [exact Hs |]. split; [exact Hlt |].
  intros value used' Hv. destruct final as [l' |]; [| done].
  injection Hv as <- <-. destruct (Hfin l' eq_refl) as (Ht & Hu & Hend).
  split; [done |]. by rewrite <- Ht.
Qed.

(** X4: A discovery that makes no progress: when [start_time < end_time] and
    the discovery phase always reports the start of the span as the time of
    the next interruption, the loop never ends: however many times its
    condition is tested, it holds, and one more iteration is made. *)
Theorem event_loop_no_progress fuel stack self used dynamics state start_time
    end_time solver_kwarg :
  lt_time start_time end_time = true →
  (∀ visible solver d s t0 t1,
     (get_next_interruptions visible solver d s t0 t1).2 = t0) →
  let run := _pyro_simulate fuel stack self used
               (dynamics, state, start_time, end_time) solver_kwarg in
  run.2 = None ∧ length run.1 = fuel
  ∧ ∀ it, it ∈ run.1 → it_from it = start_time ∧ it_to it = start_time.
Proof.
  intros Hlt Hstuck. cbn zeta. unfold EventLoop._pyro_simulate.
  set (solver := match solver_kwarg with Some s => s | None => get_solver stack end).
  assert (∀ l, l_start_time l = start_time →
            let run := simulate_loop fuel stack self solver end_time l in
            run.2 = None ∧ length run.1 = fuel
            ∧ ∀ it, it ∈ run.1 → it_from it = start_time ∧ it_to it = start_time) as H.
  { induction fuel as [| fuel IH]; intros l Hl.
    - cbn. split; [done |]. split; [done |]. by intros ? ?%elem_of_nil.
    - cbn zeta. rewrite simulate_loop_unfold, Hl, Hlt.
      destruct (iteration stack self solver end_time l) as [it0 l1] eqn:Hit.
      pose proof Hit as Hrec. apply iteration_record in Hrec as [Hit0 Hl1].
      assert (l_start_time l1 = start_time) as Hl1t
        by (rewrite Hl1; cbn; by rewrite Hstuck).
      specialize (IH l1 Hl1t). cbn zeta in IH. destruct IH as (IHn & IHlen & IHit).
      cbn [fst snd]. split; [done |]. split; [cbn; by rewrite IHlen |].
      intros it [-> | Hin]%elem_of_cons; [| by apply IHit].
      rewrite Hit0. cbn. by rewrite Hstuck. }
  specialize (H (mkLoopState dynamics state start_time used) eq_refl).
  cbn zeta in H. destruct (simulate_loop _ _ _ _ _ _) as [its final].
  cbn [fst snd] in *. destruct H as (-> & ? & ?). done.
Qed.

End LoopProps.

(** The instance of [LoopExample]: its discovery only returns handlers of
    the stack it runs under, or handlers that are on no stack. *)
Lemma example_earliest_elem ms m :
  LoopExample.earliest ms = Some m → m ∈ ms.
Proof.
  revert m. induction ms as [| m0 ms IH]; intros m; [done |]. cbn.
  destruct (LoopExample.earliest ms) as [m' |].
  - destruct (_ <=? _); intros [= <-]; [left | right; by apply IH].
  - intros [= <-]. left.
Qed.

Lemma example_discovery_visible visible solver d s t0 t1 h :
  h ∈ (LoopExample.get_next visible solver d s t0 t1).1 →
  h ∈ LoopExample.stack → h ∈ visible.
Proof.
  unfold LoopExample.get_next.
  destruct (LoopExample.earliest _) as [m |] eqn:Hm; cbn.
  - intros ->%list_elem_of_singleton _.
    apply example_earliest_elem, list_elem_of_filter in Hm. tauto.
  - intros ->%list_elem_of_singleton Hin. exfalso.
    revert Hin. unfold LoopExample.stack. rewrite !elem_of_cons, elem_of_nil.
    intros [? | [? | [? | []]]]; discriminate.
Qed.

(** The run of the specification's example: A at 2 and B at 5 on [0, 10].
    Three iterations, over [0, 2], [2, 5] and [5, 10]; the effect of A, then
    that of B, each once. *)
Example example_run :
  (EventLoop.it_terminal <$> (LoopExample.run 10).1
   = [[LoopExample.int_A]; [LoopExample.int_B]; [EventLoop.mkMessenger 99 true]])
  ∧ ((fun it => (EventLoop.it_from it, EventLoop.it_to it)) <$> (LoopExample.run 10).1
     = [(0, 2); (2, 5); (5, 10)])
  ∧ (fst <$> (LoopExample.run 10).2 = Some (10, [1; 2]%nat)).
Proof. vm_compute. done. Qed.

Lemma event_loop_single_fire_witness :
  (∀ visible solver d s t0 t1 h,
     h ∈ (LoopExample.get_next visible solver d s t0 t1).1 →
     h ∈ LoopExample.stack → h ∈ visible)
  ∧ (let its := (LoopExample.run 10).1 in
     (∀ i j it_i it_j h,
        its !! i = Some it_i → its !! j = Some it_j → (i < j)%nat →
        h ∈ EventLoop.it_terminal it_i → EventLoop.is_interruption h = true →
        EventLoop.m_id h ∈ EventLoop.it_used it_i
        ∧ h ∉ EventLoop.it_discovery it_j)
     ∧ (∀ it h, it ∈ its → h ∈ EventLoop.it_effect it →
          EventLoop.is_interruption h = true → h ∈ EventLoop.it_terminal it)
     ∧ (∀ i j it_i it_j h,
          its !! i = Some it_i → its !! j = Some it_j → i ≠ j →
          EventLoop.is_interruption h = true →
          h ∈ EventLoop.it_effect it_i → h ∉ EventLoop.it_effect it_j)).
Proof.
  split; [exact example_discovery_visible |].
  exact (event_loop_single_fire Z.ltb (fun _ => tt) LoopExample.get_next
           LoopExample.integrate LoopExample.apply_effects 10 LoopExample.stack
           LoopExample.the_loop ∅ (tt, (0, []), 0, 10) None
           example_discovery_visible).
Defined.

Lemma event_loop_one_iteration_witness :
  (0 <? 10) = true ∧ (10 <? 10) = false
  ∧ EventLoop._pyro_simulate Z.ltb (fun _ => tt)
      (fun _ (_ _ : unit) (_ : Z) (_ t1 : Z) => ([], t1))
      (fun _ (_ _ : unit) (s t0 t1 : Z) => s + (t1 - t0))
      (fun _ (d : unit) (s : Z) => (d, s))
      2 LoopExample.stack LoopExample.the_loop ∅ (tt, 0, 0, 10) None
    = ([EventLoop.mkIteration 0 10 [LoopExample.int_A; LoopExample.int_B] []
          (∅ ∪ list_to_set []) [LoopExample.the_loop]],
       Some (10, ∅ ∪ list_to_set [])).
Proof.
  split; [reflexivity |]. split; [reflexivity |].
  refine (eq_trans
            (event_loop_one_iteration Z.ltb (fun _ => tt)
               (fun _ (_ _ : unit) (_ : Z) (_ t1 : Z) => ([], t1))
               (fun _ (_ _ : unit) (s t0 t1 : Z) => s + (t1 - t0))
               (fun _ (d : unit) (s : Z) => (d, s))
               0 LoopExample.stack LoopExample.the_loop ∅ tt 0 0 10 None
               eq_refl eq_refl (fun _ _ _ _ _ => eq_refl)) _).
  vm_compute. reflexivity.
Defined.

(** A run of [LoopExample]: its first iteration. *)
Lemma event_loop_phase_stacks_witness :
  ∃ it, (LoopExample.run 10).1 !! 0%nat = Some it
        ∧ (LoopExample.the_loop ∉ EventLoop.it_discovery it)
        ∧ (EventLoop.it_discovery it `sublist_of` LoopExample.stack)
        ∧ (EventLoop.it_effect it `sublist_of` LoopExample.stack)
        ∧ (∀ m, m ∈ LoopExample.stack → EventLoop.is_interruption m = false →
             m ≠ LoopExample.the_loop → m ∈ EventLoop.it_discovery it)
        ∧ (∀ m, m ∈ LoopExample.stack → EventLoop.is_interruption m = false →
             m ∈ EventLoop.it_effect it)
        ∧ (∀ m, m ∈ LoopExample.stack → m ∈ EventLoop.it_terminal it →
             m ∈ EventLoop.it_effect it).
Proof.
  eexists. split; [vm_compute; reflexivity |].
  apply (event_loop_phase_stacks Z.ltb (fun _ => tt) LoopExample.get_next
           LoopExample.integrate LoopExample.apply_effects 10 LoopExample.stack
           LoopExample.the_loop ∅ (tt, (0, []), 0, 10) None).
  apply (list_elem_of_lookup_2 _ 0%nat). vm_compute. reflexivity.
Defined.

Lemma event_loop_empty_span_witness :
  (5 <? 3) = false
  ∧ EventLoop._pyro_simulate Z.ltb (fun _ => tt) LoopExample.get_next
      LoopExample.integrate LoopExample.apply_effects 1 LoopExample.stack
      LoopExample.the_loop ∅ (tt, (0, []), 5, 3) None
    = ([], Some ((0, []), ∅)).
Proof.
  split; [reflexivity |].
  exact (event_loop_empty_span Z.ltb (fun _ => tt) LoopExample.get_next
           LoopExample.integrate LoopExample.apply_effects 0 LoopExample.stack
           LoopExample.the_loop ∅ tt (0, []) 5 3 None eq_refl).
Defined.

(** A discovery that always reports the start of the span. *)
Lemma event_loop_no_progress_witness :
  let stuck := fun (_ : list EventLoop.Messenger) (_ _ : unit) (_ : Z) (t0 _ : Z) =>
                 ([] : list EventLoop.Messenger, t0) in
  let run := EventLoop._pyro_simulate Z.ltb (fun _ => tt) stuck
               (fun _ (_ _ : unit) (s t0 t1 : Z) => s + (t1 - t0))
               (fun _ (d : unit) (s : Z) => (d, s))
               3 LoopExample.stack LoopExample.the_loop ∅ (tt, 0, 0, 10) None in
  (0 <? 10) = true
  ∧ (∀ visible solver d s t0 t1, (stuck visible solver d s t0 t1).2 = t0)
  ∧ run.2 = None ∧ length run.1 = 3%nat
  ∧ ∀ it, it ∈ run.1 → EventLoop.it_from it = 0 ∧ EventLoop.it_to it = 0.
Proof.
  cbn zeta. split; [reflexivity |]. split; [reflexivity |].
  exact (event_loop_no_progress Z.ltb (fun _ => tt)
           (fun _ (_ _ : unit) (_ : Z) (t0 _ : Z) => ([], t0))
           (fun _ (_ _ : unit) (s t0 t1 : Z) => s + (t1 - t0))
           (fun _ (d : unit) (s : Z) => (d, s))
           3 LoopExample.stack LoopExample.the_loop ∅ tt 0 0 10 None
           eq_refl (fun _ _ _ _ _ _ => eq_refl)).
Defined.

(** ** indices_of, whatever it is given *)

(** [name_to_dim] as [_indices_of_shape] reads it off its keyword
    arguments. *)
Lemma indices_of_shape_inv_kw plates value kw ix :
  _indices_of_shape plates value kw = Ok ix →
  ∃ e m, default (Some 0) (kw_event_dim kw) = Some e
         ∧ default (Some (plate_dims plates)) (kw_name_to_dim kw) = Some m
         ∧ ix = omap (shape_entry (py_slice_to value (Z.of_nat (length value) - e))) m.
Proof.
  destruct kw as [ev nd]. unfold _indices_of_shape. cbn [kw_event_dim kw_name_to_dim].
  destruct (default (Some 0) ev) as [e |] eqn:He; [| done].
  destruct (default (Some (plate_dims plates)) nd) as [m |] eqn:Hm; [| done].
  intros Hrun. exists e, m. split; [done |]. split; [done |].
  apply (indices_of_shape_inv plates value e m).
  unfold _indices_of_shape. cbn [kw_event_dim kw_name_to_dim default from_option id].
  exact Hrun.
Qed.

Lemma indices_of_inv {A} plates (value : pyval A) kw ix :
  indices_of plates value kw = Ok ix →
  ix = []
  ∨ ∃ sh m, default (Some (plate_dims plates)) (kw_name_to_dim kw) = Some m
            ∧ ix = omap (shape_entry sh) m.
Proof.
  destruct value as [x | x | | sh | t | bs]; cbn [indices_of];
    try (intros [= <-]; by left).
  all: intros (e & m & _ & Hm & ->)%indices_of_shape_inv_kw; right; eauto.
Qed.



(** X6: An [event_dim] larger than the number of axes is not refused: the slice
    [value[: len(value) - event_dim]] then has a negative end, which Python
    counts from the right, so that [2 * len(value) - event_dim] leading axes
    are kept (none, when that is not positive) and read as if they were the
    whole shape. *)
Theorem indices_of_event_dim_beyond_shape {A} (plates : Plates) (s : list nat)
    (e : Z) (name_to_dim : option (option (dict string Z))) :
  Z.of_nat (length s) < e →
  indices_of (A:=A) plates (VShape s) (mkKwargs (Some (Some e)) name_to_dim)
  = indices_of (A:=A) plates (VShape (take (2 * length s - Z.to_nat e) s))
      (mkKwargs (Some (Some 0)) name_to_dim).
Proof.
  intros He. cbn [indices_of]. unfold _indices_of_shape.
  cbn [kw_event_dim kw_name_to_dim default from_option id]. rewrite !res_bind_Ok.
  assert (py_slice_to s (Z.of_nat (length s) - e)
          = take (2 * length s - Z.to_nat e) s) as ->.
  { unfold py_slice_to. rewrite (proj2 (Z.ltb_lt _ _)) by lia. f_equal. lia. }
  assert (∀ l : list nat, py_slice_to l (Z.of_nat (length l) - 0) = l) as ->; [| done].
  intros l. unfold py_slice_to. rewrite (proj2 (Z.ltb_ge _ _)) by lia.
  rewrite take_ge; [done | lia].
Qed.

Lemma indices_of_event_dim_beyond_shape_witness :
  let plates : Plates := [("a", mkFrame "a" (-1) 3 0)] in
  Z.of_nat (length [3; 2; 5]%nat) < 4
  ∧ indices_of (A:=Z) plates (VShape [3; 2; 5]%nat) (mkKwargs (Some (Some 4)) None)
    = indices_of (A:=Z) plates (VShape [3; 2]%nat) (mkKwargs (Some (Some 0)) None)
  ∧ indices_of (A:=Z) plates (VShape [3; 2; 5]%nat) (mkKwargs (Some (Some 4)) None)
    = Ok [("a", set_range 2)].
Proof.
  cbn zeta.
  assert (Z.of_nat (length [3; 2; 5]%nat) < 4) as H by (cbn; lia).
  split; [exact H |]. split; [| reflexivity].
  exact (indices_of_event_dim_beyond_shape (A:=Z) [("a", mkFrame "a" (-1) 3 0)]
           [3; 2; 5]%nat 4 None H).
Defined.

(** X7: [event_dim=None], which [gather] and [scatter] read as 0, is not accepted
    by [indices_of] of a shape or a tensor: [len(value) - None] raises a
    type error before [name_to_dim] is looked at. [indices_of] of a
    distribution drops the [event_dim] it is passed, [None] included, and
    reads the batch shape with [event_dim=0]. *)
Theorem indices_of_event_dim_None {A} (plates : Plates) (s : list nat)
    (t : Tensor A) (batch_shape : list nat) (event_dim : option (option Z))
    (name_to_dim : option (option (dict string Z))) :
  indices_of (A:=A) plates (VShape s) (mkKwargs (Some None) name_to_dim)
  = Raise TypeError
  ∧ indices_of plates (VTensor t) (mkKwargs (Some None) name_to_dim)
    = Raise TypeError
  ∧ indices_of (A:=A) plates (VDistribution batch_shape)
      (mkKwargs event_dim name_to_dim)
    = indices_of (A:=A) plates (VShape batch_shape) (mkKwargs None name_to_dim).
Proof. done. Qed.
(** ** gather: its errors, the axes it keeps, the order of the names *)

Section GatherMore.

Context {A : Type}.
Variable e : Z.
Variable m : dict string Z.

Lemma index_select_inv (t t' : Tensor A) dim index :
  index_select t dim index = Ok t' →
  ∃ i, norm_axis (ndim t) dim = Some i ∧ shape t' = <[i := length index]> (shape t).
Proof.
  unfold index_select. destruct (norm_axis _ _) as [i |]; [| done].
  destruct (shape t !! i) as [n |]; [| done].
  destruct (forallb _ _); [| done]. intros [= <-]. by exists i.
Qed.


Lemma gather_step_inv (t t' : Tensor A) name S :
  gather_step e m t (name, S) = Ok t' →
  t' = t ∨ ∃ i, (i < ndim t)%nat ∧ shape t' = <[i := size S]> (shape t).
Proof.
  unfold gather_step, dict_item. destruct (dict_get m name) as [d |]; [| done].
  rewrite res_bind_Ok. destruct (_ <? _); [intros [= <-]; by left |].
  destruct (py_getitem _ _) as [n |]; [| done]. rewrite res_bind_Ok.
  destruct (n =? 1)%nat; [intros [= <-]; by left |].
  intros (i & Hi & ->)%index_select_inv. right. exists i.
  rewrite length_sorted. split; [by eapply norm_axis_lt | done].
Qed.



Lemma gather_loop_axes (ix : IndexSet) (v r : Tensor A) :
  for_each (gather_step e m) ix v = Ok r →
  ndim r = ndim v
  ∧ ∀ i n, shape r !! i = Some n →
      shape v !! i = Some n ∨ ∃ name S, (name, S) ∈ ix ∧ n = size S.
Proof.
  revert v. induction ix as [| [name S] ix IH]; intros v.
  - intros [= <-]. split; [done |]. intros i n Hn. by left.
  - rewrite for_each_cons.
    destruct (gather_step e m v (name, S)) as [v1 |] eqn:Hstep; [| done].
    rewrite res_bind_Ok. intros [Hnd Hsh]%IH.
    apply gather_step_inv in Hstep as [-> | (i0 & Hi0 & Hv1)].
    + split; [done |]. intros i n Hn.
      destruct (Hsh i n Hn) as [? | (name' & S' & Hin & ->)]; [by left |].
      right. exists name', S'. split; [by right | done].
    + assert (ndim v1 = ndim v) as Hnd1
        by (unfold ndim; by rewrite Hv1, length_insert).
      split; [congruence |]. intros i n Hn.
      destruct (Hsh i n Hn) as [Hv | (name' & S' & Hin & ->)].
      * rewrite Hv1 in Hv. destruct (decide (i = i0)) as [-> | Hne].
        -- rewrite list_lookup_insert_eq in Hv by done. injection Hv as <-.
           right. exists name, S. split; [left | done].
        -- rewrite list_lookup_insert_ne in Hv by done. by left.
      * right. exists name', S'. split; [by right | done].
Qed.

Lemma gather_loop_in_range (ix : IndexSet) (v r : Tensor A) :
  names_axes m e ix →
  for_each (gather_step e m) ix v = Ok r →
  ∀ name S i n, (name, S) ∈ ix → axis_of m e (ndim v) name = Some i →
    shape v !! i = Some n → n ≠ 1%nat → ∀ k, k ∈ S → (k < n)%nat.
Proof.
  revert v. induction ix as [| [name0 S0] ix IH]; intros v Hwf Hrun;
    [by intros ???? ?%elem_of_nil |].
  apply names_axes_cons in Hwf as (Hwf & (d & Hd & Hneg) & Hother).
  rewrite for_each_cons, (gather_step_cases _ _ _ _ _ d) in Hrun by done.
  intros name S i n Hin Hax Hn Hn1.
  destruct (axis_of m e (ndim v) name0) as [i0 |] eqn:Hax0.
  2:{ rewrite res_bind_Ok in Hrun. apply elem_of_cons in Hin as [[= -> ->] | Hin];
        [congruence | by eapply (IH v)]. }
  destruct (decide (shape v !! i0 = Some 1%nat)) as [Hone | Hone].
  { rewrite res_bind_Ok in Hrun. apply elem_of_cons in Hin as [[= -> ->] | Hin];
      [| by eapply (IH v)].
    rewrite Hax0 in Hax. injection Hax as ->. congruence. }
  destruct (forallb _ (sorted S0)) eqn:Hall; [| done].
  rewrite res_bind_Ok in Hrun.
  apply elem_of_cons in Hin as [[= -> ->] | Hin].
  - rewrite Hax0 in Hax. injection Hax as ->. rewrite Hn in Hall.
    by apply forallb_lt_sorted.
  - assert (i ≠ i0) as Hne.
    { intros ->. eapply Hother; [| exact Hax0 | exact Hax].
      apply list_elem_of_fmap. by exists (name, S). }
    eapply (IH _ Hwf Hrun name S i n Hin).
    + unfold ndim in *. cbn [shape]. by rewrite length_insert.
    + cbn [shape]. by rewrite list_lookup_insert_ne.
    + done.
Qed.

End GatherMore.

Lemma names_axes_Permutation (m : dict string Z) e (ix ix' : IndexSet) :
  ix ≡ₚ ix' → names_axes m e ix → names_axes m e ix'.
Proof.
  intros Hp (Hnd & Hd & Hinj).
  assert (keys ix ≡ₚ keys ix') as Hk by (unfold keys; by rewrite Hp).
  split; [by rewrite <- Hk |]. split.
  - intros name Hin. apply Hd. by rewrite Hk.
  - intros name1 name2 d H1 H2. apply Hinj; by rewrite Hk.
Qed.

Lemma names_axes_unique (m : dict string Z) e (ix : IndexSet) n name1 S1 name2 S2 i :
  names_axes m e ix → (name1, S1) ∈ ix → (name2, S2) ∈ ix →
  axis_of m e n name1 = Some i → axis_of m e n name2 = Some i →
  name1 = name2 ∧ S1 = S2.
Proof.
  intros (Hnd & Hd & Hinj) H1 H2 Ha1 Ha2.
  assert (name1 ∈ keys ix) as Hk1 by (apply elem_of_keys; eauto).
  assert (name2 ∈ keys ix) as Hk2 by (apply elem_of_keys; eauto).
  destruct (Hd name1 Hk1) as (d1 & Hd1 & Hneg1).
  destruct (Hd name2 Hk2) as (d2 & Hd2 & Hneg2).
  assert (d1 = d2) as <- by (by eapply (axis_of_inj e m n name1 name2)).
  assert (name1 = name2) as <- by (by eapply Hinj).
  split; [done |].
  assert (dict_get ix name1 = Some S1) as E1 by (by apply dict_get_elem).
  assert (dict_get ix name1 = Some S2) as E2 by (by apply dict_get_elem).
  congruence.
Qed.

(** X8: [_gather_tensor] keeps the axes of its value, whatever [name_to_dim] and
    the index set hold: a tensor it returns has as many axes as the value,
    and each of them has the length it has in the value or the number of
    indices of one of the names. *)
Theorem gather_keeps_axes {A} (plates : Plates) (v r : Tensor A) (ix : IndexSet)
    (event_dim : option Z) (name_to_dim : option (dict string Z)) :
  _gather_tensor plates v ix event_dim name_to_dim = Ok r →
  ndim r = ndim v
  ∧ ∀ i n, shape r !! i = Some n →
      shape v !! i = Some n ∨ ∃ name S, (name, S) ∈ ix ∧ n = size S.
Proof. apply gather_loop_axes. Qed.

Lemma gather_keeps_axes_witness :
  let plates : Plates := [("a", mkFrame "a" (-1) 3 0)] in
  let v : Tensor Z := mkTensor [2; 3]%nat (fun idx => Z.of_nat (sum_list idx)) in
  let ix : IndexSet := [("a", {[0; 2]}%nat)] in
  ∃ r, _gather_tensor plates v ix None None = Ok r
       ∧ shape r = [2; 2]%nat
       ∧ ndim r = ndim v
       ∧ ∀ i n, shape r !! i = Some n →
           shape v !! i = Some n ∨ ∃ name S, (name, S) ∈ ix ∧ n = size S.
Proof.
  cbn zeta. eexists. split; [vm_compute; reflexivity |]. split; [reflexivity |].
  apply (gather_keeps_axes [("a", mkFrame "a" (-1) 3 0)]
           (mkTensor [2; 3]%nat (fun idx => Z.of_nat (sum_list idx)))
           _ [("a", {[0; 2]}%nat)] None None).
  vm_compute. reflexivity.
Defined.



(** X10: For names that reach different axes to the left of the event axes,
    [_gather_tensor] returns exactly when every name whose axis the value
    has, with a length other than 1, asks only for positions of that axis:
    an index at or beyond the length of the axis makes it raise, and nothing
    else does. *)
Theorem gather_returns_iff_in_range {A} (plates : Plates) (v : Tensor A)
    (ix : IndexSet) (event_dim : option Z) (name_to_dim : option (dict string Z)) :
  let e := default 0 event_dim in
  let m := default (plate_dims plates) name_to_dim in
  names_axes m e ix →
  (∃ r, _gather_tensor plates v ix event_dim name_to_dim = Ok r)
  ↔ (∀ name S i n, (name, S) ∈ ix → axis_of m e (ndim v) name = Some i →
       shape v !! i = Some n → n ≠ 1%nat → ∀ k, k ∈ S → (k < n)%nat).
Proof.
  intros e m Hwf. split.
  - intros [r Hr]. by eapply gather_loop_in_range.
  - intros Hrange. by apply gather_loop_total.
Qed.

Lemma singleton_names_axes (name : string) (d : Z) S :
  d < 0 → names_axes [(name, d)] 0 [(name, S)].
Proof.
  intros Hd. split; [apply NoDup_singleton |]. split.
  - intros name' ->%list_elem_of_singleton. exists d. cbn.
    rewrite decide_True by done. split; [done | lia].
  - by intros name1 name2 d' ->%list_elem_of_singleton ->%list_elem_of_singleton.
Qed.

Lemma gather_returns_iff_in_range_witness :
  let plates : Plates := [("a", mkFrame "a" (-1) 3 0)] in
  let v : Tensor Z := mkTensor [2; 3]%nat (fun idx => Z.of_nat (sum_list idx)) in
  let ix : IndexSet := [("a", {[3%nat]})] in
  names_axes (plate_dims plates) 0 ix
  ∧ ((∃ r, _gather_tensor plates v ix None None = Ok r)
     ↔ (∀ name S i n, (name, S) ∈ ix →
          axis_of (plate_dims plates) 0 (ndim v) name = Some i →
          shape v !! i = Some n → n ≠ 1%nat → ∀ k, k ∈ S → (k < n)%nat))
  ∧ _gather_tensor plates v ix None None = Raise IndexError.
Proof.
  cbn zeta.
  assert (names_axes (plate_dims [("a", mkFrame "a" (-1) 3 0)]) 0
            [("a", {[3%nat]})]) as H by (by apply singleton_names_axes).
  split; [exact H |]. split; [| vm_compute; reflexivity].
  exact (gather_returns_iff_in_range [("a", mkFrame "a" (-1) 3 0)]
           (mkTensor [2; 3]%nat (fun idx => Z.of_nat (sum_list idx)))
           [("a", {[3%nat]})] None None H).
Defined.

Lemma for_each_app {X S} (body : S → X → res S) (xs ys : list X) (s : S) :
  for_each body (xs ++ ys) s = for_each body xs s ≫= for_each body ys.
Proof.
  revert s. induction xs as [| x xs IH]; intros s; [done |].
  cbn [app]. rewrite !for_each_cons. destruct (body s x) as [s' |]; [| done].
  rewrite !res_bind_Ok. apply IH.
Qed.

Lemma gather_loop_Permutation {A} e (m : dict string Z) (ix ix' : IndexSet)
    (v r : Tensor A) :
  names_axes m e ix → ix ≡ₚ ix' →
  for_each (gather_step e m) ix v = Ok r →
  ∃ r', for_each (gather_step e m) ix' v = Ok r'
        ∧ shape r' = shape r
        ∧ ∀ idx, in_bounds (shape r) idx → elem r' idx = elem r idx.
Proof.
  intros Hwf Hp Hr.
  pose proof (names_axes_Permutation m e ix ix' Hp Hwf) as Hwf'.
  pose proof (gather_loop_in_range e m ix v r Hwf Hr) as Hrange.
  destruct (gather_loop_total e m ix' v Hwf') as [r' Hr'].
  { intros name S i n Hin. apply Hrange. by rewrite Hp. }
  exists r'. split; [done |].
  destruct (gather_loop_spec e m ix v r Hwf Hr) as (Hnd & Hnamed & Hother & Helem).
  destruct (gather_loop_spec e m ix' v r' Hwf' Hr') as (Hnd' & Hnamed' & Hother' & Helem').
  assert (∀ i, (∃ name S, (name, S) ∈ ix ∧ axis_of m e (ndim v) name = Some i)
               ∨ (∀ name, name ∈ keys ix → axis_of m e (ndim v) name ≠ Some i)) as Hdec.
  { intros i.
    destruct (decide (Exists (fun kv => axis_of m e (ndim v) kv.1 = Some i) ix))
      as [Hex | Hno].
    - left. apply Exists_exists in Hex as ([name S] & Hin & Hax). eauto.
    - right. intros name [S Hin]%elem_of_keys Hax. apply Hno, Exists_exists.
      by exists (name, S). }
  assert (shape r' = shape r) as Hshape.
  { apply list_eq. intros i. destruct (Hdec i) as [(name & S & Hin & Hax) | Hno].
    - rewrite (Hnamed name S i Hin Hax). apply (Hnamed' name S i); [by rewrite <- Hp | done].
    - rewrite (Hother i Hno). apply Hother'. intros name Hin. apply Hno.
      unfold keys in *. by rewrite Hp. }
  split; [done |]. intros idx Hb.
  destruct (Helem idx Hb) as (src & -> & Hlen & Hsel & Hkeep).
  rewrite <- Hshape in Hb.
  destruct (Helem' idx Hb) as (src' & -> & Hlen' & Hsel' & Hkeep').
  f_equal. apply list_eq. intros i.
  destruct (decide (shape v !! i = Some 1%nat)) as [Hone | Hone].
  { rewrite Hkeep, Hkeep' by done. done. }
  destruct (Hdec i) as [(name & S & Hin & Hax) | Hno].
  - destruct (idx !! i) as [c |] eqn:Hc.
    + rewrite (Hsel name S i c Hin Hax Hone Hc).
      apply (Hsel' name S i c); [by rewrite <- Hp | done..].
    + apply lookup_ge_None in Hc.
      rewrite !(proj2 (lookup_ge_None _ _)); [done | lia | lia].
  - rewrite Hkeep, Hkeep'; [done | |].
    + intros name Hin Hax. exfalso. eapply Hno; [| done]. unfold keys in *.
      by rewrite Hp.
    + intros name Hin Hax. exfalso. by eapply Hno.
Qed.


(** X11: The order of the names in the index set does not matter: for names that
    reach different axes to the left of the event axes, gathering with the
    same entries in another order returns whenever gathering with the index
    set does, and returns a tensor of the same shape that holds the same
    element at every position. *)
Theorem gather_order_irrelevant {A} (plates : Plates) (v r : Tensor A)
    (ix ix' : IndexSet) (event_dim : option Z) (name_to_dim : option (dict string Z)) :
  let e := default 0 event_dim in
  let m := default (plate_dims plates) name_to_dim in
  names_axes m e ix → ix ≡ₚ ix' →
  _gather_tensor plates v ix event_dim name_to_dim = Ok r →
  ∃ r', _gather_tensor plates v ix' event_dim name_to_dim = Ok r'
        ∧ shape r' = shape r
        ∧ ∀ idx, in_bounds (shape r) idx → elem r' idx = elem r idx.
Proof. intros e m. apply gather_loop_Permutation. Qed.

(** Two names on two axes, in either order. *)
Lemma gather_order_instance :
  let plates : Plates := [("a", mkFrame "a" (-1) 3 0); ("b", mkFrame "b" (-2) 2 0)] in
  let ix : IndexSet := [("a", {[0; 2]}%nat); ("b", {[1%nat]})] in
  let ix' : IndexSet := [("b", {[1%nat]}); ("a", {[0; 2]}%nat)] in
  names_axes (plate_dims plates) 0 ix ∧ ix ≡ₚ ix'.
Proof.
  cbn zeta. split; [| apply Permutation_swap]. split; [| split].
  - apply NoDup_cons. split; [| apply NoDup_singleton].
    by intros [=]%list_elem_of_singleton.
  - intros name [-> | ->%list_elem_of_singleton]%elem_of_cons;
      [exists (-1) | exists (-2)]; split; (reflexivity || lia).
  - intros name1 name2 d
      [-> | ->%list_elem_of_singleton]%elem_of_cons
      [-> | ->%list_elem_of_singleton]%elem_of_cons Hd1 Hd2;
      vm_compute in Hd1, Hd2; congruence.
Qed.

Lemma gather_order_irrelevant_witness :
  let plates : Plates := [("a", mkFrame "a" (-1) 3 0); ("b", mkFrame "b" (-2) 2 0)] in
  let v : Tensor Z := mkTensor [2; 3]%nat (fun idx => Z.of_nat (sum_list idx)) in
  let ix : IndexSet := [("a", {[0; 2]}%nat); ("b", {[1%nat]})] in
  let ix' : IndexSet := [("b", {[1%nat]}); ("a", {[0; 2]}%nat)] in
  names_axes (plate_dims plates) 0 ix ∧ ix ≡ₚ ix'
  ∧ ∃ r r', _gather_tensor plates v ix None None = Ok r
            ∧ _gather_tensor plates v ix' None None = Ok r'
            ∧ shape r' = shape r
            ∧ ∀ idx, in_bounds (shape r) idx → elem r' idx = elem r idx.
Proof.
  cbn zeta. destruct gather_order_instance as [H1 H2].
  split; [exact H1 |]. split; [exact H2 |].
  set (plates := [("a", mkFrame "a" (-1) 3 0); ("b", mkFrame "b" (-2) 2 0)] : Plates) in *.
  set (v := mkTensor [2; 3]%nat (fun idx => Z.of_nat (sum_list idx)) : Tensor Z).
  set (ix := [("a", {[0; 2]}%nat); ("b", {[1%nat]})] : IndexSet) in *.
  set (ix' := [("b", {[1%nat]}); ("a", {[0; 2]}%nat)] : IndexSet) in *.
  destruct (_gather_tensor plates v ix None None) as [r |] eqn:Hr;
    [| by vm_compute in Hr].
  exists r.
  destruct (gather_order_irrelevant plates v r ix ix' None None H1 H2 Hr)
    as (r' & Hr' & Hs & Hel).
  exists r'. done.
Defined.

(** X12: Two calls of gather commute: for two index sets whose names reach
    different axes to the left of the event axes, gathering with the one and
    then with the other returns, whenever it returns, what gathering with
    the other and then with the one returns: a tensor of the same shape
    that holds the same element at every position. *)
Theorem gather_calls_commute {A} (plates : Plates) (v a r : Tensor A)
    (ix1 ix2 : IndexSet) (event_dim : option Z) (name_to_dim : option (dict string Z)) :
  let e := default 0 event_dim in
  let m := default (plate_dims plates) name_to_dim in
  names_axes m e (ix1 ++ ix2) →
  _gather_tensor plates v ix1 event_dim name_to_dim = Ok a →
  _gather_tensor plates a ix2 event_dim name_to_dim = Ok r →
  ∃ b r', _gather_tensor plates v ix2 event_dim name_to_dim = Ok b
          ∧ _gather_tensor plates b ix1 event_dim name_to_dim = Ok r'
          ∧ shape r' = shape r
          ∧ ∀ idx, in_bounds (shape r) idx → elem r' idx = elem r idx.
Proof.
  intros e m Hwf Ha Hr. unfold _gather_tensor in *. cbn zeta in *. fold e m in Ha, Hr |- *.
  assert (for_each (gather_step e m) (ix1 ++ ix2) v = Ok r) as Hboth
    by (by rewrite for_each_app, Ha, res_bind_Ok).
  destruct (gather_loop_Permutation e m (ix1 ++ ix2) (ix2 ++ ix1) v r Hwf
              (Permutation_app_comm _ _) Hboth) as (r' & Hr' & Hshape & Hel).
  rewrite for_each_app in Hr'.
  destruct (for_each (gather_step e m) ix2 v) as [b |]; [| done].
  rewrite res_bind_Ok in Hr'. by exists b, r'.
Qed.

Lemma gather_calls_commute_witness :
  let plates : Plates := [("a", mkFrame "a" (-1) 3 0); ("b", mkFrame "b" (-2) 2 0)] in
  let v : Tensor Z := mkTensor [2; 3]%nat (fun idx => Z.of_nat (sum_list idx)) in
  let ix1 : IndexSet := [("a", {[0; 2]}%nat)] in
  let ix2 : IndexSet := [("b", {[1%nat]})] in
  names_axes (plate_dims plates) 0 (ix1 ++ ix2)
  ∧ ∃ a r b r', _gather_tensor plates v ix1 None None = Ok a
                ∧ _gather_tensor plates a ix2 None None = Ok r
                ∧ _gather_tensor plates v ix2 None None = Ok b
                ∧ _gather_tensor plates b ix1 None None = Ok r'
                ∧ shape r' = shape r
                ∧ ∀ idx, in_bounds (shape r) idx → elem r' idx = elem r idx.
Proof.
  cbn zeta.
  set (plates := [("a", mkFrame "a" (-1) 3 0); ("b", mkFrame "b" (-2) 2 0)] : Plates).
  set (v := mkTensor [2; 3]%nat (fun idx => Z.of_nat (sum_list idx)) : Tensor Z).
  set (ix1 := [("a", {[0; 2]}%nat)] : IndexSet).
  set (ix2 := [("b", {[1%nat]})] : IndexSet).
  pose proof (proj1 gather_order_instance) as H1.
  split; [exact H1 |].
  destruct (_gather_tensor plates v ix1 None None) as [a |] eqn:Ha;
    [| by vm_compute in Ha].
  destruct (_gather_tensor plates a ix2 None None) as [r |] eqn:Hr.
  2:{ exfalso. revert Hr. generalize Ha. vm_compute. intros [= <-]. by vm_compute. }
  destruct (gather_calls_commute plates v a r ix1 ix2 None None H1 Ha Hr)
    as (b & r' & Hb & Hr' & Hs & Hel).
  by exists a, r, b, r'.
Defined.




(** X14: The assertion on [event_dim] is made by [gather] and [scatter] of a
    number: with an [event_dim] other than 0 and [None] both raise an
    assertion error, whatever the index set, [name_to_dim] and [result]. *)
Theorem number_event_dim_asserts {A} (zero : A) (plates : Plates) (x : A)
    (ix : IndexSet) (e : Z) (name_to_dim : option (dict string Z))
    (result : option (Tensor A)) :
  e ≠ 0 →
  gather plates (VNumber x) ix (Some e) name_to_dim = Raise AssertionError
  ∧ gather plates (VBool x) ix (Some e) name_to_dim = Raise AssertionError
  ∧ scatter zero plates (VNumber x) ix result (Some e) name_to_dim
    = Raise AssertionError
  ∧ scatter zero plates (VBool x) ix result (Some e) name_to_dim
    = Raise AssertionError.
Proof.
  intros He. cbn [gather scatter event_dim_none_or_zero].
  by rewrite (proj2 (Z.eqb_neq _ _) He).
Qed.

Lemma number_event_dim_asserts_witness :
  (2 ≠ 0)
  ∧ gather [] (VNumber 1) [] (Some 2) None = Raise AssertionError
  ∧ gather [] (VBool 1) [] (Some 2) None = Raise AssertionError
  ∧ scatter 0 [] (VNumber 1) [] None (Some 2) None = Raise AssertionError
  ∧ scatter 0 [] (VBool 1) [] None (Some 2) None = Raise AssertionError.
Proof.
  assert (2 ≠ 0) as H by lia. split; [exact H |].
  exact (number_event_dim_asserts 0 [] 1 [] 2 None None H).
Defined.
(** ** scatter: the requests it can serve *)

Section ScatterRequests.

Context {A : Type}.
Variable zero : A.

Lemma result_shape_loop_plates (plates : Plates) e (m : dict string Z)
    (ixs : IndexSet) (bs rs : list nat) :
  for_each (result_shape_step plates e m) ixs bs = Ok rs →
  ∀ name, name ∈ keys ixs → is_Some (dict_get plates name).
Proof.
  revert bs. induction ixs as [| [name0 S0] ixs IH]; intros bs Hrun name;
    [by intros ?%elem_of_nil |].
  rewrite for_each_cons in Hrun.
  destruct (result_shape_step plates e m bs (name0, S0)) as [bs1 |] eqn:Hstep;
    [| done].
  rewrite res_bind_Ok in Hrun. unfold keys. cbn.
  intros [-> | Hin]%elem_of_cons; [| by eapply IH].
  unfold result_shape_step, dict_item in Hstep.
  by destruct (dict_get plates name0).
Qed.

(** X15: Allocation reads the registry: with [result=None], a name of the index
    set that is not a registered plate makes [_scatter_tensor] raise, also
    when [name_to_dim] is passed and holds the name. *)
Theorem scatter_unregistered_name_raises (plates : Plates) (v : Tensor A)
    (ix : IndexSet) (event_dim : option Z) (name_to_dim : option (dict string Z))
    (name : string) (S : gset nat) :
  (name, S) ∈ ix → S ≠ ∅ → dict_get plates name = None →
  ∃ err, _scatter_tensor zero plates v ix None event_dim name_to_dim = Raise err.
Proof.
  intros Hin Hne Hget.
  destruct (_scatter_tensor zero plates v ix None event_dim name_to_dim)
    as [r | err] eqn:Hrun; [exfalso | by eexists].
  pose proof (scatter_tensor_inv zero _ _ _ _ _ _ _ _ _ eq_refl eq_refl Hrun)
    as (value & ix_v & r0 & index & _ & _ & Hr0 & _).
  cbn in Hr0. destruct Hr0 as (bs & rs & _ & Hrs & _).
  destruct (result_shape_loop_plates _ _ _ _ _ _ Hrs name) as [f Hf]; [| congruence].
  apply elem_of_keys. exists (S ∪ default ∅ (dict_get ix_v name)).
  apply elem_of_union_indexset. split; [set_solver |]. left. by exists S.
Qed.

(** X16: A request on an axis along which the value is not broadcast has to be
    one index or the indices [{0, ..., k - 1}]: the value is gathered to
    the [k] requested indices, the indices of the gathered value,
    [{0, ..., k - 1}], are added to the request, and the gathered value is
    then assigned to the positions of the enlarged request, which it fits
    only when nothing was added. Any other request makes [_scatter_tensor]
    raise, with or without a [result]. *)
Theorem scatter_request_single_or_prefix (plates : Plates) (v : Tensor A)
    (ix : IndexSet) (result : option (Tensor A)) (event_dim : option Z)
    (name_to_dim : option (dict string Z)) (r' : Tensor A) :
  let e := default 0 event_dim in
  let m := default (plate_dims plates) name_to_dim in
  dims_distinct m e → (∀ name d, (name, d) ∈ m → d < 0) →
  0 ≤ e ≤ Z.of_nat (ndim v) → NoDup (keys ix) →
  _scatter_tensor zero plates v ix result event_dim name_to_dim = Ok r' →
  ∀ name S j n, (name, S) ∈ ix → axis_of m e (ndim v) name = Some j →
    shape v !! j = Some n → n ≠ 1%nat →
    size S = 1%nat ∨ S = set_range (size S).
Proof.
  intros e m Hdims Hneg He Hix Hrun name S j n Hin Haxv Hn Hn1.
  destruct (decide (size S = 1%nat)) as [| Hs1]; [by left |]. right.
  destruct (decide (size S = 0%nat)) as [Hs0 | Hs0].
  { rewrite Hs0. apply size_empty_inv in Hs0. apply leibniz_equiv in Hs0.
    rewrite Hs0. done. }
  assert (1 < size S)%nat as Hbig by lia.
  pose proof (scatter_tensor_inv zero e m _ _ _ _ _ _ _ eq_refl eq_refl Hrun)
    as (value & ix_v & r0 & index & Hval & Hixv & _ & Hindex & Hput).
  cbn [indices_of] in Hixv. apply indices_of_shape_inv in Hixv.
  set (trimmed := py_slice_to (shape value) (Z.of_nat (length (shape value)) - e))
    in Hixv.
  assert (∀ name, name ∈ keys ix → name ∈ keys m) as Hsub
    by (by eapply gather_loop_keys).
  assert (names_axes m e (union ix ix_v)) as Hwf
    by (rewrite Hixv; by apply names_axes_merged).
  assert (names_axes m e ix) as Hwfix by (by apply names_axes_dims).
  destruct (gather_loop_spec e m ix v value Hwfix Hval) as (Hnv & Hvnamed & _).
  pose proof (Hvnamed name S j Hin Haxv) as Hvj.
  rewrite decide_False in Hvj by congruence.
  destruct Hwfix as (_ & Hd & _).
  destruct (Hd name) as (d & Hdget & Hde); [apply elem_of_keys; eauto |].
  assert (d < 0) as Hdneg by (eapply Hneg, dict_get_Some_elem, Hdget).
  pose proof (proj1 (axis_of_neg m e _ name d j Hdget Hde) Haxv) as [Hjle Hj].
  assert (trimmed = take (ndim value - Z.to_nat e) (shape value)) as Htrim.
  { unfold trimmed, py_slice_to, ndim in *.
    rewrite (proj2 (Z.ltb_ge _ _)) by lia. f_equal. lia. }
  assert (length trimmed = (ndim value - Z.to_nat e)%nat) as Htrimlen.
  { rewrite Htrim, length_take. unfold ndim in *. lia. }
  assert (dict_get ix_v name = Some (set_range (size S))) as Hixvn.
  { rewrite Hixv. apply dict_get_shape_entries; [apply Hdims |].
    exists d, (size S). split; [done |]. split; [lia |]. split; [| done].
    apply py_getitem_Ok. exists j. split.
    - rewrite norm_axis_neg by done.
      rewrite (proj2 (Z.leb_le _ _)) by lia. f_equal. lia.
    - rewrite Htrim, lookup_take_lt; [done | lia]. }
  assert ((name, S ∪ set_range (size S)) ∈ union ix ix_v) as Hmerged.
  { apply elem_of_union_indexset. split; [| left; exists S; by rewrite Hixvn].
    intros Hempty. apply Hs0. apply size_empty_iff. set_solver. }
  edestruct (index_loop_spec e m r0) as (Hilen & Hsome & Hinamed & Hiother);
    [exact Hwf | | exact Hindex |]; [by rewrite length_fmap, length_seq |].
  destruct (Hsome name) as [i Hax]; [apply elem_of_keys; eauto |].
  pose proof (proj1 (axis_of_neg m e _ name d i Hdget Hde) Hax) as [Hile Hi].
  apply index_put_inv in Hput as (_ & _ & _ & Hexp & _).
  pose proof (expandable_strip_lookup value _ j i (size S) Hexp Hvj) as Htarget.
  rewrite !length_fmap, Hilen in Htarget.
  assert (i < ndim r0)%nat as Hilt by lia.
  specialize (Htarget ltac:(lia) ltac:(lia) Hilt).
  rewrite !list_lookup_fmap in Htarget.
  destruct (lookup_lt_is_Some_2 (shape r0) i Hilt) as [nr Hnr].
  destruct (decide (1 < nr)%nat) as [Hnrbig | Hnrsmall].
  - rewrite (Hinamed name _ i nr Hmerged Hax Hnr Hnrbig) in Htarget.
    cbn in Htarget. rewrite length_sorted in Htarget. injection Htarget as Hsize.
    assert (S = S ∪ set_range (size S)) as HS
      by (apply set_subseteq_size_eq; [set_solver | lia]).
    symmetry. apply set_subseteq_size_eq; [set_solver |].
    by rewrite size_set_range.
  - exfalso. rewrite Hiother in Htarget.
    2:{ intros name' n' _ _ Hn'. rewrite Hnr in Hn'. injection Hn' as <-. lia. }
    rewrite list_lookup_fmap, lookup_seq_lt in Htarget by done.
    cbn in Htarget. rewrite Hnr in Htarget. cbn in Htarget.
    rewrite length_seq in Htarget. injection Htarget as Heq. lia.
Qed.

End ScatterRequests.

Lemma a_dims_distinct (size : nat) :
  dims_distinct (plate_dims [("a", mkFrame "a" (-1) size 0)]) 0.
Proof.
  split; [apply NoDup_singleton |]. split.
  - intros name d [= -> ->]%list_elem_of_singleton. lia.
  - by intros name1 name2 d [= -> ->]%list_elem_of_singleton
      [= ->]%list_elem_of_singleton.
Qed.

Lemma scatter_unregistered_name_raises_witness :
  let plates : Plates := [("a", mkFrame "a" (-1) 3 0)] in
  let v : Tensor Z := mkTensor [2]%nat (fun idx => Z.of_nat (sum_list idx)) in
  let ix : IndexSet := [("b", {[0; 1]}%nat)] in
  let name_to_dim : dict string Z := [("a", -1); ("b", -2)] in
  ("b", {[0; 1]}%nat) ∈ ix ∧ ({[0; 1]}%nat : gset nat) ≠ ∅
  ∧ dict_get plates "b" = None
  ∧ (∃ err, _scatter_tensor 0 plates v ix None None (Some name_to_dim) = Raise err)
  ∧ _scatter_tensor 0 plates v ix None None (Some name_to_dim) = Raise KeyError.
Proof.
  cbn zeta.
  assert (("b", {[0; 1]}%nat) ∈ ([("b", {[0; 1]}%nat)] : IndexSet)) as H1 by left.
  assert (({[0; 1]}%nat : gset nat) ≠ ∅) as H2 by set_solver.
  assert (dict_get ([("a", mkFrame "a" (-1) 3 0)] : Plates) "b" = None) as H3
    by reflexivity.
  split; [exact H1 |]. split; [exact H2 |]. split; [exact H3 |].
  split; [| vm_compute; reflexivity].
  exact (scatter_unregistered_name_raises 0 [("a", mkFrame "a" (-1) 3 0)]
           (mkTensor [2]%nat (fun idx => Z.of_nat (sum_list idx)))
           [("b", {[0; 1]}%nat)] None (Some [("a", -1); ("b", -2)]) "b" _ H1 H2 H3).
Defined.

(** The first two of three positions are a request that is served. *)
Lemma scatter_request_single_or_prefix_witness :
  let plates : Plates := [("a", mkFrame "a" (-1) 3 0)] in
  let v : Tensor Z := mkTensor [2; 3]%nat (fun idx => Z.of_nat (sum_list idx)) in
  let ix : IndexSet := [("a", set_range 2)] in
  dims_distinct (plate_dims plates) 0
  ∧ (∀ name d, (name, d) ∈ plate_dims plates → d < 0)
  ∧ 0 ≤ 0 ≤ Z.of_nat (ndim v) ∧ NoDup (keys ix)
  ∧ ∃ r', _scatter_tensor 0 plates v ix None None None = Ok r'
          ∧ ∀ name S j n, (name, S) ∈ ix →
              axis_of (plate_dims plates) 0 (ndim v) name = Some j →
              shape v !! j = Some n → n ≠ 1%nat →
              size S = 1%nat ∨ S = set_range (size S).
Proof.
  cbn zeta.
  set (plates := [("a", mkFrame "a" (-1) 3 0)] : Plates).
  set (v := mkTensor [2; 3]%nat (fun idx => Z.of_nat (sum_list idx)) : Tensor Z).
  set (ix := [("a", set_range 2)] : IndexSet).
  pose proof (a_dims_distinct 3) as H1.
  assert (∀ name d, (name, d) ∈ plate_dims plates → d < 0) as H2.
  { intros name d [= -> ->]%list_elem_of_singleton. lia. }
  assert (0 ≤ 0 ≤ Z.of_nat (ndim v)) as H3 by (cbn; lia).
  assert (NoDup (keys ix)) as H4 by apply NoDup_singleton.
  do 4 (split; [done |]).
  destruct (_scatter_tensor 0 plates v ix None None None) as [r' |] eqn:Hrun;
    [| by vm_compute in Hrun].
  exists r'. split; [done |].
  exact (scatter_request_single_or_prefix 0 plates v ix None None None r'
           H1 H2 H3 H4 Hrun).
Defined.
(** ** scatter of a number *)

Lemma omap_shape_entry_nil (m : dict string Z) :
  (∀ name d, (name, d) ∈ m → d < 0) → omap (shape_entry []) m = [].
Proof.
  induction m as [| [name d] m IH]; intros Hneg; [done |].
  rewrite omap_cons_eq. unfold shape_entry at 1. cbn [snd length].
  assert (d < 0) as Hd by (apply (Hneg name); left).
  rewrite (proj2 (Z.leb_gt _ _)) by lia.
  apply IH. intros name' d' Hin. apply (Hneg name'). by right.
Qed.


Section ScatterNumber.

Context {A : Type}.
Variable zero x : A.
Variable plates : Plates.
Variable m : dict string Z.
Variable ix : IndexSet.

Hypothesis Hdims : dims_distinct m 0.
Hypothesis Hix : NoDup (keys ix).
Hypothesis Hreg : ∀ name S, (name, S) ∈ ix →
  ∃ f, dict_get plates name = Some f ∧ dict_get m name = Some (f_dim f)
       ∧ S ≠ ∅ ∧ ∀ k, k ∈ S → (k < f_size f)%nat.

Let ones : nat :=
  Z.to_nat (max_list_Z (((fun nf => 0 - f_dim nf.2) <$> plates) ++ [0])).





End ScatterNumber.



(** The tensor of this instance. *)
Example scatter_number_indicator_run :
  match scatter 0 [("a", mkFrame "a" (-1) 3 0)] (VNumber 7) [("a", {[0; 2]}%nat)]
          None None None with
  | Ok r => (shape r, elem r <$> [[0]; [1]; [2]]%nat) = ([3]%nat, [7; 0; 7])
  | Raise _ => False
  end.
Proof. vm_compute. reflexivity. Qed.
(** ** scatter of a partitioned value: a call that returns *)

Section StoreMore.

Context {A : Type} (zero : A) {World : Type}.
Variable get_index_plates : World → Plates.
Variable add_indices_handlers : IndexSet → World → World.

Lemma scatter_in_store_Ok (value : pyval A) indexset result event_dim name_to_dim
    (σ σ' : Store (A:=A) (World:=World)) l :
  scatter_in_store zero get_index_plates value indexset result event_dim
    name_to_dim σ = (Ok l, σ') →
  world σ' = world σ
  ∧ effects σ' = effects σ ++ [EScatter indexset result]
  ∧ match result with Some l0 => l = l0 | None => l ∉ dom (tensors σ) end
  ∧ ∀ l', l' ≠ l → tensors σ' !! l' = tensors σ !! l'.
Proof.
  unfold scatter_in_store. cbn [tensors world effects].
  destruct result as [l0 |].
  - destruct (tensors σ !! l0) as [r |]; [| done].
    destruct (scatter _ _ _ _ _ _ _) as [r' |]; [| done].
    intros [= <- <-]. cbn. split; [done |]. split; [done |]. split; [done |].
    intros l' Hne. by rewrite lookup_insert_ne.
  - destruct (scatter _ _ _ _ _ _ _) as [r' |]; [| done].
    intros [= <- <-]. cbn. split; [done |]. split; [done |].
    split; [apply is_fresh |].
    intros l' Hne. by rewrite lookup_insert_ne.
Qed.

Lemma scatter_partitions_Ok (items : list (pykey * pyval A)) result event_dim
    name_to_dim (σ σ' : Store (A:=A) (World:=World)) out :
  scatter_partitions zero get_index_plates items result event_dim name_to_dim σ
  = (Ok out, σ') →
  world σ' = world σ
  ∧ length (key_indexsets (keys items)) = length items
  ∧ match items with
    | [] => out = result ∧ σ' = σ
    | _ :: _ =>
        ∃ l, out = Some l
             ∧ match result with Some l0 => l = l0 | None => l ∉ dom (tensors σ) end
             ∧ (∀ l', l' ≠ l → tensors σ' !! l' = tensors σ !! l')
             ∧ effects σ'
               = effects σ
                 ++ match key_indexsets (keys items) with
                    | [] => []
                    | ix1 :: rest =>
                        EScatter ix1 result :: ((fun ix => EScatter ix (Some l)) <$> rest)
                    end
    end.
Proof.
  revert result σ. induction items as [| [k value] items IH]; intros result σ.
  - cbn. by intros [= <- <-].
  - cbn [scatter_partitions]. destruct k as [indices | k]; [| done].
    destruct (scatter_in_store _ _ _ _ _ _ _ _) as [[l |] σ1] eqn:Hstep; [| done].
    apply scatter_in_store_Ok in Hstep as (Hw1 & He1 & Hl & Hframe1).
    intros (Hw & Hlen & Hrest)%IH.
    split; [congruence |].
    change (key_indexsets (keys ((KIndexSet indices, value) :: items)))
      with (indices :: key_indexsets (keys items)).
    split; [cbn; by rewrite Hlen |].
    destruct items as [| item items].
    + destruct Hrest as [-> ->]. exists l. split; [done |]. split; [done |].
      split; [done |]. by rewrite He1.
    + destruct Hrest as (l' & -> & -> & Hframe & Heff).
      exists l. split; [done |]. split; [done |]. split.
      * intros l'' Hne. by rewrite Hframe, Hframe1.
      * rewrite Heff, He1, <- app_assoc. f_equal. cbn [app]. f_equal.
        by destruct (key_indexsets (keys (item :: items))).
Qed.

(** X18: When [_scatter_dict] returns, it returns one tensor: the one passed as
    [result], or, without one, a tensor that did not exist before the call;
    no other tensor has changed. [add_indices] was called once, before any
    partition was scattered, with the union of all the keys; the partitions
    were scattered in the order of the mapping, the first into the [result]
    passed to the call and every later one into the tensor that is
    returned. *)
Theorem scatter_dict_threads_result (partitioned_values : dict pykey (pyval A))
    (result : option loc) (event_dim : option Z)
    (name_to_dim : option (dict string Z))
    (σ σ' : Store (A:=A) (World:=World)) (out : option loc) :
  _scatter_dict zero get_index_plates add_indices_handlers partitioned_values
    result event_dim name_to_dim σ = (Ok out, σ') →
  let ixs := key_indexsets (keys partitioned_values) in
  ∃ l, out = Some l
       ∧ match result with Some l0 => l = l0 | None => l ∉ dom (tensors σ) end
       ∧ world σ' = add_indices_handlers (union_all ixs) (world σ)
       ∧ (∀ l', l' ≠ l → tensors σ' !! l' = tensors σ !! l')
       ∧ length ixs = length partitioned_values
       ∧ effects σ'
         = effects σ
           ++ EAddIndices (union_all ixs)
              :: match ixs with
                 | [] => []
                 | ix1 :: rest =>
                     EScatter ix1 result :: ((fun ix => EScatter ix (Some l)) <$> rest)
                 end.
Proof.
  unfold _scatter_dict.
  destruct partitioned_values as [| kv rest]; [done |].
  change (negb (0 <? length (kv :: rest))%nat) with false. cbn match.
  destruct (negb (forallb isinstance_IndexSet (keys (kv :: rest)))); [done |].
  unfold add_indices. intros (Hw & Hlen & l & -> & Hl & Hframe & Heff)%scatter_partitions_Ok.
  cbn [tensors world effects] in *. cbn zeta.
  exists l. split; [done |]. split; [done |]. split; [done |]. split; [done |].
  split; [done |]. by rewrite Heff, <- app_assoc.
Qed.

End StoreMore.

(** The two halves of a plate of size 2, scattered into a new tensor. *)
Lemma scatter_dict_threads_result_witness :
  let plates : Plates := [("a", mkFrame "a" (-1) 2 0)] in
  let pv : dict pykey (pyval Z) :=
    [(KIndexSet [("a", {[0%nat]})], VNumber 5);
     (KIndexSet [("a", {[1%nat]})], VNumber 7)] in
  let σ : Store (A:=Z) (World:=Plates) := mkStore ∅ plates [] in
  let run := _scatter_dict 0 id (fun _ w => w) pv None None None σ in
  let ixs := key_indexsets (keys pv) in
  run = (Ok (Some 0%nat), run.2)
  ∧ ∃ l, Some 0%nat = Some l
         ∧ (l ∉ dom (tensors σ))
         ∧ world run.2 = world σ
         ∧ (∀ l', l' ≠ l → tensors run.2 !! l' = tensors σ !! l')
         ∧ length ixs = length pv
         ∧ effects run.2
           = effects σ
             ++ EAddIndices (union_all ixs)
                :: match ixs with
                   | [] => []
                   | ix1 :: rest =>
                       EScatter ix1 None :: ((fun ix => EScatter ix (Some l)) <$> rest)
                   end.
Proof.
  cbn zeta.
  set (plates := [("a", mkFrame "a" (-1) 2 0)] : Plates).
  set (pv := [(KIndexSet [("a", {[0%nat]})], VNumber 5);
              (KIndexSet [("a", {[1%nat]})], VNumber 7)] : dict pykey (pyval Z)).
  set (σ := mkStore ∅ plates [] : Store (A:=Z) (World:=Plates)).
  assert (_scatter_dict 0 id (fun _ w => w) pv None None None σ
          = (Ok (Some 0%nat), (_scatter_dict 0 id (fun _ w => w) pv None None None σ).2))
    as H by (vm_compute; reflexivity).
  split; [exact H |].
  exact (scatter_dict_threads_result 0 id (fun _ w => w) pv None None None σ _ _ H).
Defined.

(** The tensor of this instance holds both partitions. *)
Example scatter_dict_run :
  let plates : Plates := [("a", mkFrame "a" (-1) 2 0)] in
  let pv : dict pykey (pyval Z) :=
    [(KIndexSet [("a", {[0%nat]})], VNumber 5);
     (KIndexSet [("a", {[1%nat]})], VNumber 7)] in
  let run := _scatter_dict 0 id (fun _ w => w) pv None None None (mkStore ∅ plates []) in
  (fun t => (shape t, elem t <$> [[0]; [1]]%nat)) <$> (tensors run.2 !! 0%nat)
  = Some ([2]%nat, [5; 7]).
Proof. vm_compute. reflexivity. Qed.
(** ** The lazy plate *)

Lemma dict_get_plate_dims (plates : Plates) name :
  dict_get (plate_dims plates) name = f_dim <$> dict_get plates name.
Proof.
  induction plates as [| [name' f] plates IH]; [done |]. cbn.
  destruct (decide (name' = name)); [done | exact IH].
Qed.

Lemma keys_plate_dims (plates : Plates) : keys (plate_dims plates) = keys plates.
Proof.
  unfold keys, plate_dims. rewrite <- list_fmap_compose. by apply list_fmap_ext.
Qed.

Lemma keys_union_nonempty (a b : IndexSet) name :
  (∀ name S, (name, S) ∈ a → S ≠ ∅) → (∀ name S, (name, S) ∈ b → S ≠ ∅) →
  name ∈ keys (union a b) ↔ name ∈ keys a ∨ name ∈ keys b.
Proof.
  intros Ha Hb. split; [apply keys_union_indexset |].
  destruct (decide (name ∈ keys a)) as [Hin | Hnot].
  - intros _. apply elem_of_keys in Hin as [Sa Hin].
    apply elem_of_keys. exists (Sa ∪ default ∅ (dict_get b name)).
    apply elem_of_union_indexset. split; [| left; by exists Sa].
    specialize (Ha name Sa Hin). set_solver.
  - intros [Hin | Hin]; [done |]. apply elem_of_keys in Hin as [Sb Hin].
    apply elem_of_keys. exists Sb. apply elem_of_union_indexset.
    split; [by eapply Hb |]. by right.
Qed.

Lemma shape_entries_nonempty (sh : list nat) (m : dict string Z) name S :
  (name, S) ∈ omap (shape_entry sh) m → S ≠ ∅.
Proof.
  intros ([name' d] & _ & He)%list_elem_of_omap.
  apply shape_entry_Some in He as (_ & n & _ & _ & Hn & ->).
  intros Hempty. assert (0%nat ∈ set_range n) as H0 by (apply elem_of_set_range; lia).
  rewrite Hempty in H0. by apply not_elem_of_empty in H0.
Qed.

(** A name is among the indices of a shape exactly when its plate's axis is
    there and longer than 1. *)
Lemma keys_shape_entries_plates (plates : Plates) (sh : list nat) name :
  NoDup (keys plates) → (∀ name f, (name, f) ∈ plates → f_dim f < 0) →
  name ∈ keys (omap (shape_entry sh) (plate_dims plates))
  ↔ ∃ f n, dict_get plates name = Some f ∧ py_getitem sh (f_dim f) = Ok n ∧ (1 < n)%nat.
Proof.
  intros Hnd Hneg.
  assert (NoDup (keys (plate_dims plates))) as Hnd' by (by rewrite keys_plate_dims).
  split.
  - intros [S Hin]%elem_of_keys.
    assert (dict_get (omap (shape_entry sh) (plate_dims plates)) name = Some S) as Hget.
    { apply dict_get_elem; [| done].
      eapply sublist_NoDup; [exact Hnd' | apply keys_shape_entries]. }
    apply dict_get_shape_entries in Hget as (d & n & Hd & _ & Hn & Hn1 & _); [| done].
    rewrite dict_get_plate_dims in Hd.
    destruct (dict_get plates name) as [f |]; [| done]. injection Hd as <-. eauto.
  - intros (f & n & Hf & Hn & Hn1). apply elem_of_keys. exists (set_range n).
    apply dict_get_Some_elem, dict_get_shape_entries; [done |].
    exists (f_dim f), n. rewrite dict_get_plate_dims, Hf.
    split; [done |]. split; [| done].
    apply py_getitem_Ok in Hn as (i & Hi & _).
    assert (f_dim f < 0) as Hlt by (eapply Hneg, dict_get_Some_elem, Hf).
    rewrite norm_axis_neg in Hi by done.
    destruct (- f_dim f <=? Z.of_nat (length sh)) eqn:Hle; [| done].
    by apply Z.leb_le in Hle.
Qed.

Section LazyPlateProps.

Context {A Entries : Type}.
Variable site_is_subsample : Msg (A:=A) (Entries:=Entries) → bool.
Variable IndepMessenger_process_message :
  IndepMessenger → Msg (A:=A) (Entries:=Entries) → Msg (A:=A) (Entries:=Entries).

Local Abbreviation process_message :=
  (_process_message site_is_subsample IndepMessenger_process_message).

(** X19: The lazy plate applies where the site varies along it: for a sample
    site that is no subsample site, a registry of distinct names and
    negative dims, and a site whose value is a tensor with at least
    [event_dim] axes or is [None], [IndepMessenger]'s [_process_message] is
    run exactly when the plate's name is registered and, along the dim the
    registry gives it, the value's shape without its event axes or the
    distribution's batch shape has an axis longer than 1; otherwise the
    message is left as it is. The plate's own [dim] is not looked at. *)
Theorem lazy_plate_applies_where_site_varies (plates : Plates)
    (self : IndepMessenger) (msg : Msg (A:=A) (Entries:=Entries)) :
  let e := d_event_dim (msg_fn msg) in
  let value_batch := match msg_value msg with
                     | VTensor t => take (ndim t - Z.to_nat e) (shape t)
                     | _ => []
                     end in
  let varies := ∃ f n, dict_get plates (im_name self) = Some f
                       ∧ (py_getitem value_batch (f_dim f) = Ok n
                          ∨ py_getitem (d_batch_shape (msg_fn msg)) (f_dim f) = Ok n)
                       ∧ (1 < n)%nat in
  msg_type msg = "sample" → site_is_subsample msg = false →
  NoDup (keys plates) → (∀ name f, (name, f) ∈ plates → f_dim f < 0) →
  match msg_value msg with
  | VNone => True
  | VTensor t => 0 ≤ e ≤ Z.of_nat (ndim t)
  | _ => False
  end →
  (varies → process_message plates self msg
            = Ok (IndepMessenger_process_message self msg))
  ∧ (¬ varies → process_message plates self msg = Ok msg).
Proof.
  intros e value_batch varies Htype Hsub Hnd Hneg Hvalue.
  assert (∀ name d, (name, d) ∈ plate_dims plates → d < 0) as Hneg'.
  { intros name d ([name' f] & [= -> ->] & Hin)%list_elem_of_fmap. by eapply Hneg. }
  assert (indices_of plates (msg_value msg) (mkKwargs (Some (Some e)) None)
          = Ok (omap (shape_entry value_batch) (plate_dims plates))) as Ha.
  { unfold value_batch. destruct (msg_value msg) as [| | | | t |]; try done.
    - cbn [indices_of]. symmetry. f_equal. apply omap_shape_entry_nil, Hneg'.
    - cbn [indices_of].
      change (mkKwargs (Some (Some e)) None)
        with (mkKwargs (Some (Some e)) (default None None : option (option (dict string Z)))).
      transitivity (_indices_of_shape plates (shape t)
                      (mkKwargs (Some (Some e)) (Some (Some (plate_dims plates)))));
        [done |].
      rewrite indices_of_shape_total.
      + replace (py_slice_to (shape t) (Z.of_nat (length (shape t)) - e))
          with (take (ndim t - Z.to_nat e) (shape t)); [done |].
        unfold py_slice_to, ndim in *.
        rewrite (proj2 (Z.ltb_ge _ _)) by lia. f_equal. lia.
      + intros name d Hin. apply Hneg' in Hin. lia. }
  assert (indices_of (A:=A) plates (VDistribution (d_batch_shape (msg_fn msg)))
            (mkKwargs None None)
          = Ok (omap (shape_entry (d_batch_shape (msg_fn msg))) (plate_dims plates)))
    as Hb.
  { cbn [indices_of kw_name_to_dim].
    transitivity (_indices_of_shape plates (d_batch_shape (msg_fn msg))
                    (mkKwargs (Some (Some 0)) (Some (Some (plate_dims plates)))));
      [done |].
    rewrite indices_of_shape_total.
    - replace (py_slice_to (d_batch_shape (msg_fn msg))
                 (Z.of_nat (length (d_batch_shape (msg_fn msg))) - 0))
        with (d_batch_shape (msg_fn msg)); [done |].
      unfold py_slice_to.
      rewrite (proj2 (Z.ltb_ge _ _)) by lia. rewrite take_ge; [done | lia].
    - intros name d Hin. apply Hneg' in Hin. lia. }
  assert (process_message plates self msg
          = if bool_decide (im_name self
                            ∈ keys (union (omap (shape_entry value_batch) (plate_dims plates))
                                      (omap (shape_entry (d_batch_shape (msg_fn msg)))
                                         (plate_dims plates))))
            then Ok (IndepMessenger_process_message self msg)
            else Ok msg) as Hrun.
  { unfold _process_message.
    rewrite Htype, Hsub, bool_decide_eq_true_2 by done. cbn [negb orb].
    fold e. by rewrite Ha, res_bind_Ok, Hb, res_bind_Ok. }
  assert (im_name self
          ∈ keys (union (omap (shape_entry value_batch) (plate_dims plates))
                    (omap (shape_entry (d_batch_shape (msg_fn msg))) (plate_dims plates)))
          ↔ varies) as Hiff.
  { rewrite keys_union_nonempty by apply shape_entries_nonempty.
    rewrite !keys_shape_entries_plates by done. unfold varies. split.
    - intros [(f & n & Hf & Hn & Hn1) | (f & n & Hf & Hn & Hn1)];
        exists f, n; eauto.
    - intros (f & n & Hf & [Hn | Hn] & Hn1); [left | right]; eauto. }
  rewrite Hrun. split.
  - intros Hv. by rewrite bool_decide_eq_true_2 by (by apply Hiff).
  - intros Hv. by rewrite bool_decide_eq_false_2 by (by rewrite Hiff).
Qed.

(** X20: What the lazy plate leaves alone: a message that is no sample message,
    or is one of a subsample site, is returned as it is, and nothing is
    raised; and a plate whose name the registry does not hold changes no
    message, whatever its own [dim] and [size] are. *)
Theorem lazy_plate_leaves_other_messages (plates : Plates) (self : IndepMessenger)
    (msg : Msg (A:=A) (Entries:=Entries)) :
  (msg_type msg ≠ "sample" ∨ site_is_subsample msg = true →
   process_message plates self msg = Ok msg)
  ∧ (im_name self ∉ keys plates →
     ∀ msg', process_message plates self msg = Ok msg' → msg' = msg).
Proof.
  unfold _process_message. split.
  - intros [Hne | Hsub].
    + by rewrite bool_decide_eq_false_2 by done.
    + rewrite Hsub. by destruct (negb _).
  - intros Hnot msg'. destruct (_ || _); [by intros [= <-] |].
    destruct (indices_of plates (msg_value msg) _) as [a |] eqn:Ha; [| done].
    rewrite res_bind_Ok.
    destruct (indices_of plates (VDistribution _) _) as [b |] eqn:Hb; [| done].
    rewrite res_bind_Ok.
    rewrite bool_decide_eq_false_2; [by intros [= <-] |].
    assert (∀ ix, (ix = [] ∨ ∃ sh m, Some (plate_dims plates) = Some m
                                     ∧ ix = omap (shape_entry sh) m) →
                  im_name self ∉ keys ix) as Hkeys.
    { intros ix [-> | (sh & m & [= <-] & ->)]; [by intros ?%elem_of_nil |].
      intros Hin. apply Hnot. rewrite <- keys_plate_dims.
      eapply elem_of_sublist; [exact Hin | apply keys_shape_entries]. }
    apply indices_of_inv, Hkeys in Ha. apply indices_of_inv, Hkeys in Hb.
    by intros [? | ?]%keys_union_indexset.
Qed.

End LazyPlateProps.

(** A site whose value has 3 positions along the plate [a], and a site
    whose value and distribution have one: the first is given to
    [IndepMessenger], which here records the plate in the message's other
    entries; the second is not. *)
Lemma lazy_plate_applies_where_site_varies_witness :
  let plates : Plates := [("a", mkFrame "a" (-1) 3 0)] in
  let self := mkIndepMessenger "a" (-1) 3 0 in
  let process := fun (self : IndepMessenger) (msg : Msg (A:=Z) (Entries:=list string)) =>
                   mkMsg (msg_type msg) (msg_fn msg) (msg_value msg)
                     (im_name self :: msg_entries msg) in
  let msg := mkMsg "sample" (mkDistribution [] 1)
               (VTensor (mkTensor [3; 2]%nat (fun _ => 0))) [] in
  let msg1 := mkMsg "sample" (mkDistribution [1]%nat 1)
                (VTensor (mkTensor [1; 2]%nat (fun _ => 0))) [] in
  _process_message (fun _ => false) process plates self msg = Ok (process self msg)
  ∧ _process_message (fun _ => false) process plates self msg1 = Ok msg1.
Proof.
  cbn zeta.
  set (plates := [("a", mkFrame "a" (-1) 3 0)] : Plates).
  set (self := mkIndepMessenger "a" (-1) 3 0).
  set (process := fun (self : IndepMessenger) (msg : Msg (A:=Z) (Entries:=list string)) =>
                    mkMsg (msg_type msg) (msg_fn msg) (msg_value msg)
                      (im_name self :: msg_entries msg)).
  assert (NoDup (keys plates)) as Hnd by apply NoDup_singleton.
  assert (∀ name f, (name, f) ∈ plates → f_dim f < 0) as Hneg.
  { intros name f [= -> ->]%list_elem_of_singleton. cbn. lia. }
  split.
  - refine (proj1 (lazy_plate_applies_where_site_varies (fun _ => false) process
                     plates self
                     (mkMsg "sample" (mkDistribution [] 1)
                        (VTensor (mkTensor [3; 2]%nat (fun _ => 0))) [])
                     eq_refl eq_refl Hnd Hneg _) _).
    + cbn. lia.
    + exists (mkFrame "a" (-1) 3 0), 3%nat.
      split; [reflexivity |]. split; [left; reflexivity | lia].
  - refine (proj2 (lazy_plate_applies_where_site_varies (fun _ => false) process
                     plates self
                     (mkMsg "sample" (mkDistribution [1]%nat 1)
                        (VTensor (mkTensor [1; 2]%nat (fun _ => 0))) [])
                     eq_refl eq_refl Hnd Hneg _) _).
    + cbn. lia.
    + intros (f & n & Hf & Hn & Hn1). cbn in Hf. injection Hf as <-.
      cbn in Hn. destruct Hn as [[= <-] | [= <-]]; lia.
Defined.

(** ** The device of a sample site *)

Section SampleDeviceProps.

Context {Device : Type}.

Lemma innermost_base_dist_None (dist : DistObj Device) :
  base_dist (innermost_base_dist dist) = None.
Proof.
  revert dist. fix IH 1. intros [[b |] names a]; cbn; [apply IH | done].
Qed.

Lemma first_tensor_device_Ok (a : dict string (pyobj Device)) names device :
  first_tensor_device a names = DeviceOk device ↔
  ∃ before name after,
    names = before ++ name :: after
    ∧ dict_get a name = Some (ObjTensor device)
    ∧ ∀ n, n ∈ before → dict_get a n = Some ObjOther.
Proof.
  induction names as [| name names IH]; cbn.
  - split; [done |]. intros (before & name & after & Heq & _).
    by destruct before.
  - destruct (dict_get a name) as [[dev |] |] eqn:Hget.
    + split.
      * intros [= ->]. exists [], name, names. split; [done |]. split; [done |].
        by intros n ?%elem_of_nil.
      * intros ([| n0 before] & name' & after & Heq & Hdev & Hbefore).
        -- injection Heq as <- <-. congruence.
        -- injection Heq as <- _. specialize (Hbefore name ltac:(left)). congruence.
    + rewrite IH. split.
      * intros (before & name' & after & -> & Hdev & Hbefore).
        exists (name :: before), name', after. split; [done |]. split; [done |].
        intros n [-> | Hin]%elem_of_cons; [done | by apply Hbefore].
      * intros ([| n0 before] & name' & after & Heq & Hdev & Hbefore).
        -- injection Heq as <- <-. congruence.
        -- injection Heq as <- ->. exists before, name', after.
           split; [done |]. split; [done |]. intros n Hin. apply Hbefore. by right.
    + split; [done |].
      intros ([| n0 before] & name' & after & Heq & Hdev & Hbefore).
      * injection Heq as <- <-. congruence.
      * injection Heq as <- _. specialize (Hbefore name ltac:(left)). congruence.
Qed.

Lemma first_tensor_device_ValueError (a : dict string (pyobj Device)) names :
  first_tensor_device a names = DeviceRaise DeviceValueError ↔
  ∀ n, n ∈ names → dict_get a n = Some ObjOther.
Proof.
  induction names as [| name names IH]; cbn.
  - split; [by intros _ n ?%elem_of_nil | done].
  - destruct (dict_get a name) as [[dev |] |] eqn:Hget.
    + split; [done |]. intros H. specialize (H name ltac:(left)). congruence.
    + rewrite IH. split.
      * intros H n [-> | Hin]%elem_of_cons; [done | by apply H].
      * intros H n Hin. apply H. by right.
    + split; [done |]. intros H. specialize (H name ltac:(left)). congruence.
Qed.

(** X21: The device of a sample site: that of the value when the value is a
    tensor, whatever the distribution is; otherwise that of the first
    parameter, in the order of [arg_constraints], of the innermost base
    distribution that is a tensor, every parameter before it being an
    attribute that is no tensor. The parameters of the distributions that
    wrap the innermost one are not looked at. A value error is raised exactly
    when every parameter of the innermost distribution is an attribute that
    is no tensor. *)
Theorem sample_device_spec (dist : DistObj Device) :
  let inner := innermost_base_dist dist in
  base_dist inner = None
  ∧ (∀ device, get_sample_msg_device dist (ObjTensor device) = DeviceOk device)
  ∧ (∀ device,
       get_sample_msg_device dist ObjOther = DeviceOk device ↔
       ∃ before name after,
         arg_constraints inner = before ++ name :: after
         ∧ dict_get (attrs inner) name = Some (ObjTensor device)
         ∧ ∀ n, n ∈ before → dict_get (attrs inner) n = Some ObjOther)
  ∧ (get_sample_msg_device dist ObjOther = DeviceRaise DeviceValueError ↔
     ∀ n, n ∈ arg_constraints inner → dict_get (attrs inner) n = Some ObjOther).
Proof.
  cbn zeta. split; [apply innermost_base_dist_None |]. split; [done |].
  split; [intros device; apply first_tensor_device_Ok |].
  apply first_tensor_device_ValueError.
Qed.

End SampleDeviceProps.

(** A normal distribution whose [scale] is a tensor, three wrappers deep:
    the device is that of [scale], not that of a wrapper's [mask]. *)
Example sample_device_run :
  let normal := mkDistObj None ["loc"; "scale"]
                  [("loc", ObjOther); ("scale", ObjTensor "cuda:0")] in
  let masked := mkDistObj (Some normal) [] [("_mask", ObjTensor "cpu")] in
  let wrapped := mkDistObj (Some (mkDistObj (Some masked) [] [])) [] [] in
  get_sample_msg_device wrapped ObjOther = DeviceOk "cuda:0"
  ∧ get_sample_msg_device wrapped (ObjTensor "cuda:1") = DeviceOk "cuda:1"
  ∧ get_sample_msg_device (mkDistObj None ["loc"] [("loc", ObjOther)]) ObjOther
    = DeviceRaise (Device:=string) DeviceValueError.
Proof. done. Qed.
(** ** scatter of a value that does not vary along the requested plates *)

Lemma axis_of_shift (m : dict string Z) e (n1 n2 : nat) name j :
  (∀ name d, (name, d) ∈ m → d - e < 0) → (n1 ≤ n2)%nat →
  axis_of m e n1 name = Some j → axis_of m e n2 name = Some (n2 - n1 + j)%nat.
Proof.
  intros Hneg Hle Hax. unfold axis_of in Hax |- *.
  destruct (dict_get m name) as [d |] eqn:Hd; [| done]. cbn in Hax |- *.
  assert (d - e < 0) as Hlt by (eapply Hneg, dict_get_Some_elem, Hd).
  rewrite norm_axis_neg in Hax |- * by done.
  destruct (- (d - e) <=? Z.of_nat n1) eqn:H1; [| done]. apply Z.leb_le in H1.
  injection Hax as <-. rewrite (proj2 (Z.leb_le _ _)) by lia. f_equal. lia.
Qed.

Lemma axis_of_unshift (m : dict string Z) e (n1 n2 : nat) name i :
  (∀ name d, (name, d) ∈ m → d - e < 0) → (n1 ≤ n2)%nat → (n2 - n1 ≤ i)%nat →
  axis_of m e n2 name = Some i → axis_of m e n1 name = Some (i - (n2 - n1))%nat.
Proof.
  intros Hneg Hle Hi Hax. unfold axis_of in Hax |- *.
  destruct (dict_get m name) as [d |] eqn:Hd; [| done]. cbn in Hax |- *.
  assert (d - e < 0) as Hlt by (eapply Hneg, dict_get_Some_elem, Hd).
  rewrite norm_axis_neg in Hax |- * by done.
  destruct (- (d - e) <=? Z.of_nat n2) eqn:H2; [| done]. apply Z.leb_le in H2.
  injection Hax as <-. rewrite (proj2 (Z.leb_le _ _)) by lia. f_equal. lia.
Qed.

Section ScatterBroadcast.

Context {A : Type}.
Variable zero : A.
Variable e : Z.
Variable m : dict string Z.
Variable v : Tensor A.
Variable ix : IndexSet.

Hypothesis Hdims : dims_distinct m e.
Hypothesis Hneg : ∀ name d, (name, d) ∈ m → d < 0.
Hypothesis He : 0 ≤ e ≤ Z.of_nat (ndim v).
Hypothesis Hix : NoDup (keys ix).
Hypothesis Hkeys : ∀ name, name ∈ keys ix → name ∈ keys m.
Hypothesis Hne : ∀ name S, (name, S) ∈ ix → S ≠ ∅.
Hypothesis Hbro : ∀ name j, name ∈ keys ix →
  axis_of m e (ndim v) name = Some j → shape v !! j = Some 1%nat.

Let ix_v : IndexSet :=
  omap (shape_entry (py_slice_to (shape v) (Z.of_nat (length (shape v)) - e))) m.

Lemma sb_neg_e name d : (name, d) ∈ m → d - e < 0.
Proof. destruct Hdims as (_ & H & _). apply H. Qed.

Lemma sb_names_axes : names_axes m e ix.
Proof. by apply names_axes_dims. Qed.

Lemma sb_names_axes_merged : names_axes m e (union ix ix_v).
Proof. by apply names_axes_merged. Qed.

Lemma sb_gather : for_each (gather_step e m) ix v = Ok v.
Proof.
  pose proof sb_names_axes as Hwf. clear Hix Hkeys Hne.
  induction ix as [| [name S] ix' IH]; [done |].
  apply names_axes_cons in Hwf as (Hwf & (d & Hd & Hlt) & _).
  rewrite for_each_cons, (gather_step_cases _ _ _ _ _ d) by done.
  assert (name ∈ keys ((name, S) :: ix')) as Hin by left.
  destruct (axis_of m e (ndim v) name) as [j |] eqn:Hax.
  - rewrite decide_True by (by apply (Hbro name)).
    rewrite res_bind_Ok. apply IH; [| done].
    intros name' j' Hin'. apply Hbro. by right.
  - rewrite res_bind_Ok. apply IH; [| done].
    intros name' j' Hin'. apply Hbro. by right.
Qed.

Lemma sb_indices (plates : Plates) :
  indices_of plates (VTensor v) (mkKwargs (Some (Some e)) (Some (Some m))) = Ok ix_v.
Proof.
  cbn [indices_of]. apply indices_of_shape_total.
  intros name d Hin. apply Hneg in Hin. lia.
Qed.

Lemma sb_ixv_entry name S :
  (name, S) ∈ ix_v →
  ∃ j n, axis_of m e (ndim v) name = Some j ∧ shape v !! j = Some n
         ∧ (1 < n)%nat ∧ S = set_range n.
Proof.
  intros Hin.
  destruct (shape_entries_axis m e (shape v) name S Hneg He (proj1 Hdims) Hin)
    as (d & j & n & _ & Hax & Hn & Hbig & HS).
  exists j, n. done.
Qed.

Lemma sb_merged name S :
  (name, S) ∈ union ix ix_v ↔
  (name, S) ∈ ix ∨ ((name ∉ keys ix) ∧ (name, S) ∈ ix_v).
Proof.
  rewrite elem_of_union_indexset. split.
  - intros [Hnon [(Sa & Hin & ->) | [Hnot Hin]]]; [left | by right].
    destruct (dict_get ix_v name) as [Sv |] eqn:Hget; cbn.
    + exfalso. apply dict_get_Some_elem, sb_ixv_entry in Hget
        as (j & n & Hax & Hn & Hn1 & _).
      rewrite (Hbro name j) in Hn; [injection Hn as <-; lia | | done].
      apply elem_of_keys. eauto.
    + by assert (Sa ∪ ∅ = Sa) as -> by set_solver.
  - intros [Hin | [Hnot Hin]].
    + split; [by eapply Hne |]. left. exists S. split; [done |].
      destruct (dict_get ix_v name) as [Sv |] eqn:Hget; cbn; [| set_solver].
      exfalso. apply dict_get_Some_elem, sb_ixv_entry in Hget
        as (j & n & Hax & Hn & Hn1 & _).
      rewrite (Hbro name j) in Hn; [injection Hn as <-; lia | | done].
      apply elem_of_keys. eauto.
    + split; [by eapply shape_entries_nonempty | by right].
Qed.

(** The index tensors and the assignment, when the tensor [r0] that is
    written to has an axis for every axis of the value, of the same length
    wherever the value's axis is not of length 1, and every requested index
    is a position of its axis of [r0]. *)
Lemma sb_write (r0 : Tensor A) :
  (ndim v ≤ ndim r0)%nat →
  (∀ name S, (name, S) ∈ ix →
     ∃ i n, axis_of m e (ndim r0) name = Some i ∧ shape r0 !! i = Some n
            ∧ ∀ k, k ∈ S → (k < n)%nat) →
  (∀ j n, shape v !! j = Some n → n ≠ 1%nat →
     shape r0 !! (ndim r0 - ndim v + j)%nat = Some n) →
  ∃ index r',
    for_each (index_step r0 e m) (union ix ix_v)
      ((fun i => arange_reshaped (default 0%nat (shape r0 !! i))
                   (Z.of_nat (ndim r0) - 1 - Z.of_nat i)) <$> seq 0 (ndim r0))
    = Ok index
    ∧ index_put r0 index v = Ok r'
    ∧ shape r' = shape r0
    ∧ ∀ pos, in_bounds (shape r0) pos →
        ((∀ name S i c, (name, S) ∈ ix → axis_of m e (ndim r0) name = Some i →
            pos !! i = Some c → c ∈ S) →
         elem r' pos = expand_read v pos)
        ∧ ((∃ name S i c, (name, S) ∈ ix ∧ axis_of m e (ndim r0) name = Some i
                          ∧ pos !! i = Some c ∧ c ∉ S) →
           elem r' pos = elem r0 pos).
Proof.
  intros Hnd Hreq Hfit.
  pose proof sb_names_axes_merged as Hwf.
  set (off := (ndim r0 - ndim v)%nat) in *.
  set (index0 := (fun i => arange_reshaped (default 0%nat (shape r0 !! i))
                             (Z.of_nat (ndim r0) - 1 - Z.of_nat i))
                 <$> seq 0 (ndim r0)).
  assert (length index0 = ndim r0) as Hlen0
    by (unfold index0; by rewrite length_fmap, length_seq).
  (* the axis of a name in [v] and in [r0] *)
  assert (∀ name j, axis_of m e (ndim v) name = Some j →
            axis_of m e (ndim r0) name = Some (off + j)%nat) as Hup.
  { intros name j. apply axis_of_shift; [apply sb_neg_e | done]. }
  assert (∀ name i, (off ≤ i)%nat → axis_of m e (ndim r0) name = Some i →
            axis_of m e (ndim v) name = Some (i - off)%nat) as Hdown.
  { intros name i. apply axis_of_unshift; [apply sb_neg_e | done]. }
  (* an entry of the merged index set, by the axis of [r0] it names *)
  assert (∀ name S i n, (name, S) ∈ union ix ix_v →
            axis_of m e (ndim r0) name = Some i → shape r0 !! i = Some n →
            ((name, S) ∈ ix ∧ ∀ k, k ∈ S → (k < n)%nat)
            ∨ ((off ≤ i)%nat ∧ shape v !! (i - off)%nat = Some n ∧ (1 < n)%nat
               ∧ S = set_range n)) as Hentry.
  { intros name S i n [Hin | [_ Hin]]%sb_merged Hax Hn.
    - left. split; [done |].
      destruct (Hreq name S Hin) as (i' & n' & Hax' & Hn' & Hlt).
      assert (i' = i) as -> by congruence. assert (n' = n) as -> by congruence.
      done.
    - right. apply sb_ixv_entry in Hin as (j & nv & Haxv & Hnv & Hbig & ->).
      pose proof (Hup name j Haxv) as Hax'. rewrite Hax in Hax'. injection Hax' as ->.
      rewrite (Hfit j nv Hnv) in Hn by lia. injection Hn as <-.
      split; [lia |]. split; [| done]. by replace (off + j - off)%nat with j by lia. }
  destruct (index_loop_total e m r0 (union ix ix_v) index0 Hwf Hlen0) as [index Hindex].
  { intros name [S [Hin | [_ Hin]]%sb_merged]%elem_of_keys.
    - destruct (Hreq name S Hin) as (i & n & -> & _). eauto.
    - apply sb_ixv_entry in Hin as (j & n & Hax & _). rewrite (Hup name j Hax). eauto. }
  destruct (index_loop_spec e m r0 (union ix ix_v) index0 index Hwf Hlen0 Hindex)
    as (Hilen & _ & _ & _).
  pose proof (index_loop_entry e m r0 (union ix ix_v) index0 index) as Hcase.
  assert (∀ i n, shape r0 !! i = Some n → index0 !! i
            = Some (mkIndexTensor (seq 0 n) (Z.of_nat (ndim r0) - 1 - Z.of_nat i)))
    as Hindex0.
  { intros i n Hn. unfold index0. rewrite list_lookup_fmap, lookup_seq_lt.
    - cbn. by rewrite Hn.
    - by eapply lookup_lt_Some. }
  assert (∀ i it, index !! i = Some it →
            it_trailing it = Z.of_nat (ndim r0) - 1 - Z.of_nat i
            ∧ ∀ n k, shape r0 !! i = Some n → k ∈ it_vals it → (k < n)%nat) as Hentries.
  { intros i it Hit.
    destruct (Hcase i Hwf Hlen0 Hindex)
      as [(name & S & n & Hin & Hax & Hn & Hbig & Hi) | [_ Hi]].
    - rewrite Hi in Hit. injection Hit as <-. cbn [it_trailing it_vals].
      split; [done |]. intros n' k Hn' Hk. rewrite Hn in Hn'. injection Hn' as <-.
      apply elem_of_sorted in Hk.
      destruct (Hentry name S i n Hin Hax Hn) as [[_ Hlt] | (_ & _ & _ & ->)];
        [by apply Hlt | by apply elem_of_set_range].
    - rewrite Hi in Hit.
      destruct (lookup_lt_is_Some_2 (shape r0) i) as [n Hn].
      { apply lookup_lt_Some in Hit. unfold ndim in *. lia. }
      rewrite (Hindex0 i n Hn) in Hit. injection Hit as <-. cbn [it_trailing it_vals].
      split; [done |]. intros n' k Hn' Hk. rewrite Hn in Hn'. injection Hn' as <-.
      apply elem_of_seq in Hk. lia. }
  assert (index_put r0 index v
          = Ok (mkTensor (shape r0)
                  (fun pos => match locate (it_vals <$> index) pos with
                              | Some j => expand_read (strip_leading_ones v) j
                              | None => elem r0 pos
                              end))) as Hput.
  { apply index_put_total.
    - done.
    - intros i it Hit. by apply Hentries.
    - intros i it n k Hit Hn Hk. by eapply Hentries.
    - cbn [strip_leading_ones shape].
      destruct (strip_ones_drop (shape v)) as (k & -> & Hklen & Hones).
      apply expandable_intro.
      + rewrite length_drop, !length_fmap, Hilen. unfold ndim in *. lia.
      + intros j' n Hj'. rewrite lookup_drop in Hj'.
        destruct (decide (n = 1%nat)) as [| Hn1]; [by left |]. right.
        rewrite length_drop, !length_fmap, Hilen.
        pose proof (lookup_lt_Some _ _ _ Hj') as Hjlt.
        replace (ndim r0 - (length (shape v) - k) + j')%nat with (off + (k + j'))%nat
          by (unfold off, ndim in *; lia).
        pose proof (Hfit _ _ Hj' Hn1) as Hr. fold off in Hr.
        rewrite !list_lookup_fmap.
        destruct (Hcase (off + (k + j'))%nat Hwf Hlen0 Hindex)
          as [(name & S & n' & Hin & Hax & Hn' & Hbig & Hi) | [_ Hi]].
        * rewrite Hi. cbn. rewrite length_sorted. f_equal.
          rewrite Hr in Hn'. injection Hn' as <-.
          destruct (Hentry name S _ n Hin Hax Hr) as [[Hinix _] | (_ & _ & _ & ->)];
            [| apply size_set_range].
          exfalso. pose proof (Hdown name (off + (k + j'))%nat ltac:(lia) Hax) as Haxv.
          replace (off + (k + j') - off)%nat with (k + j')%nat in Haxv by lia.
          rewrite (Hbro name _) in Hj'; [congruence | | done].
          apply elem_of_keys. eauto.
        * rewrite Hi, (Hindex0 _ n Hr). cbn. by rewrite length_seq. }
  exists index. eexists. split; [exact Hindex |]. split; [exact Hput |].
  split; [done |].
  destruct (scatter_tensor_write e m r0 _ v (union ix ix_v) index Hwf Hindex Hput)
    as (_ & Hwrite).
  intros pos Hb. pose proof (Forall2_length _ _ _ Hb) as Hposlen. split.
  - intros Hall.
    destruct (proj2 (Hwrite pos) Hb) as (j & -> & Hjlen & Hjnamed & Hjother).
    { intros name S i n c Hin Hax Hn Hbig Hc.
      destruct (Hentry name S i n Hin Hax Hn) as [[Hinix _] | (_ & _ & _ & ->)].
      - by eapply Hall.
      - apply elem_of_set_range. by eapply in_bounds_lookup. }
    rewrite expand_read_strip by (unfold ndim in *; lia).
    rewrite !expand_read_eq. f_equal. apply list_eq. intros jv.
    destruct (shape v !! jv) as [n |] eqn:Hn.
    2:{ apply lookup_ge_None in Hn.
        rewrite !(proj2 (lookup_ge_None _ _)); [done | |];
          rewrite length_expand_index; unfold ndim in *; lia. }
    rewrite !(expand_index_lookup _ _ _ n) by (done || unfold ndim in *; lia).
    pose proof (lookup_lt_Some _ _ _ Hn) as Hjvlt.
    replace (length j - length (shape v) + jv)%nat with (off + jv)%nat
      by (unfold off, ndim in *; lia).
    replace (length pos - length (shape v) + jv)%nat with (off + jv)%nat
      by (unfold off, ndim in *; lia).
    destruct (decide (n = 1%nat)) as [-> | Hn1].
    { destruct (lookup_lt_is_Some_2 j (off + jv)) as [c1 ->];
        [unfold off, ndim in *; lia |].
      destruct (lookup_lt_is_Some_2 pos (off + jv)) as [c2 ->];
        [unfold off, ndim in *; lia |]. done. }
    f_equal. pose proof (Hfit jv n Hn Hn1) as Hr. fold off in Hr.
    destruct (lookup_lt_is_Some_2 pos (off + jv)) as [c Hc];
      [unfold off, ndim in *; lia |].
    pose proof (in_bounds_lookup _ _ _ _ _ Hb Hc Hr) as Hcn.
    destruct (decide (Exists (fun kv => axis_of m e (ndim r0) kv.1 = Some (off + jv)%nat)
                        (union ix ix_v))) as [Hex | Hno].
    + apply Exists_exists in Hex as ([name S] & Hin & Hax). cbn in Hax.
      destruct (Hjnamed name S _ n c Hin Hax Hr ltac:(lia) Hc) as (k & Hk & Hsorted).
      rewrite Hk, Hc. f_equal.
      destruct (Hentry name S _ n Hin Hax Hr) as [[Hinix _] | (_ & _ & _ & ->)].
      * exfalso. pose proof (Hdown name (off + jv)%nat ltac:(lia) Hax) as Haxv.
        replace (off + jv - off)%nat with jv in Haxv by lia.
        rewrite (Hbro name _) in Hn; [congruence | | done].
        apply elem_of_keys. eauto.
      * rewrite sorted_set_range in Hsorted. apply lookup_seq in Hsorted. lia.
    + apply Hjother. intros name n' [S Hin]%elem_of_keys Hax. exfalso.
      apply Hno, Exists_exists. by exists (name, S).
  - intros (name & S & i & c & Hin & Hax & Hc & Hnot).
    apply (proj1 (Hwrite pos)).
    destruct (Hreq name S Hin) as (i' & n & Hax' & Hn & Hlt).
    rewrite Hax in Hax'. injection Hax' as <-.
    exists name, S, i, n, c. split; [apply sb_merged; by left |].
    split; [done |]. split; [done |]. split; [| done].
    pose proof (in_bounds_lookup _ _ _ _ _ Hb Hc Hn) as Hcn.
    destruct (decide (1 < n)%nat); [done |].
    pose proof (Hne name S Hin) as Hnon.
    apply set_choose_L in Hnon as [k Hk]. pose proof (Hlt k Hk).
    assert (k = c) as -> by lia. done.
Qed.

(** [_scatter_tensor] into a given tensor. *)
Lemma sb_into (plates : Plates) (r0 : Tensor A) :
  (ndim v ≤ ndim r0)%nat →
  (∀ name S, (name, S) ∈ ix →
     ∃ i n, axis_of m e (ndim r0) name = Some i ∧ shape r0 !! i = Some n
            ∧ ∀ k, k ∈ S → (k < n)%nat) →
  (∀ j n, shape v !! j = Some n → n ≠ 1%nat →
     shape r0 !! (ndim r0 - ndim v + j)%nat = Some n) →
  ∃ r', _scatter_tensor zero plates v ix (Some r0) (Some e) (Some m) = Ok r'
        ∧ shape r' = shape r0
        ∧ ∀ pos, in_bounds (shape r0) pos →
            ((∀ name S i c, (name, S) ∈ ix → axis_of m e (ndim r0) name = Some i →
                pos !! i = Some c → c ∈ S) →
             elem r' pos = expand_read v pos)
            ∧ ((∃ name S i c, (name, S) ∈ ix ∧ axis_of m e (ndim r0) name = Some i
                              ∧ pos !! i = Some c ∧ c ∉ S) →
               elem r' pos = elem r0 pos).
Proof.
  intros Hnd Hreq Hfit.
  destruct (sb_write r0 Hnd Hreq Hfit) as (index & r' & Hindex & Hput & Hshape & Hel).
  exists r'. split; [| done].
  unfold _scatter_tensor. cbn [default from_option id].
  unfold _gather_tensor at 1. cbn [default from_option id].
  rewrite sb_gather, res_bind_Ok, sb_indices, !res_bind_Ok. fold ix_v.
  by rewrite Hindex, res_bind_Ok.
Qed.

(** [_scatter_tensor] into a tensor it allocates. *)
Lemma sb_alloc (plates : Plates) :
  let ones := Z.to_nat (max_list_Z (((fun nf => e - f_dim nf.2) <$> plates) ++ [0])) in
  (∀ name S, (name, S) ∈ ix →
     ∃ f, dict_get plates name = Some f ∧ dict_get m name = Some (f_dim f)
          ∧ ∀ k, k ∈ S → (k < f_size f)%nat) →
  shaped_by_plates plates m e (shape v) →
  ∃ r, _scatter_tensor zero plates v ix None (Some e) (Some m) = Ok r
       ∧ ndim r = (ndim v `max` ones)%nat
       ∧ (∀ name S, (name, S) ∈ ix →
            ∃ i f, axis_of m e (ndim r) name = Some i ∧ dict_get plates name = Some f
                   ∧ shape r !! i = Some (f_size f))
       ∧ (∀ j n, shape v !! j = Some n → n ≠ 1%nat →
            shape r !! (ndim r - ndim v + j)%nat = Some n)
       ∧ (∀ i, (∀ name, name ∈ keys ix → axis_of m e (ndim r) name ≠ Some i) →
            shape r !! i = (replicate (ones - ndim v) 1%nat ++ shape v) !! i)
       ∧ ∀ pos, in_bounds (shape r) pos →
           ((∀ name S i c, (name, S) ∈ ix → axis_of m e (ndim r) name = Some i →
               pos !! i = Some c → c ∈ S) →
            elem r pos = expand_read v pos)
           ∧ ((∃ name S i c, (name, S) ∈ ix ∧ axis_of m e (ndim r) name = Some i
                             ∧ pos !! i = Some c ∧ c ∉ S) →
              elem r pos = zero).
Proof.
  intros ones Hreg Hshaped.
  pose proof sb_names_axes_merged as Hwf.
  set (bs := replicate (ones - ndim v) 1%nat ++ shape v).
  assert (length bs = (ndim v `max` ones)%nat) as Hbslen.
  { unfold bs. rewrite length_app, length_replicate. unfold ndim. lia. }
  assert (∀ name j, axis_of m e (ndim v) name = Some j →
            axis_of m e (length bs) name = Some (length bs - ndim v + j)%nat) as Hup.
  { intros name j. apply axis_of_shift; [apply sb_neg_e | lia]. }
  assert (∀ name i, (length bs - ndim v ≤ i)%nat → axis_of m e (length bs) name = Some i →
            axis_of m e (ndim v) name = Some (i - (length bs - ndim v))%nat) as Hdown.
  { intros name i. apply axis_of_unshift; [apply sb_neg_e | lia]. }
  assert (∀ name S, (name, S) ∈ ix →
            ∃ f i, dict_get plates name = Some f ∧ dict_get m name = Some (f_dim f)
                   ∧ axis_of m e (length bs) name = Some i) as Haxis.
  { intros name S Hin. destruct (Hreg name S Hin) as (f & Hf & Hd & _).
    assert (f_dim f - e < 0) as Hlt by (eapply sb_neg_e, dict_get_Some_elem, Hd).
    exists f, (Z.to_nat (Z.of_nat (length bs) + (f_dim f - e))).
    split; [done |]. split; [done |].
    apply (axis_of_neg m e _ name (f_dim f)); [done.. |]. split; [| done].
    assert (e - f_dim f ≤ max_list_Z (((fun nf => e - f_dim nf.2) <$> plates) ++ [0])).
    { apply max_list_Z_ge, elem_of_app. left. apply list_elem_of_fmap.
      exists (name, f). split; [done |]. by apply dict_get_Some_elem. }
    rewrite Hbslen. unfold ones. lia. }
  destruct (result_shape_loop_total e m plates (union ix ix_v) bs Hwf) as [rs Hrs].
  { intros name [S [Hin | [_ Hin]]%sb_merged]%elem_of_keys.
    - destruct (Haxis name S Hin) as (f & i & Hf & _ & Hax). split; eauto.
    - apply sb_ixv_entry in Hin as (j & n & Hax & Hn & Hbig & _).
      split; [| rewrite (Hup name j Hax); eauto].
      unfold axis_of in Hax. destruct (dict_get m name) as [d |] eqn:Hd; [| done].
      assert (axis_of m e (length (shape v)) name = Some j) as Hax'
        by (unfold axis_of; by rewrite Hd).
      destruct (Hshaped name d j n Hd Hax' Hn) as [-> | (f & Hf & _)]; [lia | eauto]. }
  destruct (result_shape_loop_spec e m plates (union ix ix_v) bs rs Hwf Hrs)
    as (Hlen & Hnamed & Hother).
  set (r0 := new_zeros zero rs).
  assert (ndim r0 = length bs) as Hnd0 by done.
  assert (∀ j n, shape v !! j = Some n →
            bs !! (length bs - ndim v + j)%nat = Some n) as Hbsv.
  { intros j n Hn. unfold bs at 2.
    rewrite lookup_app_r; rewrite length_replicate; [| rewrite Hbslen; lia].
    rewrite <- Hn. f_equal. rewrite Hbslen. unfold ndim. lia. }
  assert (∀ j n, shape v !! j = Some n → n ≠ 1%nat →
            shape r0 !! (ndim r0 - ndim v + j)%nat = Some n) as Hfit.
  { intros j n Hn Hn1. rewrite Hnd0. cbn [r0 new_zeros shape].
    set (i := (length bs - ndim v + j)%nat).
    pose proof (Hbsv j n Hn) as Hbsi. fold i in Hbsi.
    destruct (decide (Exists (fun kv => axis_of m e (length bs) kv.1 = Some i)
                        (union ix ix_v))) as [Hex | Hno].
    - apply Exists_exists in Hex as ([name S] & Hin & Hax). cbn in Hax.
      destruct (Hnamed name) as (i' & f & Hax' & Hf & Hrs');
        [apply elem_of_keys; eauto |].
      rewrite Hax in Hax'. injection Hax' as <-. rewrite Hrs'. f_equal.
      pose proof (Hdown name i ltac:(unfold i; lia) Hax) as Haxv.
      replace (i - (length bs - ndim v))%nat with j in Haxv by (unfold i; lia).
      apply sb_merged in Hin as [Hin | [_ Hin]].
      + rewrite (Hbro name j) in Hn; [congruence | | done]. apply elem_of_keys. eauto.
      + unfold axis_of in Haxv. destruct (dict_get m name) as [d |] eqn:Hd; [| done].
        assert (axis_of m e (length (shape v)) name = Some j) as Hax'
          by (unfold axis_of; by rewrite Hd).
        destruct (Hshaped name d j n Hd Hax' Hn) as [-> | (f' & Hf' & ->)]; [done |].
        congruence.
    - rewrite Hother; [done |]. intros name [S Hin]%elem_of_keys Hax.
      apply Hno, Exists_exists. by exists (name, S). }
  assert (∀ name S, (name, S) ∈ ix →
            ∃ i f, axis_of m e (ndim r0) name = Some i ∧ dict_get plates name = Some f
                   ∧ shape r0 !! i = Some (f_size f)) as Hsizes.
  { intros name S Hin. rewrite Hnd0. apply Hnamed, elem_of_keys.
    exists S. apply sb_merged. by left. }
  destruct (sb_write r0) as (index & r' & Hindex & Hput & Hshape & Hel).
  { rewrite Hnd0, Hbslen. lia. }
  { intros name S Hin. destruct (Hsizes name S Hin) as (i & f & Hax & Hf & Hri).
    exists i, (f_size f). split; [done |]. split; [done |].
    destruct (Hreg name S Hin) as (f' & Hf' & _ & Hlt). by assert (f' = f) as -> by congruence. }
  { exact Hfit. }
  assert (ndim r' = ndim r0) as Hnd' by (unfold ndim; by rewrite Hshape).
  exists r'. split; [| split; [| split; [| split; [| split]]]].
  - unfold _scatter_tensor. cbn [default from_option id].
    unfold _gather_tensor at 1. cbn [default from_option id].
    rewrite sb_gather, res_bind_Ok, sb_indices, !res_bind_Ok. fold ix_v.
    rewrite broadcast_shapes_ones. fold ones. rewrite res_bind_Ok.
    fold (ndim v). fold bs. rewrite Hrs, !res_bind_Ok. fold r0.
    by rewrite Hindex, res_bind_Ok.
  - by rewrite Hnd', Hnd0.
  - intros name S Hin. rewrite Hnd', Hshape. by eapply Hsizes.
  - intros j n Hn Hn1. rewrite Hnd', Hshape. by apply Hfit.
  - intros i Hno. rewrite Hshape. cbn [r0 new_zeros shape].
    destruct (decide (Exists (fun kv => (kv.1 ∉ keys ix)
                                        ∧ axis_of m e (length bs) kv.1 = Some i) ix_v))
      as [Hex | Hno0].
    { apply Exists_exists in Hex as ([name S] & Hin & _ & Hax). cbn in Hax.
      apply sb_ixv_entry in Hin as (j & n & Haxv & Hn & Hbig & _).
      pose proof (Hup name j Haxv) as Hax'. rewrite Hax in Hax'. injection Hax' as ->.
      rewrite (Hbsv j n Hn). rewrite <- Hnd0. apply Hfit; [done | lia]. }
    assert (∀ name, name ∉ keys ix → name ∈ keys ix_v →
              axis_of m e (length bs) name = Some i → False) as Hno0'.
    { intros name Hnot [S Hin]%elem_of_keys Hax. apply Hno0, Exists_exists.
      by exists (name, S). }
    clear Hno0. rename Hno0' into Hno0.
    apply Hother.
    intros name [S [Hin | [Hnot Hin]]%sb_merged]%elem_of_keys Hax.
    + eapply Hno; [apply elem_of_keys; eauto |]. by rewrite Hnd', Hnd0.
    + eapply (Hno0 name); [done | apply elem_of_keys; eauto | done].
  - intros pos Hb. rewrite Hnd'. rewrite Hshape in Hb. apply (Hel pos Hb).
Qed.

End ScatterBroadcast.
Section ScatterBroadcastGather.

Context {A : Type}.
Variable zero : A.
Variable plates : Plates.
Variable e : Z.
Variable m : dict string Z.
Variable v : Tensor A.
Variable ix : IndexSet.

Hypothesis Hdims : dims_distinct m e.
Hypothesis Hneg : ∀ name d, (name, d) ∈ m → d < 0.
Hypothesis He : 0 ≤ e ≤ Z.of_nat (ndim v).
Hypothesis Hix : NoDup (keys ix).
Hypothesis Hreg : ∀ name S, (name, S) ∈ ix →
  ∃ f, dict_get plates name = Some f ∧ dict_get m name = Some (f_dim f)
       ∧ S ≠ ∅ ∧ ∀ k, k ∈ S → (k < f_size f)%nat.
Hypothesis Hbro : ∀ name j, name ∈ keys ix →
  axis_of m e (ndim v) name = Some j → shape v !! j = Some 1%nat.
Hypothesis Hshaped : shaped_by_plates plates m e (shape v).

Let ones : nat :=
  Z.to_nat (max_list_Z (((fun nf => e - f_dim nf.2) <$> plates) ++ [0])).

Lemma sbg_keys name : name ∈ keys ix → name ∈ keys m.
Proof.
  intros [S Hin]%elem_of_keys. destruct (Hreg name S Hin) as (f & _ & Hd & _).
  apply elem_of_keys. eexists. by apply dict_get_Some_elem.
Qed.

Lemma sbg_nonempty name S : (name, S) ∈ ix → S ≠ ∅.
Proof. intros Hin. by destruct (Hreg name S Hin) as (f & _ & _ & ? & _). Qed.

Lemma sbg_scatter :
  ∃ r, _scatter_tensor zero plates v ix None (Some e) (Some m) = Ok r
       ∧ ndim r = (ndim v `max` ones)%nat
       ∧ (∀ name S, (name, S) ∈ ix →
            ∃ i f, axis_of m e (ndim r) name = Some i ∧ dict_get plates name = Some f
                   ∧ shape r !! i = Some (f_size f))
       ∧ (∀ j n, shape v !! j = Some n → n ≠ 1%nat →
            shape r !! (ndim r - ndim v + j)%nat = Some n)
       ∧ (∀ i, (∀ name, name ∈ keys ix → axis_of m e (ndim r) name ≠ Some i) →
            shape r !! i = (replicate (ones - ndim v) 1%nat ++ shape v) !! i)
       ∧ ∀ pos, in_bounds (shape r) pos →
           ((∀ name S i c, (name, S) ∈ ix → axis_of m e (ndim r) name = Some i →
               pos !! i = Some c → c ∈ S) →
            elem r pos = expand_read v pos)
           ∧ ((∃ name S i c, (name, S) ∈ ix ∧ axis_of m e (ndim r) name = Some i
                             ∧ pos !! i = Some c ∧ c ∉ S) →
              elem r pos = zero).
Proof.
  apply sb_alloc; try done.
  - apply sbg_keys.
  - apply sbg_nonempty.
  - intros name S Hin. destruct (Hreg name S Hin) as (f & ? & ? & _ & ?). eauto.
Qed.

Lemma sbg_round_trip :
  ∃ s r, _scatter_tensor zero plates v ix None (Some e) (Some m) = Ok s
         ∧ _gather_tensor plates s ix (Some e) (Some m) = Ok r
         ∧ tensor_eq_broadcast r v.
Proof.
  destruct sbg_scatter as (s & Hs & Hnd & Hsizes & Hfit & _ & Hel).
  assert (names_axes m e ix) as Hwf by (apply names_axes_dims; [done.. | apply sbg_keys]).
  assert (∀ name d, (name, d) ∈ m → d - e < 0) as Hnege
    by (destruct Hdims as (_ & H & _); apply H).
  assert (ndim v ≤ ndim s)%nat as Hle by lia.
  set (off := (ndim s - ndim v)%nat) in *.
  (* the axes of [s] that the names of [ix] reach are not axes along which
     [v] varies *)
  assert (∀ name jv n, name ∈ keys ix → shape v !! jv = Some n → n ≠ 1%nat →
            axis_of m e (ndim s) name ≠ Some (off + jv)%nat) as Hfree.
  { intros name jv n Hin Hn Hn1 Hax.
    pose proof (axis_of_unshift m e (ndim v) (ndim s) name (off + jv)%nat Hnege Hle
                  ltac:(unfold off; lia) Hax) as Haxv.
    fold off in Haxv. replace (off + jv - off)%nat with jv in Haxv by lia.
    rewrite (Hbro name jv Hin Haxv) in Hn. congruence. }
  (* a requested axis of [s]: its length, and the requested indices *)
  assert (∀ name S i, (name, S) ∈ ix → axis_of m e (ndim s) name = Some i →
            ∃ f, shape s !! i = Some (f_size f) ∧ S ≠ ∅
                 ∧ ∀ k, k ∈ S → (k < f_size f)%nat) as Hreq.
  { intros name S i Hin Hax.
    destruct (Hsizes name S Hin) as (i' & f & Hax' & Hf & Hsi).
    rewrite Hax in Hax'. injection Hax' as <-.
    destruct (Hreg name S Hin) as (f' & Hf' & _ & Hnon & Hlt).
    assert (f' = f) as -> by congruence. eauto. }
  destruct (gather_loop_total e m ix s Hwf) as [g Hg].
  { intros name S i n Hin Hax Hn _ k Hk.
    destruct (Hreq name S i Hin Hax) as (f & Hsi & _ & Hlt).
    rewrite Hsi in Hn. injection Hn as <-. by apply Hlt. }
  destruct (gather_loop_spec e m ix s g Hwf Hg) as (Hgnd & Hgnamed & Hgother & Hgelem).
  exists s, g. split; [exact Hs |]. split; [exact Hg |].
  assert (∀ i, (∃ name S, (name, S) ∈ ix ∧ axis_of m e (ndim s) name = Some i)
               ∨ (∀ name, name ∈ keys ix → axis_of m e (ndim s) name ≠ Some i)) as Hdec.
  { intros i.
    destruct (decide (Exists (fun kv => axis_of m e (ndim s) kv.1 = Some i) ix))
      as [Hex | Hno].
    - left. apply Exists_exists in Hex as ([name S] & Hin & Hax). eauto.
    - right. intros name [S Hin]%elem_of_keys Hax. apply Hno, Exists_exists.
      by exists (name, S). }
  exists (shape g). split.
  - apply broadcast_shapes_expandable, expandable_intro.
    + unfold ndim in *. lia.
    + intros jv n Hn. destruct (decide (n = 1%nat)) as [| Hn1]; [by left |]. right.
      replace (length (shape g) - length (shape v) + jv)%nat with (off + jv)%nat
        by (unfold off, ndim in *; lia).
      rewrite Hgother; [by apply Hfit |].
      intros name Hin. by eapply Hfree.
  - intros pos Hb. pose proof (Forall2_length _ _ _ Hb) as Hposlen.
    rewrite expand_read_eq, (expand_index_in_bounds _ _ Hb).
    destruct (Hgelem pos Hb) as (src & -> & Hsrclen & Hsel & Hkeep).
    (* what [src] holds along a requested axis *)
    assert (∀ name S i c, (name, S) ∈ ix → axis_of m e (ndim s) name = Some i →
              src !! i = Some c → c ∈ S) as Hcovers.
    { intros name S i c Hin Hax Hc.
      destruct (Hreq name S i Hin Hax) as (f & Hsi & Hnon & Hlt).
      destruct (decide (shape s !! i = Some 1%nat)) as [Hone | Hone].
      - rewrite Hkeep in Hc.
        2:{ intros name' Hin' Hax'. done. }
        pose proof (Hgnamed name S i Hin Hax) as Hgi.
        rewrite decide_True in Hgi by done.
        pose proof (in_bounds_lookup _ _ _ _ _ Hb Hc Hgi) as Hc1.
        apply set_choose_L in Hnon as [k Hk]. pose proof (Hlt k Hk) as Hkf.
        rewrite Hsi in Hone. injection Hone as Hone.
        assert (k = c) as -> by lia. done.
      - destruct (lookup_lt_is_Some_2 pos i) as [c0 Hc0].
        { apply lookup_lt_Some in Hc. lia. }
        rewrite (Hsel name S i c0 Hin Hax Hone Hc0) in Hc.
        apply elem_of_sorted. by eapply list_elem_of_lookup_2. }
    assert (in_bounds (shape s) src) as Hsrcb.
    { apply Forall2_same_length_lookup. split; [unfold ndim in *; lia |].
      intros i c n Hc Hn. destruct (Hdec i) as [(name & S & Hin & Hax) | Hno].
      - destruct (Hreq name S i Hin Hax) as (f & Hsi & _ & Hlt).
        rewrite Hsi in Hn. injection Hn as <-. apply Hlt. by eapply Hcovers.
      - rewrite Hkeep in Hc.
        2:{ intros name Hin Hax. exfalso. by eapply Hno. }
        eapply (in_bounds_lookup (shape g) pos); [done | done |].
        by rewrite Hgother. }
    rewrite (proj1 (Hel src Hsrcb) Hcovers).
    rewrite !expand_read_eq. f_equal. apply list_eq. intros jv.
    destruct (shape v !! jv) as [n |] eqn:Hn.
    2:{ apply lookup_ge_None in Hn.
        rewrite !(proj2 (lookup_ge_None _ _)); [done | |];
          rewrite length_expand_index; unfold ndim in *; lia. }
    rewrite !(expand_index_lookup _ _ _ n) by (done || unfold ndim in *; lia).
    pose proof (lookup_lt_Some _ _ _ Hn) as Hjvlt.
    replace (length src - length (shape v) + jv)%nat with (off + jv)%nat
      by (unfold off, ndim in *; lia).
    replace (length pos - length (shape v) + jv)%nat with (off + jv)%nat
      by (unfold off, ndim in *; lia).
    destruct (decide (n = 1%nat)) as [-> | Hn1].
    { destruct (lookup_lt_is_Some_2 src (off + jv)) as [c1 ->];
        [unfold off, ndim in *; lia |].
      destruct (lookup_lt_is_Some_2 pos (off + jv)) as [c2 ->];
        [unfold off, ndim in *; lia |]. done. }
    f_equal. apply Hkeep. intros name Hin Hax. exfalso. by eapply Hfree.
Qed.

End ScatterBroadcastGather.

(** X22: Scattering a value that does not vary along the requested plates: for
    negative distinct dims, an [event_dim] within the axes of [v], an index
    set of registered plates that asks for positions of its plates, and a
    tensor [v] that has no axis, or one of length 1, for each requested name
    and whose other named axes have length 1 or the size of their plate,
    [scatter(v, I)] with [result=None] returns a tensor that has the plate's
    size along every requested axis and the length of [v] along the axes
    where [v] is longer than 1, and that holds [v] (expanded) at the
    positions whose coordinates along the requested axes are all requested,
    and zero at every other position. *)
Theorem scatter_broadcast_value {A} (zero : A) (plates : Plates) (v : Tensor A)
    (ix : IndexSet) (event_dim : option Z) (name_to_dim : option (dict string Z)) :
  let e := default 0 event_dim in
  let m := default (plate_dims plates) name_to_dim in
  let ones := Z.to_nat (max_list_Z (((fun nf => e - f_dim nf.2) <$> plates) ++ [0])) in
  dims_distinct m e → (∀ name d, (name, d) ∈ m → d < 0) →
  0 ≤ e ≤ Z.of_nat (ndim v) → NoDup (keys ix) →
  (∀ name S, (name, S) ∈ ix →
     ∃ f, dict_get plates name = Some f ∧ dict_get m name = Some (f_dim f)
          ∧ S ≠ ∅ ∧ ∀ k, k ∈ S → (k < f_size f)%nat) →
  (∀ name j, name ∈ keys ix → axis_of m e (ndim v) name = Some j →
     shape v !! j = Some 1%nat) →
  shaped_by_plates plates m e (shape v) →
  ∃ r, _scatter_tensor zero plates v ix None event_dim name_to_dim = Ok r
       ∧ ndim r = (ndim v `max` ones)%nat
       ∧ (∀ name S, (name, S) ∈ ix →
            ∃ i f, axis_of m e (ndim r) name = Some i ∧ dict_get plates name = Some f
                   ∧ shape r !! i = Some (f_size f))
       ∧ (∀ j n, shape v !! j = Some n → n ≠ 1%nat →
            shape r !! (ndim r - ndim v + j)%nat = Some n)
       ∧ (∀ i, (∀ name, name ∈ keys ix → axis_of m e (ndim r) name ≠ Some i) →
            shape r !! i = (replicate (ones - ndim v) 1%nat ++ shape v) !! i)
       ∧ ∀ pos, in_bounds (shape r) pos →
           ((∀ name S i c, (name, S) ∈ ix → axis_of m e (ndim r) name = Some i →
               pos !! i = Some c → c ∈ S) →
            elem r pos = expand_read v pos)
           ∧ ((∃ name S i c, (name, S) ∈ ix ∧ axis_of m e (ndim r) name = Some i
                             ∧ pos !! i = Some c ∧ c ∉ S) →
              elem r pos = zero).
Proof.
  intros e m ones Hdims Hneg He Hix Hreg Hbro Hshaped.
  exact (sbg_scatter zero plates e m v ix Hdims Hneg He Hix Hreg Hbro Hshaped).
Qed.

(** X23: The inverse law for a value that does not vary along the requested
    plates: under the same conditions, for any requested indices,
    [scatter(v, I)] and then [gather(., I)] raise nothing and return a
    tensor equal to [v] element by element (as [==] compares: [v] expanded to
    the shape of the result, which has one position per requested index
    along the requested axes). *)
Theorem gather_scatter_broadcast_value {A} (zero : A) (plates : Plates)
    (v : Tensor A) (ix : IndexSet) (event_dim : option Z)
    (name_to_dim : option (dict string Z)) :
  let e := default 0 event_dim in
  let m := default (plate_dims plates) name_to_dim in
  dims_distinct m e → (∀ name d, (name, d) ∈ m → d < 0) →
  0 ≤ e ≤ Z.of_nat (ndim v) → NoDup (keys ix) →
  (∀ name S, (name, S) ∈ ix →
     ∃ f, dict_get plates name = Some f ∧ dict_get m name = Some (f_dim f)
          ∧ S ≠ ∅ ∧ ∀ k, k ∈ S → (k < f_size f)%nat) →
  (∀ name j, name ∈ keys ix → axis_of m e (ndim v) name = Some j →
     shape v !! j = Some 1%nat) →
  shaped_by_plates plates m e (shape v) →
  ∃ s r, _scatter_tensor zero plates v ix None event_dim name_to_dim = Ok s
         ∧ _gather_tensor plates s ix event_dim name_to_dim = Ok r
         ∧ tensor_eq_broadcast r v.
Proof.
  intros e m Hdims Hneg He Hix Hreg Hbro Hshaped.
  exact (sbg_round_trip zero plates e m v ix Hdims Hneg He Hix Hreg Hbro Hshaped).
Qed.

(** One plate of size 3, a value of shape (2, 1), and the request for
    positions 0 and 2. *)
Lemma broadcast_instance :
  let plates : Plates := [("a", mkFrame "a" (-1) 3 0)] in
  let v : Tensor Z := mkTensor [2; 1]%nat (fun idx => Z.of_nat (sum_list idx)) in
  let ix : IndexSet := [("a", {[0; 2]}%nat)] in
  (∀ name d, (name, d) ∈ plate_dims plates → d < 0)
  ∧ 0 ≤ 0 ≤ Z.of_nat (ndim v) ∧ NoDup (keys ix)
  ∧ (∀ name S, (name, S) ∈ ix →
       ∃ f, dict_get plates name = Some f
            ∧ dict_get (plate_dims plates) name = Some (f_dim f)
            ∧ S ≠ ∅ ∧ ∀ k, k ∈ S → (k < f_size f)%nat)
  ∧ (∀ name j, name ∈ keys ix →
       axis_of (plate_dims plates) 0 (ndim v) name = Some j →
       shape v !! j = Some 1%nat)
  ∧ shaped_by_plates plates (plate_dims plates) 0 (shape v).
Proof.
  cbn zeta. split; [| split; [| split; [| split; [| split]]]].
  - intros name d [= -> ->]%list_elem_of_singleton. lia.
  - cbn. lia.
  - apply NoDup_singleton.
  - intros name S [= -> ->]%list_elem_of_singleton.
    exists (mkFrame "a" (-1) 3 0). split; [reflexivity |]. split; [reflexivity |].
    split; [set_solver |]. intros k Hk. cbn.
    apply elem_of_union in Hk as [->%elem_of_singleton | ->%elem_of_singleton]; lia.
  - intros name j ->%list_elem_of_singleton Hax. vm_compute in Hax.
    by injection Hax as <-.
  - intros name d j n Hd Hax Hn. unfold axis_of in Hax. rewrite Hd in Hax.
    cbn in Hd. destruct (decide ("a" = name)) as [<- |]; [| done].
    injection Hd as <-. cbn in Hax. injection Hax as <-. injection Hn as <-.
    by left.
Qed.

Lemma scatter_broadcast_value_witness :
  let plates : Plates := [("a", mkFrame "a" (-1) 3 0)] in
  let v : Tensor Z := mkTensor [2; 1]%nat (fun idx => Z.of_nat (sum_list idx)) in
  let ix : IndexSet := [("a", {[0; 2]}%nat)] in
  ∃ r, _scatter_tensor 0 plates v ix None None None = Ok r
       ∧ ndim r = 2%nat
       ∧ ∀ pos, in_bounds (shape r) pos →
           ((∀ name S i c, (name, S) ∈ ix →
               axis_of (plate_dims plates) 0 (ndim r) name = Some i →
               pos !! i = Some c → c ∈ S) →
            elem r pos = expand_read v pos)
           ∧ ((∃ name S i c, (name, S) ∈ ix
                             ∧ axis_of (plate_dims plates) 0 (ndim r) name = Some i
                             ∧ pos !! i = Some c ∧ c ∉ S) →
              elem r pos = 0).
Proof.
  cbn zeta. destruct broadcast_instance as (H2 & H3 & H4 & H5 & H6 & H7).
  destruct (scatter_broadcast_value 0 [("a", mkFrame "a" (-1) 3 0)]
              (mkTensor [2; 1]%nat (fun idx => Z.of_nat (sum_list idx)))
              [("a", {[0; 2]}%nat)] None None (a_dims_distinct 3) H2 H3 H4 H5 H6 H7)
    as (r & Hr & Hnd & _ & _ & _ & Hel).
  exists r. split; [exact Hr |]. split; [exact Hnd |]. exact Hel.
Defined.

Lemma gather_scatter_broadcast_value_witness :
  let plates : Plates := [("a", mkFrame "a" (-1) 3 0)] in
  let v : Tensor Z := mkTensor [2; 1]%nat (fun idx => Z.of_nat (sum_list idx)) in
  let ix : IndexSet := [("a", {[0; 2]}%nat)] in
  ∃ s r, _scatter_tensor 0 plates v ix None None None = Ok s
         ∧ _gather_tensor plates s ix None None = Ok r
         ∧ tensor_eq_broadcast r v.
Proof.
  cbn zeta. destruct broadcast_instance as (H2 & H3 & H4 & H5 & H6 & H7).
  exact (gather_scatter_broadcast_value 0 [("a", mkFrame "a" (-1) 3 0)]
           (mkTensor [2; 1]%nat (fun idx => Z.of_nat (sum_list idx)))
           [("a", {[0; 2]}%nat)] None None (a_dims_distinct 3) H2 H3 H4 H5 H6 H7).
Defined.

(** The tensors of this instance: the scattered one has the value in
    columns 0 and 2 and zero in column 1; the gathered one has two columns
    that both hold the value. *)
Example gather_scatter_broadcast_value_run :
  let plates : Plates := [("a", mkFrame "a" (-1) 3 0)] in
  let v : Tensor Z := mkTensor [2; 1]%nat (fun idx => 5 + Z.of_nat (sum_list idx)) in
  let ix : IndexSet := [("a", {[0; 2]}%nat)] in
  (s ← _scatter_tensor 0 plates v ix None None None ;
   r ← _gather_tensor plates s ix None None ;
   Ok (shape s, elem s <$> [[0; 0]; [0; 1]; [0; 2]; [1; 0]; [1; 1]; [1; 2]]%nat,
       shape r, elem r <$> [[0; 0]; [0; 1]; [1; 0]; [1; 1]]%nat))
  = Ok ([2; 3]%nat, [5; 0; 5; 6; 0; 6], [2; 2]%nat, [5; 5; 6; 6]).
Proof. vm_compute. reflexivity. Qed.
(** ** scatter of a partitioned value: what the tensor holds *)

Section PartitionedScatter.

Context {A : Type} (zero : A) {World : Type}.
Variable get_index_plates : World → Plates.
Variable add_indices_handlers : IndexSet → World → World.
Variable plates : Plates.
Variable e : Z.
Variable m : dict string Z.
Variable sh : list nat.
Variable names : list string.

Hypothesis Hdims : dims_distinct m e.
Hypothesis Hneg : ∀ name d, (name, d) ∈ m → d < 0.
Hypothesis He : 0 ≤ e ≤ Z.of_nat (length sh).
Hypothesis Hbro : ∀ name j, name ∈ names →
  axis_of m e (length sh) name = Some j → sh !! j = Some 1%nat.
Hypothesis Hshaped : shaped_by_plates plates m e sh.

Local Abbreviation good_part := (good_partition (A:=A) plates m sh names).
Local Abbreviation fits_sh := (fits (A:=A) plates m e sh names).

Lemma scatter_tensor_defaults (v : Tensor A) ix result event_dim name_to_dim :
  _scatter_tensor zero plates v ix result event_dim name_to_dim
  = _scatter_tensor zero plates v ix result (Some (default 0 event_dim))
      (Some (default (plate_dims plates) name_to_dim)).
Proof. done. Qed.

Lemma ps_into (p : IndexSet * Tensor A) (r0 : Tensor A) event_dim name_to_dim :
  e = default 0 event_dim → m = default (plate_dims plates) name_to_dim →
  good_part p → fits_sh r0 →
  ∃ r', _scatter_tensor zero plates p.2 p.1 (Some r0) event_dim name_to_dim = Ok r'
        ∧ shape r' = shape r0
        ∧ ∀ pos, in_bounds (shape r0) pos →
            (requested m e (ndim r0) p.1 pos → elem r' pos = expand_read p.2 pos)
            ∧ (missed m e (ndim r0) p.1 pos → elem r' pos = elem r0 pos).
Proof.
  intros Hev Hmv (Hsh & Hnd & Hnames & Hreg) (Hlen & Hsizes & Hfit).
  destruct p as [ix v]. cbn [fst snd] in *.
  rewrite scatter_tensor_defaults, <- Hev, <- Hmv.
  apply (sb_into zero _ _ v ix Hdims Hneg); unfold ndim in *; rewrite ?Hsh; try done.
  - intros name [S Hin]%elem_of_keys. destruct (Hreg name S Hin) as (f & _ & Hd & _).
    apply elem_of_keys. eexists. by apply dict_get_Some_elem.
  - intros name S Hin. by destruct (Hreg name S Hin) as (f & _ & _ & ? & _).
  - intros name j Hin. apply Hbro. by apply Hnames.
  - intros name S Hin.
    destruct (Hsizes name) as (i & f & Hax & Hf & Hri);
      [apply Hnames, elem_of_keys; eauto |].
    exists i, (f_size f). split; [done |]. split; [done |].
    destruct (Hreg name S Hin) as (f' & Hf' & _ & _ & Hlt).
    by assert (f' = f) as -> by congruence.
Qed.

Lemma ps_alloc (p : IndexSet * Tensor A) event_dim name_to_dim :
  let ones := Z.to_nat (max_list_Z (((fun nf => e - f_dim nf.2) <$> plates) ++ [0])) in
  e = default 0 event_dim → m = default (plate_dims plates) name_to_dim →
  good_part p →
  ∃ r, _scatter_tensor zero plates p.2 p.1 None event_dim name_to_dim = Ok r
       ∧ fits_sh r
       ∧ ndim r = (length sh `max` ones)%nat
       ∧ ∀ pos, in_bounds (shape r) pos →
           (requested m e (ndim r) p.1 pos → elem r pos = expand_read p.2 pos)
           ∧ (missed m e (ndim r) p.1 pos → elem r pos = zero).
Proof.
  intros ones Hev Hmv (Hsh & Hnd & Hnames & Hreg).
  destruct p as [ix v]. cbn [fst snd] in *.
  rewrite scatter_tensor_defaults, <- Hev, <- Hmv.
  destruct (sbg_scatter zero plates _ _ v ix Hdims Hneg) as (r & Hr & Hndr & Hsizes & Hfit & _ & Hel);
    unfold ndim in *; rewrite ?Hsh; try done.
  { intros name j Hin. apply Hbro. by apply Hnames. }
  rewrite Hsh in *.
  exists r. split; [exact Hr |]. split; [| split; [exact Hndr | exact Hel]].
  unfold fits, ndim. split; [lia |]. split; [| exact Hfit].
  intros name [S Hin]%Hnames%elem_of_keys. by eapply Hsizes.
Qed.

(** The partitions after the first, scattered into the tensor at [l]. *)
Lemma ps_loop (parts : list (IndexSet * Tensor A)) (l : loc) (r0 : Tensor A)
    event_dim name_to_dim (σ : Store (A:=A) (World:=World)) :
  e = default 0 event_dim → m = default (plate_dims plates) name_to_dim →
  get_index_plates (world σ) = plates → tensors σ !! l = Some r0 →
  fits_sh r0 → Forall good_part parts →
  ∃ σ' r',
    scatter_partitions zero get_index_plates (partitioned parts) (Some l)
      event_dim name_to_dim σ = (Ok (Some l), σ')
    ∧ tensors σ' !! l = Some r' ∧ shape r' = shape r0
    ∧ ∀ pos, in_bounds (shape r0) pos →
        (∀ i p, parts !! i = Some p → requested m e (ndim r0) p.1 pos →
           (∀ j p', (i < j)%nat → parts !! j = Some p' →
              missed m e (ndim r0) p'.1 pos) →
           elem r' pos = expand_read p.2 pos)
        ∧ ((∀ p, p ∈ parts → missed m e (ndim r0) p.1 pos) →
           elem r' pos = elem r0 pos).
Proof.
  intros Hev Hmv. revert r0 σ.
  induction parts as [| p parts IH]; intros r0 σ Hplates Hl Hfits Hgood.
  - exists σ, r0. cbn. split; [done |]. split; [done |]. split; [done |].
    intros pos Hb. split; [by intros i p [=] | done].
  - apply Forall_cons in Hgood as [Hp Hgood].
    destruct (ps_into p r0 event_dim name_to_dim Hev Hmv Hp Hfits)
      as (r1 & Hr1 & Hshape1 & Hel1).
    assert (ndim r1 = ndim r0) as Hnd1 by (unfold ndim; by rewrite Hshape1).
    assert (fits_sh r1) as Hfits1.
    { destruct Hfits as (? & ? & ?). unfold fits. by rewrite Hnd1, Hshape1. }
    set (σ1 := mkStore (<[l := r1]> (tensors σ)) (world σ)
                 (effects σ ++ [EScatter p.1 (Some l)])).
    destruct (IH r1 σ1) as (σ' & r' & Hrun & Hl' & Hshape' & Hel'); [done | | done | done |].
    { unfold σ1. cbn. by rewrite lookup_insert_eq. }
    exists σ', r'. split; [| split; [done |]; split; [congruence |]].
    + destruct p as [ix v]. cbn [partitioned fmap list_fmap fst snd scatter_partitions].
      unfold scatter_in_store. cbn [tensors world effects]. rewrite Hl, Hplates.
      cbn [scatter]. cbn [fst snd] in Hr1. rewrite Hr1. exact Hrun.
    + intros pos Hb. rewrite Hshape1, Hnd1 in Hel'.
      destruct (Hel' pos Hb) as [Hlast Hnone]. destruct (Hel1 pos Hb) as [Hreq1 Hmiss1].
      split.
      * intros i q Hq Hreq Hlater. destruct i as [| i].
        -- injection Hq as <-. rewrite Hnone; [by apply Hreq1 |].
           intros p' [j Hj]%list_elem_of_lookup_1.
           apply (Hlater (S j) p'); [lia | done].
        -- cbn in Hq. apply (Hlast i q Hq Hreq).
           intros j p' Hij Hj. apply (Hlater (S j) p'); [lia | done].
      * intros Hall. rewrite Hnone; [apply Hmiss1, Hall; left |].
        intros p' Hin. apply Hall. by right.
Qed.

Lemma keys_partitioned (parts : list (IndexSet * Tensor A)) :
  key_indexsets (keys (partitioned parts)) = parts.*1
  ∧ forallb isinstance_IndexSet (keys (partitioned parts)) = true.
Proof.
  induction parts as [| [ix v] parts [IH1 IH2]]; [done |]. split.
  - cbn. f_equal. exact IH1.
  - cbn. exact IH2.
Qed.

Lemma ps_dict (p : IndexSet * Tensor A) (rest : list (IndexSet * Tensor A))
    event_dim name_to_dim (σ : Store (A:=A) (World:=World)) :
  let ones := Z.to_nat (max_list_Z (((fun nf => e - f_dim nf.2) <$> plates) ++ [0])) in
  e = default 0 event_dim → m = default (plate_dims plates) name_to_dim →
  get_index_plates (add_indices_handlers (union_all (p :: rest).*1) (world σ)) = plates →
  Forall good_part (p :: rest) →
  ∃ l r σ',
    _scatter_dict zero get_index_plates add_indices_handlers
      (partitioned (p :: rest)) None event_dim name_to_dim σ = (Ok (Some l), σ')
    ∧ (l ∉ dom (tensors σ)) ∧ tensors σ' !! l = Some r
    ∧ ndim r = (length sh `max` ones)%nat
    ∧ ∀ pos, in_bounds (shape r) pos →
        (∀ i q, (p :: rest) !! i = Some q → requested m e (ndim r) q.1 pos →
           (∀ j q', (i < j)%nat → (p :: rest) !! j = Some q' →
              missed m e (ndim r) q'.1 pos) →
           elem r pos = expand_read q.2 pos)
        ∧ ((∀ q, q ∈ p :: rest → missed m e (ndim r) q.1 pos) → elem r pos = zero).
Proof.
  intros ones Hev Hmv Hplates [Hp Hgood]%Forall_cons.
  destruct (ps_alloc p event_dim name_to_dim Hev Hmv Hp)
    as (r1 & Hr1 & Hfits1 & Hnd1 & Hel1).
  set (U := union_all (p :: rest).*1) in *.
  set (l := fresh (dom (tensors σ))).
  set (σ2 := mkStore (<[l := r1]> (tensors σ)) (add_indices_handlers U (world σ))
               ((effects σ ++ [EAddIndices U]) ++ [EScatter p.1 None])).
  destruct (ps_loop rest l r1 event_dim name_to_dim σ2 Hev Hmv)
    as (σ' & r' & Hrun & Hl' & Hshape' & Hel'); [done | | done | done |].
  { unfold σ2. cbn. by rewrite lookup_insert_eq. }
  assert (ndim r' = ndim r1) as Hnd' by (unfold ndim; by rewrite Hshape').
  exists l, r', σ'. split; [| split; [apply is_fresh |]; split; [done |]; split].
  - unfold _scatter_dict.
    change (negb (0 <? length (partitioned (p :: rest)))%nat) with false. cbn match.
    destruct (keys_partitioned (p :: rest)) as [-> ->]. cbn [negb].
    unfold add_indices. fold U. destruct p as [ix v].
    cbn [partitioned fmap list_fmap fst snd scatter_partitions].
    unfold scatter_in_store. cbn [tensors world effects]. rewrite Hplates.
    cbn [scatter]. cbn [fst snd] in Hr1. rewrite Hr1. fold l. exact Hrun.
  - by rewrite Hnd'.
  - intros pos Hb. rewrite Hnd'. rewrite Hshape' in Hb.
    destruct (Hel' pos Hb) as [Hlast Hnone]. destruct (Hel1 pos Hb) as [Hreq1 Hmiss1].
    split.
    + intros i q Hq Hreq Hlater. destruct i as [| i].
      * injection Hq as <-. rewrite Hnone; [by apply Hreq1 |].
        intros q' [j Hj]%list_elem_of_lookup_1.
        apply (Hlater (S j) q'); [lia | done].
      * cbn in Hq. apply (Hlast i q Hq Hreq).
        intros j q' Hij Hj. apply (Hlater (S j) q'); [lia | done].
    + intros Hall. rewrite Hnone; [apply Hmiss1, Hall; left |].
      intros q' Hin. apply Hall. by right.
Qed.

End PartitionedScatter.

(** X24: Scattering a partitioned value, for partitions that are tensors of one
    shape under index sets over the same names: with [result=None], for the
    registry as [add_indices] leaves it, negative distinct dims, an
    [event_dim] within the axes of the shape, values that do not vary along
    the named plates and index sets that ask for positions of their plates,
    [scatter] returns a new tensor that holds, at every position, the value
    of the last partition that requests the position, and zero where no
    partition does. For partitions that do not overlap this is the value of
    the one partition that holds the position. *)
Theorem scatter_dict_coverage {A} (zero : A) {World} (get_index_plates : World → Plates)
    (add_indices_handlers : IndexSet → World → World)
    (parts : list (IndexSet * Tensor A)) (sh : list nat) (names : list string)
    (event_dim : option Z) (name_to_dim : option (dict string Z))
    (σ : Store (A:=A) (World:=World)) :
  let plates :=
    get_index_plates (add_indices_handlers (union_all parts.*1) (world σ)) in
  let e := default 0 event_dim in
  let m := default (plate_dims plates) name_to_dim in
  let ones := Z.to_nat (max_list_Z (((fun nf => e - f_dim nf.2) <$> plates) ++ [0])) in
  parts ≠ [] →
  dims_distinct m e → (∀ name d, (name, d) ∈ m → d < 0) →
  0 ≤ e ≤ Z.of_nat (length sh) →
  (∀ name j, name ∈ names → axis_of m e (length sh) name = Some j →
     sh !! j = Some 1%nat) →
  shaped_by_plates plates m e sh →
  Forall (good_partition plates m sh names) parts →
  ∃ l r σ',
    _scatter_dict zero get_index_plates add_indices_handlers (partitioned parts)
      None event_dim name_to_dim σ = (Ok (Some l), σ')
    ∧ (l ∉ dom (tensors σ)) ∧ tensors σ' !! l = Some r
    ∧ ndim r = (length sh `max` ones)%nat
    ∧ ∀ pos, in_bounds (shape r) pos →
        (∀ i p, parts !! i = Some p → requested m e (ndim r) p.1 pos →
           (∀ j p', (i < j)%nat → parts !! j = Some p' →
              missed m e (ndim r) p'.1 pos) →
           elem r pos = expand_read p.2 pos)
        ∧ ((∀ p, p ∈ parts → missed m e (ndim r) p.1 pos) → elem r pos = zero).
Proof.
  intros plates e m ones Hne Hdims Hneg He Hbro Hshaped Hgood.
  destruct parts as [| p rest]; [done |].
  exact (ps_dict zero get_index_plates add_indices_handlers plates e m sh names
           Hdims Hneg He Hbro Hshaped p rest event_dim name_to_dim σ
           eq_refl eq_refl eq_refl Hgood).
Qed.

(** A plate of size 3 split into the positions [{0, 2}] and [{1}]. *)
Lemma scatter_dict_coverage_witness :
  let plates : Plates := [("a", mkFrame "a" (-1) 3 0)] in
  let v1 : Tensor Z := mkTensor [2; 1]%nat (fun idx => 5 + Z.of_nat (sum_list idx)) in
  let v2 : Tensor Z := mkTensor [2; 1]%nat (fun idx => 8 + Z.of_nat (sum_list idx)) in
  let parts : list (IndexSet * Tensor Z) :=
    [([("a", {[0; 2]}%nat)], v1); ([("a", {[1%nat]})], v2)] in
  let σ : Store (A:=Z) (World:=Plates) := mkStore ∅ plates [] in
  let m := plate_dims plates in
  parts ≠ []
  ∧ dims_distinct m 0 ∧ (∀ name d, (name, d) ∈ m → d < 0)
  ∧ 0 ≤ 0 ≤ Z.of_nat (length [2; 1]%nat)
  ∧ (∀ name j, name ∈ ["a"] → axis_of m 0 (length [2; 1]%nat) name = Some j →
       [2; 1]%nat !! j = Some 1%nat)
  ∧ shaped_by_plates plates m 0 [2; 1]%nat
  ∧ Forall (good_partition plates m [2; 1]%nat ["a"]) parts
  ∧ ∃ l r σ',
      _scatter_dict 0 id (fun _ w => w) (partitioned parts) None None None σ
      = (Ok (Some l), σ')
      ∧ (l ∉ dom (tensors σ)) ∧ tensors σ' !! l = Some r
      ∧ ndim r = 2%nat
      ∧ ∀ pos, in_bounds (shape r) pos →
          (∀ i p, parts !! i = Some p → requested m 0 (ndim r) p.1 pos →
             (∀ j p', (i < j)%nat → parts !! j = Some p' →
                missed m 0 (ndim r) p'.1 pos) →
             elem r pos = expand_read p.2 pos)
          ∧ ((∀ p, p ∈ parts → missed m 0 (ndim r) p.1 pos) → elem r pos = 0).
Proof.
  cbn zeta.
  set (plates := [("a", mkFrame "a" (-1) 3 0)] : Plates).
  set (v1 := mkTensor [2; 1]%nat (fun idx => 5 + Z.of_nat (sum_list idx)) : Tensor Z).
  set (v2 := mkTensor [2; 1]%nat (fun idx => 8 + Z.of_nat (sum_list idx)) : Tensor Z).
  set (parts := [([("a", {[0; 2]}%nat)], v1); ([("a", {[1%nat]})], v2)]
                : list (IndexSet * Tensor Z)).
  assert (parts ≠ []) as H1 by done.
  pose proof (a_dims_distinct 3) as H2.
  destruct broadcast_instance as (H3 & H4 & _ & _ & _ & H6).
  assert (∀ name j, name ∈ ["a"] →
            axis_of (plate_dims plates) 0 (length [2; 1]%nat) name = Some j →
            [2; 1]%nat !! j = Some 1%nat) as H5.
  { intros name j ->%list_elem_of_singleton Hax. vm_compute in Hax.
    by injection Hax as <-. }
  assert (∀ S : gset nat, S ≠ ∅ → (∀ k, k ∈ S → (k < 3)%nat) →
            ∀ v : Tensor Z, shape v = [2; 1]%nat →
            good_partition plates (plate_dims plates) [2; 1]%nat ["a"]
              ([("a", S)], v)) as Hgood.
  { intros S Hne Hlt v Hv. split; [done |]. split; [apply NoDup_singleton |].
    split; [done |]. intros name S' [= -> ->]%list_elem_of_singleton.
    exists (mkFrame "a" (-1) 3 0). done. }
  assert (Forall (good_partition plates (plate_dims plates) [2; 1]%nat ["a"]) parts)
    as H7.
  { repeat apply Forall_cons_2; [| | apply Forall_nil_2]; apply Hgood;
      first [done | set_solver | intros k Hk; set_unfold in Hk; lia]. }
  do 7 (split; [done |]).
  exact (scatter_dict_coverage 0 id (fun _ w => w) parts [2; 1]%nat ["a"] None None
           (mkStore ∅ plates []) H1 H2 H3 H4 H5 H6 H7).
Defined.

(** The tensor of this instance: columns 0 and 2 hold the first value,
    column 1 the second. *)
Example scatter_dict_coverage_run :
  let plates : Plates := [("a", mkFrame "a" (-1) 3 0)] in
  let v1 : Tensor Z := mkTensor [2; 1]%nat (fun idx => 5 + Z.of_nat (sum_list idx)) in
  let v2 : Tensor Z := mkTensor [2; 1]%nat (fun idx => 8 + Z.of_nat (sum_list idx)) in
  let parts : list (IndexSet * Tensor Z) :=
    [([("a", {[0; 2]}%nat)], v1); ([("a", {[1%nat]})], v2)] in
  let run := _scatter_dict 0 id (fun _ w => w) (partitioned parts) None None None
               (mkStore ∅ plates []) in
  (fun t => (shape t, elem t <$> [[0; 0]; [0; 1]; [0; 2]; [1; 0]; [1; 1]; [1; 2]]%nat))
    <$> (tensors run.2 !! 0%nat)
  = Some ([2; 3]%nat, [5; 8; 5; 6; 9; 6]).
Proof. vm_compute. reflexivity. Qed.
